(** * FamralPDF: the PDF editor component, embedded and verified

    The definitions below are a shallow embedding of the editor component
    [PDFEditTool], of the merge and compress tools, and of the sign tool.
    Conventions of the embedding:

    - a JavaScript [number] that holds a pixel coordinate, a size, an
      opacity or an angle is a real number ([R]): there is no NaN and no
      rounding.  The code rounds, so no theorem regroups a sum that the
      code adds up over several events;
    - a [number] that holds an index, a count or a page rotation is an
      integer ([Z]); the JavaScript remainder [%] is [Z.rem];
    - [PageMetadata] objects live in an object store ([heap]) and arrays hold
      references to them, because the code shares the objects between the
      page sequence and the history and updates one field in place;
    - [EditorElement] objects are never updated in place (every change
      builds a new object with a spread), so they are plain values;
    - an event handler reads the state of the render it was created in and
      queues updates; it is a function from that state to the state after
      the queued updates, and an asynchronous handler runs to its end
      before the next event;
    - calls into the PDF libraries are events of a trace, and an oracle
      decides which calls throw. *)

From Stdlib Require Import ZArith Reals Lra Lia List.
From stdpp Require Import base list strings pretty.
Import ListNotations.

Local Open Scope Z_scope.

(** ** JavaScript helpers *)

(** [arr[i]] for a numeric index: [undefined] (here [None]) out of range. *)
Definition js_index {A} (l : list A) (i : Z) : option A :=
  if i <? 0 then None else l !! Z.to_nat i.

(** [arr.slice(0, e)]: a negative end counts from the end of the array. *)
Definition js_slice0 {A} (l : list A) (e : Z) : list A :=
  let len := Z.of_nat (length l) in
  let k := if e <? 0 then Z.max (len + e) 0 else Z.min e len in
  take (Z.to_nat k) l.

(** [arr.shift()]: drops the first entry. *)
Definition js_shift {A} (l : list A) : list A := drop 1 l.

(** [arr.splice(i, 1)] for an index [i] of the array. *)
Definition splice_remove {A} (i : nat) (l : list A) : list A :=
  take i l ++ drop (S i) l.

(** [arr.splice(i, 0, v)] for [0 <= i]; an index past the end appends. *)
Definition splice_insert {A} (i : nat) (v : A) (l : list A) : list A :=
  take i l ++ v :: drop i l.

(** [s.includes(sub)]: substring test. *)
Fixpoint is_prefix (p s : string) : bool :=
  match p, s with
  | EmptyString, _ => true
  | String a p', String b s' => if Ascii.eqb a b then is_prefix p' s' else false
  | String _ _, EmptyString => false
  end.

Fixpoint includes (s sub : string) : bool :=
  is_prefix sub s ||
  match s with
  | EmptyString => false
  | String _ s' => includes s' sub
  end.

(** ** Data model *)

Inductive ToolMode :=
  | select | text | draw | rect | circle | image | highlight | eraser
  | line | arrow | redact.

Definition ToolMode_eqb (a b : ToolMode) : bool :=
  match a, b with
  | select, select | text, text | draw, draw | rect, rect | circle, circle
  | image, image | highlight, highlight | eraser, eraser | line, line
  | arrow, arrow | redact, redact => true
  | _, _ => false
  end.

Module TextAlign.
Inductive t := left | center | right.
End TextAlign.

Module PageMetadata.
Record t := mk {
  id : string;
  originalIndex : Z; (* -1 for blank pages *)
  rotation : Z       (* 0, 90, 180, 270 *)
}.
End PageMetadata.

Module Point.
Record t := mk { x : R; y : R }.
End Point.

Module EditorElement.
Record t := mk {
  id : string;
  pageId : string;
  type : ToolMode;
  x : R;
  y : R;
  width : R;
  height : R;
  content : option string;
  src : option string;
  color : string;
  fontSize : R;
  isBold : option bool;
  isItalic : option bool;
  textAlign : option TextAlign.t;
  opacity : R;
  rotation : option R;
  points : option (list Point.t);
  strokeWidth : R
}.

(** [{ ...el, x, y, width, height }] *)
Definition with_box (el : t) (x' y' w' h' : R) : t :=
  mk (id el) (pageId el) (type el) x' y' w' h' (content el) (src el)
     (color el) (fontSize el) (isBold el) (isItalic el) (textAlign el)
     (opacity el) (rotation el) (points el) (strokeWidth el).

(** [{ ...el, x: el.x + dx, y: el.y + dy }]: one addition per coordinate.
    The sums of several moves are never regrouped below, since the
    additions of the code round. *)
Definition moved (el : t) (dx dy : R) : t :=
  with_box el (x el + dx)%R (y el + dy)%R (width el) (height el).

(** [{ ...el, id, pageId }] *)
Definition with_ids (el : t) (id' pageId' : string) : t :=
  mk id' pageId' (type el) (x el) (y el) (width el) (height el)
     (content el) (src el) (color el) (fontSize el) (isBold el)
     (isItalic el) (textAlign el) (opacity el) (rotation el) (points el)
     (strokeWidth el).

(** [{ ...el, points: el.points ? [...el.points] : undefined }] *)
Definition clone (el : t) : t :=
  mk (id el) (pageId el) (type el) (x el) (y el) (width el) (height el)
     (content el) (src el) (color el) (fontSize el) (isBold el)
     (isItalic el) (textAlign el) (opacity el) (rotation el)
     (match points el with Some ps => Some (map (fun p => p) ps) | None => None end)
     (strokeWidth el).
End EditorElement.

Inductive PageNumberFormat := fmt_n | fmt_Page_n | fmt_Page_n_of_total.

Inductive PageNumberPosition :=
  | top_left | top_center | top_right
  | bottom_left | bottom_center | bottom_right.

Module PageNumberConfig.
Record t := mk {
  enabled : bool;
  format : PageNumberFormat;
  position : PageNumberPosition;
  fontSize : R;
  color : string;
  margin : R
}.
End PageNumberConfig.

(** The string value of a position, as the code tests it with [includes]. *)
Definition position_string (p : PageNumberPosition) : string :=
  match p with
  | top_left => "top-left" | top_center => "top-center"
  | top_right => "top-right" | bottom_left => "bottom-left"
  | bottom_center => "bottom-center" | bottom_right => "bottom-right"
  end.

(** The size of a page of a document, in PDF points. *)
Record PageSize := { page_width : R; page_height : R }.

(** The content of a PDF file as far as the editor looks at it: the sizes
    of its pages.  It stands for the bytes of the file ([fileBytes]) and for
    the document a library has parsed from them. *)
Record PdfFile := { file_pages : list PageSize }.

(** Addresses of [PageMetadata] objects in the object store. *)
Definition ref := nat.

(** One entry of the undo history:
    [{ elements: EditorElement[], sequence: PageMetadata[] }]. *)
Record Snapshot := {
  snap_elements : list EditorElement.t;
  snap_sequence : list ref
}.

Inductive Action := moving | creating | drawing | resizing | rotating.

(** The state variables of [PDFEditTool] that the modelled handlers read or
    write, and the object store. *)
Record State := mkState {
  heap : list PageMetadata.t;
  pdfDoc : option PdfFile;
  fileBytes : option PdfFile;
  pageSequence : list ref;
  currentPageIndex : Z;
  scale : R;
  docTitle : string;
  toolMode : ToolMode;
  elements : list EditorElement.t;
  selectedId : option string;
  history : list Snapshot;
  historyIndex : Z;
  watermarkText : string;
  pageNumbering : PageNumberConfig.t;
  currentColor : string;
  currentFontSize : R;
  currentStrokeWidth : R;
  currentOpacity : R;
  isDragging : bool;
  dragStart : Point.t;
  action : option Action;
  resizeDir : option string;
  newElStart : Point.t;
  activePageId : option string;
  currentPoints : list Point.t
}.

(** The state of a freshly mounted component. *)
Definition initial_state : State := {|
  heap := [];
  pdfDoc := None;
  fileBytes := None;
  pageSequence := [];
  currentPageIndex := 0;
  scale := 1%R;
  docTitle := "Untitled Document";
  toolMode := select;
  elements := [];
  selectedId := None;
  history := [];
  historyIndex := -1;
  watermarkText := "";
  pageNumbering :=
    PageNumberConfig.mk false fmt_Page_n_of_total bottom_center 12%R "#64748b" 20%R;
  currentColor := "#0ea5e9";
  currentFontSize := 16%R;
  currentStrokeWidth := 2%R;
  currentOpacity := 1%R;
  isDragging := false;
  dragStart := Point.mk 0%R 0%R;
  action := None;
  resizeDir := None;
  newElStart := Point.mk 0%R 0%R;
  activePageId := None;
  currentPoints := []
|}.

(** *** State updates *)

Definition set_heap (v : list PageMetadata.t) (s : State) : State :=
  mkState v (pdfDoc s) (fileBytes s) (pageSequence s) (currentPageIndex s)
    (scale s) (docTitle s) (toolMode s) (elements s) (selectedId s)
    (history s) (historyIndex s) (watermarkText s) (pageNumbering s)
    (currentColor s) (currentFontSize s) (currentStrokeWidth s)
    (currentOpacity s) (isDragging s) (dragStart s) (action s) (resizeDir s)
    (newElStart s) (activePageId s) (currentPoints s).

Definition setPdfDoc (v : option PdfFile) (s : State) : State :=
  mkState (heap s) v (fileBytes s) (pageSequence s) (currentPageIndex s)
    (scale s) (docTitle s) (toolMode s) (elements s) (selectedId s)
    (history s) (historyIndex s) (watermarkText s) (pageNumbering s)
    (currentColor s) (currentFontSize s) (currentStrokeWidth s)
    (currentOpacity s) (isDragging s) (dragStart s) (action s) (resizeDir s)
    (newElStart s) (activePageId s) (currentPoints s).

Definition setFileBytes (v : option PdfFile) (s : State) : State :=
  mkState (heap s) (pdfDoc s) v (pageSequence s) (currentPageIndex s)
    (scale s) (docTitle s) (toolMode s) (elements s) (selectedId s)
    (history s) (historyIndex s) (watermarkText s) (pageNumbering s)
    (currentColor s) (currentFontSize s) (currentStrokeWidth s)
    (currentOpacity s) (isDragging s) (dragStart s) (action s) (resizeDir s)
    (newElStart s) (activePageId s) (currentPoints s).

Definition setPageSequence (v : list ref) (s : State) : State :=
  mkState (heap s) (pdfDoc s) (fileBytes s) v (currentPageIndex s)
    (scale s) (docTitle s) (toolMode s) (elements s) (selectedId s)
    (history s) (historyIndex s) (watermarkText s) (pageNumbering s)
    (currentColor s) (currentFontSize s) (currentStrokeWidth s)
    (currentOpacity s) (isDragging s) (dragStart s) (action s) (resizeDir s)
    (newElStart s) (activePageId s) (currentPoints s).

Definition setCurrentPageIndex (v : Z) (s : State) : State :=
  mkState (heap s) (pdfDoc s) (fileBytes s) (pageSequence s) v
    (scale s) (docTitle s) (toolMode s) (elements s) (selectedId s)
    (history s) (historyIndex s) (watermarkText s) (pageNumbering s)
    (currentColor s) (currentFontSize s) (currentStrokeWidth s)
    (currentOpacity s) (isDragging s) (dragStart s) (action s) (resizeDir s)
    (newElStart s) (activePageId s) (currentPoints s).

Definition setDocTitle (v : string) (s : State) : State :=
  mkState (heap s) (pdfDoc s) (fileBytes s) (pageSequence s)
    (currentPageIndex s) (scale s) v (toolMode s) (elements s) (selectedId s)
    (history s) (historyIndex s) (watermarkText s) (pageNumbering s)
    (currentColor s) (currentFontSize s) (currentStrokeWidth s)
    (currentOpacity s) (isDragging s) (dragStart s) (action s) (resizeDir s)
    (newElStart s) (activePageId s) (currentPoints s).

Definition setToolMode (v : ToolMode) (s : State) : State :=
  mkState (heap s) (pdfDoc s) (fileBytes s) (pageSequence s)
    (currentPageIndex s) (scale s) (docTitle s) v (elements s) (selectedId s)
    (history s) (historyIndex s) (watermarkText s) (pageNumbering s)
    (currentColor s) (currentFontSize s) (currentStrokeWidth s)
    (currentOpacity s) (isDragging s) (dragStart s) (action s) (resizeDir s)
    (newElStart s) (activePageId s) (currentPoints s).

Definition setElements (v : list EditorElement.t) (s : State) : State :=
  mkState (heap s) (pdfDoc s) (fileBytes s) (pageSequence s)
    (currentPageIndex s) (scale s) (docTitle s) (toolMode s) v (selectedId s)
    (history s) (historyIndex s) (watermarkText s) (pageNumbering s)
    (currentColor s) (currentFontSize s) (currentStrokeWidth s)
    (currentOpacity s) (isDragging s) (dragStart s) (action s) (resizeDir s)
    (newElStart s) (activePageId s) (currentPoints s).

Definition setSelectedId (v : option string) (s : State) : State :=
  mkState (heap s) (pdfDoc s) (fileBytes s) (pageSequence s)
    (currentPageIndex s) (scale s) (docTitle s) (toolMode s) (elements s) v
    (history s) (historyIndex s) (watermarkText s) (pageNumbering s)
    (currentColor s) (currentFontSize s) (currentStrokeWidth s)
    (currentOpacity s) (isDragging s) (dragStart s) (action s) (resizeDir s)
    (newElStart s) (activePageId s) (currentPoints s).

Definition setHistory (v : list Snapshot) (s : State) : State :=
  mkState (heap s) (pdfDoc s) (fileBytes s) (pageSequence s)
    (currentPageIndex s) (scale s) (docTitle s) (toolMode s) (elements s)
    (selectedId s) v (historyIndex s) (watermarkText s) (pageNumbering s)
    (currentColor s) (currentFontSize s) (currentStrokeWidth s)
    (currentOpacity s) (isDragging s) (dragStart s) (action s) (resizeDir s)
    (newElStart s) (activePageId s) (currentPoints s).

Definition setHistoryIndex (v : Z) (s : State) : State :=
  mkState (heap s) (pdfDoc s) (fileBytes s) (pageSequence s)
    (currentPageIndex s) (scale s) (docTitle s) (toolMode s) (elements s)
    (selectedId s) (history s) v (watermarkText s) (pageNumbering s)
    (currentColor s) (currentFontSize s) (currentStrokeWidth s)
    (currentOpacity s) (isDragging s) (dragStart s) (action s) (resizeDir s)
    (newElStart s) (activePageId s) (currentPoints s).

Definition setIsDragging (v : bool) (s : State) : State :=
  mkState (heap s) (pdfDoc s) (fileBytes s) (pageSequence s)
    (currentPageIndex s) (scale s) (docTitle s) (toolMode s) (elements s)
    (selectedId s) (history s) (historyIndex s) (watermarkText s)
    (pageNumbering s) (currentColor s) (currentFontSize s)
    (currentStrokeWidth s) (currentOpacity s) v (dragStart s) (action s)
    (resizeDir s) (newElStart s) (activePageId s) (currentPoints s).

Definition setDragStart (v : Point.t) (s : State) : State :=
  mkState (heap s) (pdfDoc s) (fileBytes s) (pageSequence s)
    (currentPageIndex s) (scale s) (docTitle s) (toolMode s) (elements s)
    (selectedId s) (history s) (historyIndex s) (watermarkText s)
    (pageNumbering s) (currentColor s) (currentFontSize s)
    (currentStrokeWidth s) (currentOpacity s) (isDragging s) v (action s)
    (resizeDir s) (newElStart s) (activePageId s) (currentPoints s).

Definition setAction (v : option Action) (s : State) : State :=
  mkState (heap s) (pdfDoc s) (fileBytes s) (pageSequence s)
    (currentPageIndex s) (scale s) (docTitle s) (toolMode s) (elements s)
    (selectedId s) (history s) (historyIndex s) (watermarkText s)
    (pageNumbering s) (currentColor s) (currentFontSize s)
    (currentStrokeWidth s) (currentOpacity s) (isDragging s) (dragStart s) v
    (resizeDir s) (newElStart s) (activePageId s) (currentPoints s).

Definition setResizeDir (v : option string) (s : State) : State :=
  mkState (heap s) (pdfDoc s) (fileBytes s) (pageSequence s)
    (currentPageIndex s) (scale s) (docTitle s) (toolMode s) (elements s)
    (selectedId s) (history s) (historyIndex s) (watermarkText s)
    (pageNumbering s) (currentColor s) (currentFontSize s)
    (currentStrokeWidth s) (currentOpacity s) (isDragging s) (dragStart s)
    (action s) v (newElStart s) (activePageId s) (currentPoints s).

Definition setNewElStart (v : Point.t) (s : State) : State :=
  mkState (heap s) (pdfDoc s) (fileBytes s) (pageSequence s)
    (currentPageIndex s) (scale s) (docTitle s) (toolMode s) (elements s)
    (selectedId s) (history s) (historyIndex s) (watermarkText s)
    (pageNumbering s) (currentColor s) (currentFontSize s)
    (currentStrokeWidth s) (currentOpacity s) (isDragging s) (dragStart s)
    (action s) (resizeDir s) v (activePageId s) (currentPoints s).

Definition setActivePageId (v : option string) (s : State) : State :=
  mkState (heap s) (pdfDoc s) (fileBytes s) (pageSequence s)
    (currentPageIndex s) (scale s) (docTitle s) (toolMode s) (elements s)
    (selectedId s) (history s) (historyIndex s) (watermarkText s)
    (pageNumbering s) (currentColor s) (currentFontSize s)
    (currentStrokeWidth s) (currentOpacity s) (isDragging s) (dragStart s)
    (action s) (resizeDir s) (newElStart s) v (currentPoints s).

Definition setCurrentPoints (v : list Point.t) (s : State) : State :=
  mkState (heap s) (pdfDoc s) (fileBytes s) (pageSequence s)
    (currentPageIndex s) (scale s) (docTitle s) (toolMode s) (elements s)
    (selectedId s) (history s) (historyIndex s) (watermarkText s)
    (pageNumbering s) (currentColor s) (currentFontSize s)
    (currentStrokeWidth s) (currentOpacity s) (isDragging s) (dragStart s)
    (action s) (resizeDir s) (newElStart s) (activePageId s) v.

(** ** The object store of page metadata *)

(** [new PageMetadata]: the object gets the next address. *)
Definition alloc (h : list PageMetadata.t) (p : PageMetadata.t)
  : list PageMetadata.t * ref :=
  (h ++ [p], length h).

(** The pages an array of references denotes. *)
Fixpoint deref_all (h : list PageMetadata.t) (rs : list ref)
  : list PageMetadata.t :=
  match rs with
  | [] => []
  | r :: rs' =>
      match h !! r with
      | Some p => p :: deref_all h rs'
      | None => deref_all h rs'
      end
  end.

(** [ps.map(p => ({ ...p }))] on values: one new object per page. *)
Fixpoint alloc_all (h : list PageMetadata.t) (ps : list PageMetadata.t)
  : list PageMetadata.t * list ref :=
  match ps with
  | [] => (h, [])
  | p :: ps' =>
      let '(h1, r) := alloc h p in
      let '(h2, rs) := alloc_all h1 ps' in
      (h2, r :: rs)
  end.

(** [seq.map(p => ({ ...p }))]: a copy of every page object of [seq]. *)
Definition clone_sequence (h : list PageMetadata.t) (rs : list ref)
  : list PageMetadata.t * list ref :=
  alloc_all h (deref_all h rs).

(** The pages of the current page sequence. *)
Definition pages (s : State) : list PageMetadata.t :=
  deref_all (heap s) (pageSequence s).

(** The pages a history entry records. *)
Definition snap_pages (s : State) (e : Snapshot) : list PageMetadata.t :=
  deref_all (heap s) (snap_sequence e).

(** ** Undo history *)

(** [saveToHistory(newElements, newSequence)].  [cl] is the state of the
    render the callback was created in: [history] and [historyIndex] are
    read from it.  [s] is the state the queued updates apply to. *)
Definition saveToHistory (cl : State) (newElements : list EditorElement.t)
    (newSequence : list ref) (s : State) : State :=
  let clonedElements := map EditorElement.clone newElements in
  let '(h', clonedSequence) := clone_sequence (heap s) newSequence in
  let newHistory :=
    js_slice0 (history cl) (historyIndex cl + 1)
      ++ [ {| snap_elements := clonedElements; snap_sequence := clonedSequence |} ] in
  let newHistory :=
    if 30 <? Z.of_nat (length newHistory) then js_shift newHistory else newHistory in
  setHistoryIndex (Z.of_nat (length newHistory) - 1)
    (setHistory newHistory (set_heap h' s)).

(** The toolbar buttons: [disabled={historyIndex <= 0}] and
    [disabled={historyIndex >= history.length - 1}]. *)
Definition undo_enabled (s : State) : bool :=
  negb (historyIndex s <=? 0).

Definition redo_enabled (s : State) : bool :=
  negb (historyIndex s >=? Z.of_nat (length (history s)) - 1).

(** [undo].  Reading a field of [history[historyIndex - 1]] when that entry
    does not exist throws before any update is queued: the state stays. *)
Definition undo (s : State) : State :=
  if 0 <? historyIndex s then
    match js_index (history s) (historyIndex s - 1) with
    | Some prev =>
        setSelectedId None
          (setHistoryIndex (historyIndex s - 1)
             (setPageSequence (snap_sequence prev)
                (setElements (snap_elements prev) s)))
    | None => s
    end
  else s.

(** [redo] *)
Definition redo (s : State) : State :=
  if historyIndex s <? Z.of_nat (length (history s)) - 1 then
    match js_index (history s) (historyIndex s + 1) with
    | Some next =>
        setSelectedId None
          (setHistoryIndex (historyIndex s + 1)
             (setPageSequence (snap_sequence next)
                (setElements (snap_elements next) s)))
    | None => s
    end
  else s.

(** ** Page organizer *)

Module OrganizeType.
Inductive t := rotate | move | delete | duplicate | blank.
End OrganizeType.

(** The [param] argument: ['cw'], ['ccw'], ['up'], ['down'], or none. *)
Module Param.
Inductive t := cw | ccw | up | down | none.

Definition eqb (a b : t) : bool :=
  match a, b with
  | cw, cw | ccw, ccw | up, up | down, down | none, none => true
  | _, _ => false
  end.
End Param.

(** [{ ...p, rotation }] *)
Definition with_rotation (p : PageMetadata.t) (r : Z) : PageMetadata.t :=
  PageMetadata.mk (PageMetadata.id p) (PageMetadata.originalIndex p) r.

(** [{ ...p, id }] *)
Definition with_id (p : PageMetadata.t) (i : string) : PageMetadata.t :=
  PageMetadata.mk i (PageMetadata.originalIndex p) (PageMetadata.rotation p).

(** The value the rotate action stores:
    [(rotation + (param === 'cw' ? 90 : -90) + 360) % 360]. *)
Definition rotated (r : Z) (param : Param.t) : Z :=
  Z.rem (r + (if Param.eqb param Param.cw then 90 else -90) + 360) 360.

(** What a call of [organizeAction] leaves behind: the state, and the
    messages of the [alert] calls. *)
Record Outcome := { out_state : State; out_alerts : list string }.

(** [organizeAction(type, param, specificIndex)].  [newId] is the random id
    of a page the action creates and [cloneId k] the id of the [k]-th
    element it clones.  The result is [None] when the handler throws:
    [pageSequence[targetIdx].id] with no page at [targetIdx], before any
    update is queued.  (A reference of the page sequence always denotes an
    object; the model also answers [None] for a dangling one.) *)
Definition organizeAction (type : OrganizeType.t) (param : Param.t)
    (specificIndex : option Z) (newId : string) (cloneId : nat -> string)
    (s : State) : option Outcome :=
  let targetIdx :=
    match specificIndex with Some i => i | None => currentPageIndex s end in
  match js_index (pageSequence s) targetIdx with
  | None => None
  | Some target =>
    match heap s !! target with
    | None => None
    | Some targetPage =>
      let pageId := PageMetadata.id targetPage in
      let t := Z.to_nat targetIdx in
      let finish (s1 : State) (newSequence : list ref)
                 (newElements : list EditorElement.t) : option Outcome :=
        Some {| out_state :=
                  saveToHistory s newElements newSequence
                    (setElements newElements (setPageSequence newSequence s1));
                out_alerts := [] |} in
      match type with
      | OrganizeType.rotate =>
          let h' :=
            <[ target := with_rotation targetPage
                           (rotated (PageMetadata.rotation targetPage) param) ]>
              (heap s) in
          finish (set_heap h' s) (pageSequence s) (elements s)
      | OrganizeType.move =>
          let moveTarget :=
            if Param.eqb param Param.up then targetIdx - 1 else targetIdx + 1 in
          if (0 <=? moveTarget) && (moveTarget <? Z.of_nat (length (pageSequence s)))
          then
            match pageSequence s !! Z.to_nat moveTarget with
            | Some other =>
                finish (setCurrentPageIndex moveTarget s)
                  (<[ Z.to_nat moveTarget := target ]>
                     (<[ t := other ]> (pageSequence s)))
                  (elements s)
            | None => finish s (pageSequence s) (elements s)
            end
          else finish s (pageSequence s) (elements s)
      | OrganizeType.delete =>
          if 1 <? Z.of_nat (length (pageSequence s)) then
            finish (setCurrentPageIndex (Z.max 0 (targetIdx - 1)) s)
              (splice_remove t (pageSequence s))
              (filter (fun el => EditorElement.pageId el ≠ pageId) (elements s))
          else
            Some {| out_state := s;
                    out_alerts := ["Document must have at least one page."] |}
      | OrganizeType.duplicate =>
          let '(h', r) := alloc (heap s) (with_id targetPage newId) in
          let currentElements :=
            filter (fun el => EditorElement.pageId el = pageId) (elements s) in
          let clonedElements :=
            imap (fun k el => EditorElement.with_ids el (cloneId k) newId)
              currentElements in
          finish (setCurrentPageIndex (targetIdx + 1) (set_heap h' s))
            (splice_insert (S t) r (pageSequence s))
            (elements s ++ clonedElements)
      | OrganizeType.blank =>
          let '(h', r) := alloc (heap s) (PageMetadata.mk newId (-1) 0) in
          finish (setCurrentPageIndex (targetIdx + 1) (set_heap h' s))
            (splice_insert (S t) r (pageSequence s))
            (elements s)
      end
    end
  end.

(** [handlePageDrop(e, targetIndex)].  [sourceIndex] is
    [parseInt(e.dataTransfer.getData('pageIndex'))], [None] for NaN; both
    indexes are indexes of rendered thumbnails.  The result is [None] when
    [sourceIndex] is not an index of the page sequence (the code would store
    [undefined] in the sequence, which the model does not represent). *)
Definition handlePageDrop (sourceIndex : option nat) (targetIndex : nat)
    (s : State) : option State :=
  match sourceIndex with
  | None => Some s
  | Some src =>
      if Nat.eqb src targetIndex then Some s
      else
        match pageSequence s !! src with
        | None => None
        | Some movedPage =>
            let newSequence :=
              splice_insert targetIndex movedPage
                (splice_remove src (pageSequence s)) in
            Some (setCurrentPageIndex (Z.of_nat targetIndex)
                    (saveToHistory s (elements s) newSequence
                       (setPageSequence newSequence s)))
        end
  end.

(** The "New Document" entry of the file menu:
    [setPdfDoc(null); setPageSequence([{ id, originalIndex: -1, rotation: 0 }])]. *)
Definition newDocument (newId : string) (s : State) : State :=
  let '(h', r) := alloc (heap s) (PageMetadata.mk newId (-1) 0) in
  setPageSequence [r] (setPdfDoc None (set_heap h' s)).

(** ** Mouse interaction *)

(** The fields of a mouse event the handlers read. *)
Record MouseEvent := { clientX : R; clientY : R; shiftKey : bool }.

(** [document.getElementById(`page-${id}`)?.getBoundingClientRect()]: the
    left and top of the page container, [None] when there is no such
    element. *)
Definition Dom := option string -> option Point.t.

(** A string used as a condition: [null] and the empty string are falsy. *)
Definition truthy (o : option string) : bool :=
  match o with
  | Some s => negb (String.eqb s "")
  | None => false
  end.

Definition id_is (o : option string) (i : string) : bool :=
  match o with
  | Some s => String.eqb i s
  | None => false
  end.

Definition Action_eqb (a b : Action) : bool :=
  match a, b with
  | moving, moving | creating, creating | drawing, drawing
  | resizing, resizing | rotating, rotating => true
  | _, _ => false
  end.

Definition action_is (o : option Action) (a : Action) : bool :=
  match o with
  | Some b => Action_eqb a b
  | None => false
  end.

(** [a < b] on numbers, as a condition. *)
Definition Rltb (a b : R) : bool := if Rlt_dec a b then true else false.

(** [Math.atan2], [Math.round], [Math.min(...xs)], [Math.max(...xs)]. *)
Definition atan2 (y x : R) : R :=
  if Rlt_dec 0 x then atan (y / x)
  else if Rlt_dec x 0 then
    (if Rle_dec 0 y then atan (y / x) + PI else atan (y / x) - PI)
  else if Rlt_dec 0 y then PI / 2
  else if Rlt_dec y 0 then - (PI / 2)
  else 0.

Definition Math_round (v : R) : Z := (up (v + 1 / 2) - 1)%Z.

Definition Math_min_list (d : R) (l : list R) : R :=
  match l with
  | [] => d
  | a :: l' => fold_left Rmin l' a
  end.

Definition Math_max_list (d : R) (l : list R) : R :=
  match l with
  | [] => d
  | a :: l' => fold_left Rmax l' a
  end.

(** The callback of the resize branch of [handleMouseMove], applied to one
    element of the list. *)
Definition resize_item (selected : option string) (dir : string) (dx dy : R)
    (item : EditorElement.t) : EditorElement.t :=
  if negb (id_is selected (EditorElement.id item)) then item
  else
    let ex := EditorElement.x item in
    let ey := EditorElement.y item in
    let width := EditorElement.width item in
    let height := EditorElement.height item in
    let width := if includes dir "e" then (width + dx)%R else width in
    let height := if includes dir "s" then (height + dy)%R else height in
    let '(ex, width) :=
      if includes dir "w" then ((ex + dx)%R, (width - dx)%R) else (ex, width) in
    let '(ey, height) :=
      if includes dir "n" then ((ey + dy)%R, (height - dy)%R) else (ey, height) in
    EditorElement.with_box item ex ey (Rmax 10 width) (Rmax 10 height).

(** [{ ...el, rotation }] *)
Definition with_el_rotation (el : EditorElement.t) (r : R) : EditorElement.t :=
  EditorElement.mk (EditorElement.id el) (EditorElement.pageId el)
    (EditorElement.type el) (EditorElement.x el) (EditorElement.y el)
    (EditorElement.width el) (EditorElement.height el)
    (EditorElement.content el) (EditorElement.src el) (EditorElement.color el)
    (EditorElement.fontSize el) (EditorElement.isBold el)
    (EditorElement.isItalic el) (EditorElement.textAlign el)
    (EditorElement.opacity el) (Some r) (EditorElement.points el)
    (EditorElement.strokeWidth el).

(** [handleMouseMove(e)] *)
Definition handleMouseMove (e : MouseEvent) (dom : Dom) (s : State) : State :=
  if negb (isDragging s) then s
  else
    let x := clientX e in
    let y := clientY e in
    if action_is (action s) drawing then
      match dom (activePageId s) with
      | Some box =>
          setCurrentPoints
            (currentPoints s
               ++ [Point.mk (x - Point.x box)%R (y - Point.y box)%R]) s
      | None => s
      end
    else if action_is (action s) moving && truthy (selectedId s) then
      let dx := (x - Point.x (dragStart s))%R in
      let dy := (y - Point.y (dragStart s))%R in
      setElements
        (map (fun el =>
                if id_is (selectedId s) (EditorElement.id el)
                then EditorElement.moved el dx dy else el) (elements s))
        (setDragStart (Point.mk x y) s)
    else if action_is (action s) resizing && truthy (selectedId s)
            && truthy (resizeDir s) then
      let dx := (x - Point.x (dragStart s))%R in
      let dy := (y - Point.y (dragStart s))%R in
      setElements
        (map (resize_item (selectedId s) (default "" (resizeDir s)) dx dy)
           (elements s))
        (setDragStart (Point.mk x y) s)
    else if action_is (action s) rotating && truthy (selectedId s)
            && truthy (activePageId s) then
      match List.find (fun el => id_is (selectedId s) (EditorElement.id el))
              (elements s),
            dom (activePageId s) with
      | Some el, Some box =>
          let centerX :=
            (Point.x box + EditorElement.x el + EditorElement.width el / 2)%R in
          let centerY :=
            (Point.y box + EditorElement.y el + EditorElement.height el / 2)%R in
          let angle := (atan2 (y - centerY) (x - centerX) * (180 / PI))%R in
          let finalAngle := (angle + 90)%R in
          let finalAngle :=
            if shiftKey e then (IZR (Math_round (finalAngle / 15)) * 15)%R
            else finalAngle in
          let rot := IZR (Z.rem (Math_round finalAngle + 360) 360) in
          setElements
            (map (fun el' =>
                    if id_is (selectedId s) (EditorElement.id el')
                    then with_el_rotation el' rot else el') (elements s)) s
      | _, _ => s
      end
    else s.

(** [onActionStart(act, dir, start, pId)], the callback the pages get. *)
Definition onActionStart (act : Action) (dir : option string)
    (start : Point.t) (pId : string) (s : State) : State :=
  let s1 :=
    setActivePageId (Some pId)
      (setIsDragging true
         (setDragStart start
            (setNewElStart start (setResizeDir dir (setAction (Some act) s))))) in
  if Action_eqb act drawing then setCurrentPoints [start] s1 else s1.

(** The element the drawing branch of [handleMouseUp] builds. *)
Definition drawn_element (now pageId : string) (s : State) : EditorElement.t :=
  let xs := map Point.x (currentPoints s) in
  let ys := map Point.y (currentPoints s) in
  let minX := Math_min_list 0 xs in
  let minY := Math_min_list 0 ys in
  let maxX := Math_max_list 0 xs in
  let maxY := Math_max_list 0 ys in
  let hl := ToolMode_eqb (toolMode s) highlight in
  EditorElement.mk now pageId (if hl then highlight else draw)
    minX minY (maxX - minX)%R (maxY - minY)%R None None (currentColor s)
    (currentFontSize s) None None None
    (if hl then 0.35%R else currentOpacity s) (Some 0%R)
    (Some (currentPoints s))
    (if hl then 20%R else currentStrokeWidth s).

(** The element the creating branch of [handleMouseUp] builds; [x], [y] is
    the mouse position relative to the page and [w], [h] the drag extent. *)
Definition created_element (now pageId : string) (x y w h : R) (s : State)
  : EditorElement.t :=
  let tm := toolMode s in
  let linear := ToolMode_eqb tm line || ToolMode_eqb tm arrow in
  let red := ToolMode_eqb tm redact in
  EditorElement.mk now pageId tm
    (if linear then Point.x (newElStart s) else Rmin x (Point.x (newElStart s)))
    (if linear then Point.y (newElStart s) else Rmin y (Point.y (newElStart s)))
    (if linear then Rmax 20 w else Rmax 20 (Rabs w))
    (if linear then Rmax 20 h else Rmax 20 (Rabs h))
    (if ToolMode_eqb tm text then Some "Type here..." else None)
    None
    (if red then "#000000" else currentColor s)
    (currentFontSize s) (Some false) (Some false) (Some TextAlign.left)
    (if red then 1%R else currentOpacity s) (Some 0%R) None
    (if red then 1%R else currentStrokeWidth s).

(** [handleMouseUp(e)]; [now] is [Date.now().toString()]. *)
Definition handleMouseUp (e : MouseEvent) (dom : Dom) (now : string)
    (s : State) : State :=
  if negb (isDragging s) then s
  else
    let s1 :=
      if action_is (action s) drawing && truthy (activePageId s)
         && (2 <? Z.of_nat (length (currentPoints s))) then
        let newEl := drawn_element now (default "" (activePageId s)) s in
        let updated := elements s ++ [newEl] in
        saveToHistory s updated (pageSequence s) (setElements updated s)
      else if action_is (action s) creating && truthy (activePageId s) then
        match dom (activePageId s) with
        | Some box =>
            let x := (clientX e - Point.x box)%R in
            let y := (clientY e - Point.y box)%R in
            let w := (x - Point.x (newElStart s))%R in
            let h := (y - Point.y (newElStart s))%R in
            let newEl :=
              created_element now (default "" (activePageId s)) x y w h s in
            if ToolMode_eqb (toolMode s) text
               || Rltb 5 (Rabs w) || Rltb 5 (Rabs h) then
              let updated := elements s ++ [newEl] in
              let s2 :=
                saveToHistory s updated (pageSequence s)
                  (setElements updated s) in
              let s3 :=
                if negb (ToolMode_eqb (toolMode s) text)
                then setToolMode select s2 else s2 in
              setSelectedId (Some (EditorElement.id newEl)) s3
            else s
        | None => s
        end
      else if action_is (action s) moving || action_is (action s) resizing
              || action_is (action s) rotating then
        saveToHistory s (elements s) (pageSequence s) s
      else s in
    setActivePageId None
      (setCurrentPoints []
         (setResizeDir None (setAction None (setIsDragging false s1)))).


(** ** The PDF libraries and the browser, as a trace of calls *)

Inductive StandardFont :=
  | Helvetica | HelveticaBold | HelveticaOblique | HelveticaBoldOblique.

(** [rgb(r, g, b)] *)
Record Color := rgb { red : R; green : R; blue : R }.

(** Methods of a page of the output document; angles in degrees. *)
Inductive PageOp :=
  | setRotation (angle : Z)
  | drawText (text : string) (x y size : R) (font : StandardFont)
      (color : Color) (opacity : option R) (rotate : option R)
  | drawRectangle (x y width height : R) (borderColor : option Color)
      (borderWidth : option R) (color : option Color) (opacity : option R)
      (rotate : R)
  | drawEllipse (x y xScale yScale : R) (borderColor : Color)
      (borderWidth opacity rotate : R)
  | drawLine (startX startY endX endY : R) (color : Color)
      (thickness opacity : R)
  | drawImage (x y width height : R) (opacity : option R)
      (rotate : option R).

(** The calls that can throw.  [on_page i op] is a method call on the page
    that round [i] of the loop of the handler works on (what its variable
    [page] holds at that moment); rounds count from 0. *)
Inductive LibCall :=
  | PDFDocument_load
  | PDFDocument_create
  | embedFont (f : StandardFont)
  | copyPages (indices : list Z)
  | addPage_copied
  | addPage_size (w h : R)
  | on_page (i : nat) (op : PageOp)
  | embedPng (src : string)
  | embedJpg (src : string)
  | embedJpg_canvas (page : Z) (quality : R)
  | save
  | getDocument
  | getPage (n : Z)
  | getTextContent
  | render (n : Z)
  | File_arrayBuffer
  | canvas_getContext.


Inductive Flag := isSaving | isLoading | isFileMenuOpen | isMerging | isCompressing.

(** What a handler does that the state record does not hold. *)
Inductive Event :=
  | Call (c : LibCall)            (* the call returned *)
  | Throw (c : LibCall)           (* the call threw *)
  | Alert (msg : string)
  | ConsoleError (msg : string)
  | SetFlag (flag : Flag) (b : bool)
  | SetFileName (name : string)
  | SetDocumentText (pagesRead : nat)
  | SetProgress (p : Z)
  | SetCompressed (f : PdfFile)
  | Download (fileName : string) (f : PdfFile).

(** The behaviour of the libraries: which call throws, given what happened
    before it, and the width of a text in a font. *)
Record Library := {
  throws : list Event -> LibCall -> bool;
  widthOfTextAtSize : StandardFont -> string -> R -> R
}.

(** The result of running a handler: the trace, the state, and the value,
    [None] when an exception escaped. *)
Record Res (St A : Type) := mkRes {
  res_trace : list Event;
  res_state : St;
  res_value : option A
}.
Arguments mkRes {St A}.
Arguments res_trace {St A}.
Arguments res_state {St A}.
Arguments res_value {St A}.

Definition M (St A : Type) : Type := Library -> list Event -> St -> Res St A.

#[global] Instance M_ret {St} : MRet (M St) :=
  λ A a lib tr s, mkRes tr s (Some a).

#[global] Instance M_bind {St} : MBind (M St) :=
  λ A B k m lib tr s,
    match m lib tr s with
    | mkRes tr' s' (Some a) => k a lib tr' s'
    | mkRes tr' s' None => mkRes tr' s' None
    end.

Definition emit {St} (e : Event) : M St unit :=
  λ lib tr s, mkRes (tr ++ [e]) s (Some tt).

Definition modify {St} (f : St -> St) : M St unit :=
  λ lib tr s, mkRes tr (f s) (Some tt).

Definition library {St} : M St Library :=
  λ lib tr s, mkRes tr s (Some lib).

(** A call of the library: it returns or throws, as the library decides. *)
Definition call {St} (c : LibCall) : M St unit :=
  λ lib tr s,
    if throws lib tr c then mkRes (tr ++ [Throw c]) s None
    else mkRes (tr ++ [Call c]) s (Some tt).

(** A call that throws whatever the library says (a bad argument). *)
Definition call_throwing {St A} (c : LibCall) : M St A :=
  λ lib tr s, mkRes (tr ++ [Throw c]) s None.

(** [try { m } catch (e) { h }] *)
Definition try_catch {St A} (m h : M St A) : M St A :=
  λ lib tr s,
    match m lib tr s with
    | mkRes tr' s' None => h lib tr' s'
    | r => r
    end.

(** [try { m } finally { f }] *)
Definition try_finally {St A} (m : M St A) (f : M St unit) : M St A :=
  λ lib tr s,
    match m lib tr s with
    | mkRes tr' s' v =>
        match f lib tr' s' with
        | mkRes tr'' s'' (Some _) => mkRes tr'' s'' v
        | mkRes tr'' s'' None => mkRes tr'' s'' None
        end
    end.

(** [for (const x of l) { f(x) }], with the index of [x]. *)
Fixpoint for_each_from {St A} (i : nat) (l : list A) (f : nat -> A -> M St unit)
  : M St unit :=
  match l with
  | [] => mret tt
  | a :: l' => f i a ;; for_each_from (S i) l' f
  end.

Definition for_each {St A} (l : list A) (f : nat -> A -> M St unit) : M St unit :=
  for_each_from 0 l f.

(** [m], and the events it has added to the trace. *)
Definition recording {St A} (m : M St A) : M St (A * list Event) :=
  λ lib tr s,
    match m lib tr s with
    | mkRes tr' s' (Some a) => mkRes tr' s' (Some (a, drop (length tr) tr'))
    | mkRes tr' s' None => mkRes tr' s' None
    end.

(** ** Export: [handleDownload] and [flattenPDF] *)

Definition hex_digit (c : Ascii.ascii) : option Z :=
  let n := Z.of_nat (Ascii.nat_of_ascii c) in
  if (48 <=? n) && (n <=? 57) then Some (n - 48)
  else if (97 <=? n) && (n <=? 102) then Some (n - 87)
  else if (65 <=? n) && (n <=? 70) then Some (n - 55)
  else None.

(** [parseInt(s, 16)] for a string of two hexadecimal digits. *)
Definition hex_pair (a b : Ascii.ascii) : option Z :=
  match hex_digit a, hex_digit b with
  | Some u, Some v => Some (16 * u + v)
  | _, _ => None
  end.

(** [hexToRgb]: the regular expression accepts an optional [#] and three
    pairs of hexadecimal digits, in either case; anything else is black. *)
Definition hexToRgb (hex : string) : Color :=
  let body :=
    match hex with
    | String (Ascii.Ascii true true false false false true false false) rest => rest
    | _ => hex
    end in
  match body with
  | String a (String b (String c (String d (String e (String f EmptyString))))) =>
      match hex_pair a b, hex_pair c d, hex_pair e f with
      | Some r, Some g, Some bl =>
          rgb (IZR r / 255) (IZR g / 255) (IZR bl / 255)
      | _, _, _ => rgb 0 0 0
      end
  | _ => rgb 0 0 0
  end.

Definition blank_page : PageSize :=
  {| page_width := 612; page_height := 792 |}.

(** [page = outputDoc.addPage([612, 792])] *)
Definition addBlankPage {St} : M St PageSize :=
  call (addPage_size 612 792) ;; mret blank_page.

(** [outputDoc.copyPages(sourceDoc, [targetIndex])]: the library throws for
    an index that is not a page of the source. *)
Definition copyPage {St} (sourceDoc : PdfFile) (targetIndex : Z) : M St PageSize :=
  match js_index (file_pages sourceDoc) targetIndex with
  | Some size => call (copyPages [targetIndex]) ;; mret size
  | None => call_throwing (copyPages [targetIndex])
  end.

(** The first part of the body of the page loop: it leaves the page for
    the entry [meta] in the variable [page], and answers its size.
    [handleDownload] tests [targetIndex >= 0], [flattenPDF]
    ([flatten = true]) does not.  When [setRotation] throws, the copied page
    is in the output document already and the [catch] block adds a blank
    page after it, which [page] then holds. *)
Definition addOutputPage {St} (flatten : bool) (sourceDoc : option PdfFile)
    (i : nat) (meta : PageMetadata.t) : M St PageSize :=
  if PageMetadata.originalIndex meta =? -1 then addBlankPage
  else
    try_catch
      (let targetIndex := PageMetadata.originalIndex meta - 1 in
       match sourceDoc with
       | Some source =>
           if (flatten || (0 <=? targetIndex))
              && (targetIndex <? Z.of_nat (length (file_pages source)))
           then
             size ← copyPage source targetIndex ;
             call addPage_copied ;;
             call (on_page i (setRotation (PageMetadata.rotation meta))) ;;
             mret size
           else addBlankPage
       | None => addBlankPage
       end)
      addBlankPage.

(** The text of a page number. *)
Definition pageNumberText (format : PageNumberFormat) (n total : nat) : string :=
  match format with
  | fmt_n => pretty n
  | fmt_Page_n => "Page " +:+ pretty n
  | fmt_Page_n_of_total => "Page " +:+ pretty n +:+ " of " +:+ pretty total
  end.

(** "Draw Page Number if enabled" *)
Definition drawPageNumber {St} (cfg : PageNumberConfig.t) (i total : nat)
    (size : PageSize) : M St unit :=
  if PageNumberConfig.enabled cfg then
    lib ← library ;
    let h := page_height size in
    let w := page_width size in
    let text := pageNumberText (PageNumberConfig.format cfg) (i + 1) total in
    let fontSize := PageNumberConfig.fontSize cfg in
    let textWidth := widthOfTextAtSize lib Helvetica text fontSize in
    let margin := PageNumberConfig.margin cfg in
    let pos := position_string (PageNumberConfig.position cfg) in
    let ty := if includes pos "top" then (h - margin - fontSize)%R else margin in
    let tx :=
      if includes pos "center" then ((w - textWidth) / 2)%R
      else if includes pos "right" then (w - margin - textWidth)%R
      else margin in
    call (on_page i
            (drawText text tx ty fontSize Helvetica
               (hexToRgb (PageNumberConfig.color cfg)) None None))
  else mret tt.

(** [if (watermarkText) { page.drawText(watermarkText, ...) }] *)
Definition drawWatermark {St} (watermark : string) (i : nat) (size : PageSize)
  : M St unit :=
  if negb (String.eqb watermark "") then
    call (on_page i
            (drawText watermark 50 (page_height size / 2) 60 HelveticaBold
               (rgb 0.8 0.8 0.8) (Some 0.25%R) (Some 45%R)))
  else mret tt.

(** [el.rotation || 0] *)
Definition rotation_or_0 (el : EditorElement.t) : R :=
  match EditorElement.rotation el with
  | Some r => r
  | None => 0
  end.

(** [getRotatedXY(origX, origY)], with the values [cx], [cy] and [rotVal]
    of its closure. *)
Definition getRotatedXY (cx cy rotVal origX origY : R) : Point.t :=
  let angleRad := (rotVal * PI / 180)%R in
  let c := cos angleRad in
  let s := sin angleRad in
  let dx := (origX - cx)%R in
  let dy := (origY - cy)%R in
  Point.mk (cx + (dx * c - dy * s))%R (cy + (dx * s + dy * c))%R.

Definition is_true (o : option bool) : bool := default false o.

(** [el.content || ' '] *)
Definition content_or_space (el : EditorElement.t) : string :=
  match EditorElement.content el with
  | Some s => if String.eqb s "" then " " else s
  | None => " "
  end.

(** The body of the loop over the elements of a page that are not
    redactions; [h] is the height of the page. *)
Definition replayElement {St} (scale h : R) (i : nat) (el : EditorElement.t)
  : M St unit :=
  if ToolMode_eqb (EditorElement.type el) redact then mret tt
  else
    let px := (EditorElement.x el / scale)%R in
    let py := (h - EditorElement.y el / scale)%R in
    let pw := (EditorElement.width el / scale)%R in
    let ph := (EditorElement.height el / scale)%R in
    let rotVal := (- rotation_or_0 el)%R in
    let cx := (px + pw / 2)%R in
    let cy := (py - ph / 2)%R in
    let color := hexToRgb (EditorElement.color el) in
    match EditorElement.type el with
    | text =>
        let selectedFont :=
          if is_true (EditorElement.isBold el) && is_true (EditorElement.isItalic el)
          then HelveticaBoldOblique
          else if is_true (EditorElement.isBold el) then HelveticaBold
          else if is_true (EditorElement.isItalic el) then HelveticaOblique
          else Helvetica in
        let pos :=
          getRotatedXY cx cy rotVal px (py - EditorElement.fontSize el / scale) in
        call (on_page i
                (drawText (content_or_space el) (Point.x pos) (Point.y pos)
                   (EditorElement.fontSize el / scale) selectedFont color
                   (Some (EditorElement.opacity el)) (Some rotVal)))
    | rect =>
        let pos := getRotatedXY cx cy rotVal px (py - ph) in
        call (on_page i
                (drawRectangle (Point.x pos) (Point.y pos) pw ph (Some color)
                   (Some (EditorElement.strokeWidth el / scale)%R) None
                   (Some (EditorElement.opacity el)) rotVal))
    | circle =>
        call (on_page i
                (drawEllipse cx cy (pw / 2) (ph / 2) color
                   (EditorElement.strokeWidth el / scale)
                   (EditorElement.opacity el) rotVal))
    | line | arrow =>
        let start := getRotatedXY cx cy rotVal px py in
        let end_ := getRotatedXY cx cy rotVal (px + pw) (py - ph) in
        call (on_page i
                (drawLine (Point.x start) (Point.y start) (Point.x end_)
                   (Point.y end_) color (EditorElement.strokeWidth el / scale)
                   (EditorElement.opacity el)))
    | image =>
        if truthy (EditorElement.src el) then
          let src := default "" (EditorElement.src el) in
          try_catch
            (call (if includes src "png" then embedPng src else embedJpg src) ;;
             let pos := getRotatedXY cx cy rotVal px (py - ph) in
             call (on_page i
                     (drawImage (Point.x pos) (Point.y pos) pw ph
                        (Some (EditorElement.opacity el)) (Some rotVal))))
            (mret tt)
        else mret tt
    | _ => mret tt
    end.

(** The body of the loop over the redactions of a page. *)
Definition replayRedaction {St} (scale h : R) (i : nat) (el : EditorElement.t)
  : M St unit :=
  let px := (EditorElement.x el / scale)%R in
  let py := (h - EditorElement.y el / scale)%R in
  let pw := (EditorElement.width el / scale)%R in
  let ph := (EditorElement.height el / scale)%R in
  let rotVal := (- rotation_or_0 el)%R in
  let cx := (px + pw / 2)%R in
  let cy := (py - ph / 2)%R in
  let angleRad := (rotVal * PI / 180)%R in
  let c := cos angleRad in
  let s := sin angleRad in
  let dx := (px - cx)%R in
  let dy := ((py - ph) - cy)%R in
  let rx := (cx + (dx * c - dy * s))%R in
  let ry := (cy + (dx * s + dy * c))%R in
  call (on_page i
          (drawRectangle rx ry pw ph None None (Some (rgb 0 0 0)) None rotVal)).

(** [elements.filter(el => el.pageId === meta.id)] *)
Definition elements_of_page (els : list EditorElement.t) (meta : PageMetadata.t)
  : list EditorElement.t :=
  filter (fun el => EditorElement.pageId el = PageMetadata.id meta) els.

Definition is_redaction (el : EditorElement.t) : bool :=
  ToolMode_eqb (EditorElement.type el) redact.

(** The body of the page loop, which [handleDownload] and [flattenPDF] both
    contain: the page, its number, the watermark, the elements, the
    redactions.  It answers the size of the page. *)
Definition exportPage {St} (flatten : bool) (cl : State)
    (sourceDoc : option PdfFile) (i : nat) (meta : PageMetadata.t)
  : M St PageSize :=
  size ← addOutputPage flatten sourceDoc i meta ;
  let h := page_height size in
  drawPageNumber (pageNumbering cl) i (length (pageSequence cl)) size ;;
  drawWatermark (watermarkText cl) i size ;;
  let pageElements := elements_of_page (elements cl) meta in
  for_each pageElements (fun _ el => replayElement (scale cl) h i el) ;;
  for_each (List.filter is_redaction pageElements)
    (fun _ el => replayRedaction (scale cl) h i el) ;;
  mret size.

(** [for (let i = 0; i < pageSequence.length; i++) { ... }], collecting the
    sizes of the pages the rounds have drawn on. *)
Fixpoint exportPages {St} (flatten : bool) (cl : State)
    (sourceDoc : option PdfFile) (i : nat) (metas : list PageMetadata.t)
  : M St (list PageSize) :=
  match metas with
  | [] => mret []
  | meta :: metas' =>
      size ← exportPage flatten cl sourceDoc i meta ;
      sizes ← exportPages flatten cl sourceDoc (S i) metas' ;
      mret (size :: sizes)
  end.

(** The pages that the calls [ev] have added to the output document, in
    order: [outputDoc.addPage(page)] appends the page the last [copyPages]
    has copied from the source, [outputDoc.addPage([w, h])] a page of that
    size.  A call that threw has added nothing. *)
Fixpoint added_pages (source : option PdfFile) (copied : PageSize)
    (ev : list Event) : list PageSize :=
  match ev with
  | [] => []
  | Call (copyPages [index]) :: ev' =>
      added_pages source
        (default copied (f ← source ; js_index (file_pages f) index)) ev'
  | Call addPage_copied :: ev' => copied :: added_pages source copied ev'
  | Call (addPage_size w h) :: ev' =>
      {| page_width := w; page_height := h |} :: added_pages source copied ev'
  | _ :: ev' => added_pages source copied ev'
  end.

(** The statements of the [try] block up to [outputDoc.save()], which the
    two handlers share: the output document as a file, with the pages that
    the calls of the loop have added to it. *)
Definition buildOutput {St} (flatten : bool) (cl : State) : M St PdfFile :=
  sourceDoc ←
    match fileBytes cl with
    | Some f => call PDFDocument_load ;; mret (Some f)
    | None => mret None
    end ;
  call PDFDocument_create ;;
  call (embedFont Helvetica) ;;
  call (embedFont HelveticaBold) ;;
  call (embedFont HelveticaOblique) ;;
  call (embedFont HelveticaBoldOblique) ;;
  made ← recording (exportPages flatten cl sourceDoc 0 (pages cl)) ;
  call save ;;
  mret {| file_pages := added_pages sourceDoc blank_page (snd made) |}.

(** The [try], [catch] and [finally] blocks of [handleDownload]. *)
Definition download_try (cl : State) : M State unit :=
  out ← buildOutput false cl ;
  emit (Download
          ((if String.eqb (docTitle cl) "" then "document" else docTitle cl)
             +:+ ".pdf") out).

Definition download_catch : M State unit :=
  emit (ConsoleError "PDF Gen Error:") ;;
  emit (Alert "Error generating PDF.").

Definition download_finally : M State unit :=
  emit (SetFlag isSaving false).

(** [handleDownload] *)
Definition handleDownload (cl : State) : M State unit :=
  if Nat.eqb (length (pageSequence cl)) 0 then mret tt
  else
    emit (SetFlag isSaving true) ;;
    try_finally (try_catch (download_try cl) download_catch) download_finally.

(** [pageSequence.map((p, idx) => ({ ...p, originalIndex: idx + 1, rotation: 0 }))] *)
Definition normalized (ps : list PageMetadata.t) : list PageMetadata.t :=
  imap (fun idx p => PageMetadata.mk (PageMetadata.id p) (Z.of_nat idx + 1) 0) ps.

(** [setPageSequence(normalizedSequence); setElements([]);
    saveToHistory([], normalizedSequence)], with the new page objects. *)
Definition install_normalized (cl : State) (s : State) : State :=
  let '(h', rs) := alloc_all (heap s) (normalized (pages cl)) in
  saveToHistory cl [] rs (setElements [] (setPageSequence rs (set_heap h' s))).

(** The [try], [catch] and [finally] blocks of [flattenPDF]. *)
Definition flatten_try (cl : State) : M State unit :=
  out ← buildOutput true cl ;
  modify (setFileBytes (Some out)) ;;
  call getDocument ;;
  modify (setPdfDoc (Some out)) ;;
  modify (install_normalized cl) ;;
  emit (Alert "PDF successfully flattened. All annotations and page numbers are now part of the base document.").

Definition flatten_catch : M State unit :=
  emit (ConsoleError "PDF Flatten Error:") ;;
  emit (Alert "Error flattening PDF.").

Definition flatten_finally : M State unit :=
  emit (SetFlag isSaving false).

(** [flattenPDF] *)
Definition flattenPDF (cl : State) : M State unit :=
  if Nat.eqb (length (pageSequence cl)) 0 then mret tt
  else
    emit (SetFlag isSaving true) ;;
    try_finally (try_catch (flatten_try cl) flatten_catch) flatten_finally.

(** ** Loading a file: [handleFileUpload] *)

Record UploadedFile := { file_name : string; file_content : PdfFile }.

Definition dot : Ascii.ascii := Ascii.ascii_of_nat 46.
Definition slash : Ascii.ascii := Ascii.ascii_of_nat 47.

(** The match of [/\.[^/.]+$/] in a name, looked for from the end: the
    characters before the final extension, in reverse. *)
Fixpoint strip_extension_rev (seen : bool) (l : list Ascii.ascii)
  : option (list Ascii.ascii) :=
  match l with
  | [] => None
  | c :: l' =>
      if Ascii.eqb c dot then (if seen then Some l' else None)
      else if Ascii.eqb c slash then None
      else strip_extension_rev true l'
  end.

(** [name.replace(/\.[^/.]+$/, "")] *)
Definition strip_extension (name : string) : string :=
  match strip_extension_rev false (rev (String.list_ascii_of_string name)) with
  | Some l => String.string_of_list_ascii (rev l)
  | None => name
  end.

(** [Array.from({ length: numPages }, (_, i) =>
      ({ id: random, originalIndex: i + 1, rotation: 0 }))] *)
Definition initialSequence (numPages : nat) (ids : nat -> string)
  : list PageMetadata.t :=
  map (fun i => PageMetadata.mk (ids i) (Z.of_nat i + 1) 0) (seq 0 numPages).

(** The updates the [try] block queues after the document is loaded. *)
Definition install_loaded (cl : State) (content : PdfFile)
    (ids : nat -> string) (s : State) : State :=
  let '(h', rs) :=
    alloc_all (heap s) (initialSequence (length (file_pages content)) ids) in
  saveToHistory cl [] rs
    (setHistoryIndex (-1)
       (setHistory []
          (setElements []
             (setCurrentPageIndex 0
                (setPageSequence rs
                   (setPdfDoc (Some content) (set_heap h' s))))))).

(** The [try], [catch] and [finally] blocks of [handleFileUpload]. *)
Definition upload_try (cl : State) (f : UploadedFile) (ids : nat -> string)
  : M State unit :=
  call getDocument ;;
  modify (install_loaded cl (file_content f) ids) ;;
  let numPages := length (file_pages (file_content f)) in
  for_each (seq 1 (Nat.min numPages 10))
    (fun _ i => call (getPage (Z.of_nat i)) ;; call getTextContent) ;;
  emit (SetDocumentText (Nat.min numPages 10)).

Definition upload_catch : M State unit :=
  emit (Alert "Error loading PDF").

Definition upload_finally : M State unit :=
  emit (SetFlag isLoading false) ;; emit (SetFlag isFileMenuOpen false).

(** [handleFileUpload]; [file] is [e.target.files?.[0]] and [ids] the
    random page ids. *)
Definition handleFileUpload (file : option UploadedFile) (ids : nat -> string)
    (cl : State) : M State unit :=
  match file with
  | None => mret tt
  | Some f =>
      emit (SetFlag isLoading true) ;;
      emit (SetFileName (file_name f)) ;;
      modify (setDocTitle (strip_extension (file_name f))) ;;
      call File_arrayBuffer ;;
      modify (setFileBytes (Some (file_content f))) ;;
      try_finally (try_catch (upload_try cl f ids) upload_catch) upload_finally
  end.

(** ** The merge tool: [mergePdfs] *)

(** The body of the loop over the files: the pages the file adds. *)
Definition mergeFile (pdf : PdfFile) : M unit (list PageSize) :=
  call File_arrayBuffer ;;
  call PDFDocument_load ;;
  call (copyPages (map Z.of_nat (seq 0 (length (file_pages pdf))))) ;;
  for_each (file_pages pdf) (fun _ _ => call addPage_copied) ;;
  mret (file_pages pdf).

Fixpoint mergeFiles (files : list PdfFile) : M unit (list PageSize) :=
  match files with
  | [] => mret []
  | pdf :: files' =>
      ps ← mergeFile pdf ;
      qs ← mergeFiles files' ;
      mret (ps ++ qs)
  end.

(** The [try], [catch] and [finally] blocks of [mergePdfs]; [now] is
    [Date.now()]. *)
Definition merge_try (files : list PdfFile) (now : string) : M unit unit :=
  call PDFDocument_create ;;
  ps ← mergeFiles files ;
  call save ;;
  emit (Download ("merged-document-" +:+ now +:+ ".pdf") {| file_pages := ps |}).

Definition merge_catch : M unit unit :=
  emit (ConsoleError "Error merging PDFs:") ;;
  emit (Alert "Failed to merge PDFs. Please ensure all files are valid PDFs.").

Definition merge_finally : M unit unit :=
  emit (SetFlag isMerging false).

(** [mergePdfs] *)
Definition mergePdfs (files : list PdfFile) (now : string) : M unit unit :=
  if Nat.eqb (length files) 0 then mret tt
  else
    emit (SetFlag isMerging true) ;;
    try_finally (try_catch (merge_try files now) merge_catch) merge_finally.

(** ** The compress tool: [compressPDF] *)

Inductive CompressionLevel := extreme | recommended | less.

(** [getCompressionSettings]: the scale and the quality. *)
Definition getCompressionSettings (level : CompressionLevel) : R * R :=
  match level with
  | extreme => (1.0, 0.3)
  | recommended => (1.5, 0.6)
  | less => (2.0, 0.8)
  end%R.

(** The width or height a canvas stores: the integer part. *)
Definition canvas_dimension (v : R) : R := IZR (up v - 1).

(** The body of the loop over the pages; [i] counts from 1. *)
Definition compressPage (scale quality : R) (totalPages : nat) (i : nat)
    (size : PageSize) : M unit PageSize :=
  emit (SetProgress
          (Math_round ((IZR (Z.of_nat i) - 1) / IZR (Z.of_nat totalPages) * 100))) ;;
  call (getPage (Z.of_nat i)) ;;
  let imgWidth := canvas_dimension (page_width size * scale) in
  let imgHeight := canvas_dimension (page_height size * scale) in
  call canvas_getContext ;;
  call (render (Z.of_nat i)) ;;
  call (embedJpg_canvas (Z.of_nat i) quality) ;;
  call (addPage_size (imgWidth / scale) (imgHeight / scale)) ;;
  call (on_page (i - 1)
          (drawImage 0 0 (imgWidth / scale) (imgHeight / scale) None None)) ;;
  mret {| page_width := imgWidth / scale; page_height := imgHeight / scale |}.

Fixpoint compressPages (scale quality : R) (totalPages : nat) (i : nat)
    (sizes : list PageSize) : M unit (list PageSize) :=
  match sizes with
  | [] => mret []
  | size :: sizes' =>
      p ← compressPage scale quality totalPages i size ;
      ps ← compressPages scale quality totalPages (S i) sizes' ;
      mret (p :: ps)
  end.

(** The [try], [catch] and [finally] blocks of [compressPDF]. *)
Definition compress_try (f : PdfFile) (level : CompressionLevel) : M unit unit :=
  call File_arrayBuffer ;;
  call getDocument ;;
  let totalPages := length (file_pages f) in
  call PDFDocument_create ;;
  let '(scale, quality) := getCompressionSettings level in
  ps ← compressPages scale quality totalPages 1 (file_pages f) ;
  call save ;;
  emit (SetCompressed {| file_pages := ps |}) ;;
  emit (SetProgress 100).

Definition compress_catch : M unit unit :=
  emit (ConsoleError "Compression error:") ;;
  emit (Alert "An error occurred while compressing the PDF.").

Definition compress_finally : M unit unit :=
  emit (SetFlag isCompressing false).

(** [compressPDF] *)
Definition compressPDF (file : option PdfFile) (level : CompressionLevel)
  : M unit unit :=
  match file with
  | None => mret tt
  | Some f =>
      emit (SetFlag isCompressing true) ;;
      emit (SetProgress 0) ;;
      try_finally (try_catch (compress_try f level) compress_catch)
        compress_finally
  end.

(** ** The editor as a transition system *)

(** What the user does, with what the environment supplies (random ids,
    the clock, the geometry of the page containers, the behaviour of the
    libraries).  [op_elements] stands for the handlers that only edit the
    list of elements: they set a new list and may call [saveToHistory] with
    a list of elements and the current page sequence. *)
Inductive Op :=
  | op_upload (lib : Library) (file : option UploadedFile) (ids : nat -> string)
  | op_newDocument (newId : string)
  | op_organize (type : OrganizeType.t) (param : Param.t)
      (specificIndex : option Z) (newId : string) (cloneId : nat -> string)
  | op_pageDrop (sourceIndex : option nat) (targetIndex : nat)
  | op_undo
  | op_redo
  | op_actionStart (act : Action) (dir : option string) (start : Point.t)
      (pId : string)
  | op_mouseMove (e : MouseEvent) (dom : Dom)
  | op_mouseUp (e : MouseEvent) (dom : Dom) (now : string)
  | op_elements (newElements : list EditorElement.t)
      (saved : option (list EditorElement.t))
  | op_select (id : option string)
  | op_tool (mode : ToolMode)
  | op_flatten (lib : Library)
  | op_download (lib : Library).

Definition step (op : Op) (s : State) : State :=
  match op with
  | op_upload lib file ids => res_state (handleFileUpload file ids s lib [] s)
  | op_newDocument newId => newDocument newId s
  | op_organize type param specificIndex newId cloneId =>
      match organizeAction type param specificIndex newId cloneId s with
      | Some o => out_state o
      | None => s
      end
  | op_pageDrop sourceIndex targetIndex =>
      default s (handlePageDrop sourceIndex targetIndex s)
  | op_undo => undo s
  | op_redo => redo s
  | op_actionStart act dir start pId => onActionStart act dir start pId s
  | op_mouseMove e dom => handleMouseMove e dom s
  | op_mouseUp e dom now => handleMouseUp e dom now s
  | op_elements newElements saved =>
      match saved with
      | Some els => saveToHistory s els (pageSequence s) (setElements newElements s)
      | None => setElements newElements s
      end
  | op_select id => setSelectedId id s
  | op_tool mode => setToolMode mode s
  | op_flatten lib => res_state (flattenPDF s lib [] s)
  | op_download lib => res_state (handleDownload s lib [] s)
  end.

(** The state after a sequence of user actions. *)
Definition run (ops : list Op) (s : State) : State :=
  fold_left (fun s op => step op s) ops s.

Inductive reachable : State -> Prop :=
  | reachable_initial : reachable initial_state
  | reachable_step op s : reachable s -> reachable (step op s).

(** ** The render effect of a page component

    [PDFPage] and [PDFThumbnail] run the same effect: [render()] (or
    [renderThumb()]) and a cleanup that cancels [renderTaskRef.current].
    The framework runs the effect when the component is mounted; after a
    later render of the component it compares the dependencies ([pdfDoc],
    [pageMeta], and [scale] for [PDFPage]) with those of the last run, each
    with [Object.is], and runs the cleanup and then the effect again when
    one of them differs; it runs the cleanup alone when the component is
    removed.  [pdfDoc] and [pageMeta] are objects and are compared by
    identity: the page object is the reference the page sequence holds, and
    the loaded document is named by a number, a new one for every document
    the editor loads.  [render()] is suspended twice: while the library
    fetches the page and while the render task runs.  A component is
    modelled with the render tasks the library is working on and the
    invocations of [render()] that wait for their page. *)
Module PageRender.

Inductive Ev :=
  | Cancel (t : nat)          (* renderTaskRef.current.cancel() *)
  | Start (t : nat)           (* page.render(...) *)
  | FillBlank                 (* context.fillRect(...) *)
  | ConsoleError (msg : string).

(** The dependencies of the effect. *)
Record Props := {
  pdfDoc : option nat;
  pageMeta : ref;
  scale : R
}.

(** The comparison of the dependencies of two renders. *)
Definition same_deps (a b : Props) : bool :=
  bool_decide (pdfDoc a = pdfDoc b)
  && Nat.eqb (pageMeta a) (pageMeta b)
  && (if Req_dec_T (scale a) (scale b) then true else false).

(** What the document answers: is there a canvas, does it give a
    context. *)
Record Env := { canvas : bool; context : bool }.

Record Comp := mk {
  deps : option Props;  (* the dependencies of the last run of the effect *)
  renderTaskRef : option nat;
  in_flight : list nat;
  waiting : nat;        (* invocations suspended at [await getPage] *)
  next_task : nat;
  trace : list Ev
}.

Definition mounted : Comp := mk None None [] 0 0 [].

Definition log (e : Ev) (c : Comp) : Comp :=
  mk (deps c) (renderTaskRef c) (in_flight c) (waiting c) (next_task c)
    (trace c ++ [e]).

Definition set_deps (p : Props) (c : Comp) : Comp :=
  mk (Some p) (renderTaskRef c) (in_flight c) (waiting c) (next_task c)
    (trace c).

(** The [catch] block of [render()]:
    [if (e.name !== 'RenderingCancelledException') console.error(...)]. *)
Definition on_rejected (name : string) (c : Comp) : Comp :=
  if negb (String.eqb name "RenderingCancelledException")
  then log (ConsoleError "PDF Page Render Error:") c
  else c.

(** [task.cancel()]: a task in flight stops, and its promise rejects with
    a [RenderingCancelledException], which the invocation that waits for
    it catches. *)
Definition cancel (t : nat) (c : Comp) : Comp :=
  let c1 := log (Cancel t) c in
  if bool_decide (t ∈ in_flight c1) then
    on_rejected "RenderingCancelledException"
      (mk (deps c1) (renderTaskRef c1)
         (List.filter (fun u => negb (Nat.eqb u t)) (in_flight c1))
         (waiting c1) (next_task c1) (trace c1))
  else c1.

(** [if (renderTaskRef.current) { try { renderTaskRef.current.cancel(); }
    catch (e) {} }] *)
Definition cancel_current (c : Comp) : Comp :=
  match renderTaskRef c with
  | Some t => cancel t c
  | None => c
  end.

(** The cleanup of the effect. *)
Definition cleanup (c : Comp) : Comp := cancel_current c.

(** [render()] up to its first [await]; [page] is the object [pageMeta]
    denotes when the effect runs. *)
Definition render_start (p : Props) (page : PageMetadata.t) (env : Env)
    (c : Comp) : Comp :=
  if negb (canvas env) then c
  else
    let c1 := cancel_current c in
    if negb (context env) then c1
    else if PageMetadata.originalIndex page =? -1 then log FillBlank c1
    else
      match pdfDoc p with
      | None => c1
      | Some _ =>
          mk (deps c1) (renderTaskRef c1) (in_flight c1) (S (waiting c1))
            (next_task c1) (trace c1)
      end.

(** [render()] after the page has arrived: the render task starts and is
    stored in [renderTaskRef]. *)
Definition render_resume (c : Comp) : Comp :=
  match waiting c with
  | O => c
  | S w =>
      let t := next_task c in
      mk (deps c) (Some t) (in_flight c ++ [t]) w (S t) (trace c ++ [Start t])
  end.

(** What happens to a component: the framework renders it with the
    properties [p], it is removed, the library answers. *)
Inductive Input :=
  | rendered (p : Props) (page : PageMetadata.t) (env : Env)
  | unmounted
  | page_resolved
  | page_rejected (name : string)
  | task_finished (t : nat)
  | task_failed (t : nat) (name : string).

Definition remove_task (t : nat) (c : Comp) : Comp :=
  mk (deps c) (renderTaskRef c)
    (List.filter (fun u => negb (Nat.eqb u t)) (in_flight c))
    (waiting c) (next_task c) (trace c).

Definition step (i : Input) (c : Comp) : Comp :=
  match i with
  | rendered p page env =>
      match deps c with
      | None => render_start p page env (set_deps p c)
      | Some d =>
          if same_deps d p then c
          else render_start p page env (set_deps p (cleanup c))
      end
  | unmounted => cleanup c
  | page_resolved => render_resume c
  | page_rejected name =>
      match waiting c with
      | O => c
      | S w =>
          on_rejected name
            (mk (deps c) (renderTaskRef c) (in_flight c) w (next_task c)
               (trace c))
      end
  | task_finished t => remove_task t c
  | task_failed t name =>
      if bool_decide (t ∈ in_flight c) then on_rejected name (remove_task t c)
      else c
  end.

Definition is_start (e : Ev) : bool :=
  match e with Start _ => true | _ => false end.

Definition is_error (e : Ev) : bool :=
  match e with ConsoleError _ => true | _ => false end.

(** Events that neither start a render task nor report an error. *)
Definition calm (e : Ev) : Prop := is_start e = false /\ is_error e = false.

Definition run (inputs : list Input) (c : Comp) : Comp :=
  fold_left (fun c i => step i c) inputs c.

End PageRender.

(** The properties the editor hands to the component of the page object
    [r] in the state [s], [doc] naming the loaded document, and the render
    of that component. *)
Definition page_props (doc : option nat) (r : ref) (s : State)
  : PageRender.Props :=
  {| PageRender.pdfDoc := doc; PageRender.pageMeta := r;
     PageRender.scale := scale s |}.

Definition page_rendered (doc : option nat) (r : ref) (env : PageRender.Env)
    (s : State) : option PageRender.Input :=
  match heap s !! r with
  | Some page => Some (PageRender.rendered (page_props doc r s) page env)
  | None => None
  end.

(** ** Failures that the export handles on the spot

    In [handleDownload] and [flattenPDF] the copy of a source page and the
    embedding of an image stand in [try] blocks of their own.  The [catch]
    block of the first adds a blank page, that of the second is empty.
    These are the kinds of call that occur in the two blocks;
    [outputDoc.addPage([612, 792])] is also called outside of them, for an
    entry without a source page and in the [catch] block of the first. *)
Definition in_page_block (c : LibCall) : bool :=
  match c with
  | copyPages _ | addPage_copied | addPage_size _ _
  | on_page _ (setRotation _) => true
  | _ => false
  end.



Definition every_call (c : LibCall) : bool := true.

(** ** The geometry of a replayed element

    These definitions follow the description of the replay, not the code:
    the box of an element in the coordinates of the PDF page, and the
    rotation of a point about a centre by an angle in degrees. *)
Record Geometry := {
  g_x : R; g_y : R; g_width : R; g_height : R; g_rotation : R
}.

Definition pdf_geometry (scale pageHeight : R) (el : EditorElement.t) : Geometry :=
  {| g_x := EditorElement.x el / scale;
     g_y := pageHeight - EditorElement.y el / scale;
     g_width := EditorElement.width el / scale;
     g_height := EditorElement.height el / scale;
     g_rotation := - match EditorElement.rotation el with
                     | Some r => r
                     | None => 0
                     end |}.

(** The centre of the box: the y axis of the page points up and [g_y] is
    the top of the box. *)
Definition box_center (g : Geometry) : Point.t :=
  Point.mk (g_x g + g_width g / 2) (g_y g - g_height g / 2).

Definition rotate_about (c : Point.t) (degrees : R) (p : Point.t) : Point.t :=
  let a := (degrees * PI / 180)%R in
  Point.mk
    (Point.x c + (Point.x p - Point.x c) * cos a - (Point.y p - Point.y c) * sin a)
    (Point.y c + (Point.x p - Point.x c) * sin a + (Point.y p - Point.y c) * cos a).

(** The point a box is anchored at after the rotation. *)
Definition anchored (g : Geometry) (px py : R) : Point.t :=
  rotate_about (box_center g) (g_rotation g) (Point.mk px py).


(** ** The steps of the export, as described

    These definitions follow the description of the export: create the
    document; for each entry of the page sequence, in order, copy the page
    of the source it stands for, or add a blank page when it stands for
    none; draw the page number, the watermark, the elements that are not
    redactions, the redactions; save. *)

(** The page of the source an entry stands for: none for a blank entry
    ([originalIndex] -1), for an index outside the source, or without a
    source. *)
Definition source_page (source : option PdfFile) (meta : PageMetadata.t)
  : option PageSize :=
  match source with
  | Some f =>
      if PageMetadata.originalIndex meta =? -1 then None
      else js_index (file_pages f) (PageMetadata.originalIndex meta - 1)
  | None => None
  end.

Definition page_steps (source : option PdfFile) (i : nat) (meta : PageMetadata.t)
  : list LibCall :=
  match source_page source meta with
  | Some _ =>
      [copyPages [PageMetadata.originalIndex meta - 1]; addPage_copied;
       on_page i (setRotation (PageMetadata.rotation meta))]
  | None => [addPage_size 612 792]
  end.

Definition output_size (source : option PdfFile) (meta : PageMetadata.t) : PageSize :=
  default blank_page (source_page source meta).

Definition number_steps (lib : Library) (cfg : PageNumberConfig.t) (i total : nat)
    (size : PageSize) : list LibCall :=
  if PageNumberConfig.enabled cfg then
    let text := pageNumberText (PageNumberConfig.format cfg) (i + 1) total in
    let fontSize := PageNumberConfig.fontSize cfg in
    let margin := PageNumberConfig.margin cfg in
    let textWidth := widthOfTextAtSize lib Helvetica text fontSize in
    let x :=
      match PageNumberConfig.position cfg with
      | top_left | bottom_left => margin
      | top_center | bottom_center => ((page_width size - textWidth) / 2)%R
      | top_right | bottom_right => (page_width size - margin - textWidth)%R
      end in
    let y :=
      match PageNumberConfig.position cfg with
      | top_left | top_center | top_right =>
          (page_height size - margin - fontSize)%R
      | _ => margin
      end in
    [on_page i (drawText text x y fontSize Helvetica
                  (hexToRgb (PageNumberConfig.color cfg)) None None)]
  else [].

Definition watermark_steps (watermark : string) (i : nat) (size : PageSize)
  : list LibCall :=
  if decide (watermark = "") then []
  else [on_page i (drawText watermark 50 (page_height size / 2) 60 HelveticaBold
                     (rgb 0.8 0.8 0.8) (Some 0.25%R) (Some 45%R))].

Definition text_font (el : EditorElement.t) : StandardFont :=
  match default false (EditorElement.isBold el),
        default false (EditorElement.isItalic el) with
  | true, true => HelveticaBoldOblique
  | true, false => HelveticaBold
  | false, true => HelveticaOblique
  | false, false => Helvetica
  end.

(** The calls for one element: one drawing call for a text, a rectangle, a
    circle, a line or an arrow; the embedding and one drawing call for an
    image that has a source; none for the other types. *)
Definition element_steps (scale h : R) (i : nat) (el : EditorElement.t)
  : list LibCall :=
  let g := pdf_geometry scale h el in
  let color := hexToRgb (EditorElement.color el) in
  let stroke := (EditorElement.strokeWidth el / scale)%R in
  let corner := anchored g (g_x g) (g_y g - g_height g) in
  match EditorElement.type el with
  | text =>
      let size := (EditorElement.fontSize el / scale)%R in
      let p := anchored g (g_x g) (g_y g - size) in
      [on_page i (drawText (content_or_space el) (Point.x p) (Point.y p) size
                    (text_font el) color (Some (EditorElement.opacity el))
                    (Some (g_rotation g)))]
  | rect =>
      [on_page i (drawRectangle (Point.x corner) (Point.y corner) (g_width g)
                    (g_height g) (Some color) (Some stroke) None
                    (Some (EditorElement.opacity el)) (g_rotation g))]
  | circle =>
      [on_page i (drawEllipse (Point.x (box_center g)) (Point.y (box_center g))
                    (g_width g / 2) (g_height g / 2) color stroke
                    (EditorElement.opacity el) (g_rotation g))]
  | line | arrow =>
      let p := anchored g (g_x g) (g_y g) in
      let q := anchored g (g_x g + g_width g) (g_y g - g_height g) in
      [on_page i (drawLine (Point.x p) (Point.y p) (Point.x q) (Point.y q)
                    color stroke (EditorElement.opacity el))]
  | image =>
      match EditorElement.src el with
      | Some src =>
          if decide (src = "") then []
          else
            [if includes src "png" then embedPng src else embedJpg src;
             on_page i (drawImage (Point.x corner) (Point.y corner) (g_width g)
                          (g_height g) (Some (EditorElement.opacity el))
                          (Some (g_rotation g)))]
      | None => []
      end
  | _ => []
  end.

Definition redaction_step (scale h : R) (i : nat) (el : EditorElement.t) : LibCall :=
  let g := pdf_geometry scale h el in
  let corner := anchored g (g_x g) (g_y g - g_height g) in
  on_page i (drawRectangle (Point.x corner) (Point.y corner) (g_width g)
               (g_height g) None None (Some (rgb 0 0 0)) None (g_rotation g)).

Definition overlay_steps (lib : Library) (cl : State) (i : nat)
    (meta : PageMetadata.t) (size : PageSize) : list LibCall :=
  let on_this_page := elements_of_page (elements cl) meta in
  number_steps lib (pageNumbering cl) i (length (pageSequence cl)) size
    ++ watermark_steps (watermarkText cl) i size
    ++ concat (map (element_steps (scale cl) (page_height size) i)
                 (List.filter (fun el => negb (is_redaction el)) on_this_page))
    ++ map (redaction_step (scale cl) (page_height size) i)
         (List.filter is_redaction on_this_page).

Fixpoint pages_steps (lib : Library) (cl : State) (source : option PdfFile)
    (i : nat) (metas : list PageMetadata.t) : list LibCall :=
  match metas with
  | [] => []
  | meta :: metas' =>
      page_steps source i meta
        ++ overlay_steps lib cl i meta (output_size source meta)
        ++ pages_steps lib cl source (S i) metas'
  end.

Definition export_steps (lib : Library) (cl : State) : list LibCall :=
  match fileBytes cl with Some _ => [PDFDocument_load] | None => [] end
    ++ [PDFDocument_create; embedFont Helvetica; embedFont HelveticaBold;
        embedFont HelveticaOblique; embedFont HelveticaBoldOblique]
    ++ pages_steps lib cl (fileBytes cl) 0 (pages cl)
    ++ [save].

Definition never_throws (lib : Library) : Prop :=
  forall tr c, throws lib tr c = false.

(** With the library [lib], [m] adds the events [ev], leaves the state and
    returns [a], whatever came before. *)
Definition yields {St A} (lib : Library) (m : M St A) (ev : list Event) (a : A)
  : Prop :=
  forall tr s, m lib tr s = mkRes (tr ++ ev) s (Some a).

(** ** Predicates on states and on handlers *)

(** The snapshot [saveToHistory] appends, and the history it stores. *)
Definition new_snapshot (newElements : list EditorElement.t)
    (newSequence : list ref) (s : State) : Snapshot :=
  {| snap_elements := newElements;
     snap_sequence :=
       seq (length (heap s)) (length (deref_all (heap s) newSequence)) |}.

Definition pushed_history (cl : State) (e : Snapshot) : list Snapshot :=
  let l := js_slice0 (history cl) (historyIndex cl + 1) ++ [e] in
  if 30 <? Z.of_nat (length l) then js_shift l else l.

(** The history of a state holds at most 30 entries and the index is below
    its length. *)
Definition history_ok (s : State) : Prop :=
  (length (history s) <= 30)%nat /\
  -1 <= historyIndex s < Z.of_nat (length (history s)).

Definition valid_rotation (r : Z) : Prop :=
  r = 0 \/ r = 90 \/ r = 180 \/ r = 270.

(** Every page object has a rotation of 0, 90, 180 or 270. *)
Definition rotations_ok (h : list PageMetadata.t) : Prop :=
  Forall (fun p => valid_rotation (PageMetadata.rotation p)) h.

(** A handler run in the monad keeps [I] when every update it queues does. *)
Definition preserves {A} (I : State -> Prop) (m : M State A) : Prop :=
  forall lib tr s, I s -> I (res_state (m lib tr s)).

(** The events a computation adds are [ev]. *)
Definition adds {St A} (m : M St A) (lib : Library) (tr : list Event) (s : St)
    (ev : list Event) : Prop :=
  res_trace (m lib tr s) = tr ++ ev.

(** Every call of [m] that throws and that [u] selects makes [m] throw. *)
Definition raises (u : LibCall -> bool) {St A} (m : M St A) : Prop :=
  forall lib tr s,
    exists ev,
      adds m lib tr s ev /\
      (forall c, In (Throw c) ev -> u c = true -> res_value (m lib tr s) = None).



Definition not_a_throw (e : Event) : Prop :=
  match e with Throw _ => False | _ => True end.

(** The trace of a handler run from the empty trace. *)
Definition trace_of {St A} (m : M St A) (lib : Library) (s : St) : list Event :=
  res_trace (m lib [] s).

(** ** Sample inputs *)

(** A library of which no call throws. *)
Definition quiet_library : Library :=
  {| throws := fun _ _ => false; widthOfTextAtSize := fun _ _ _ => 0%R |}.

Definition letter : PageSize := {| page_width := 612; page_height := 792 |}.

Definition one_page_file : UploadedFile :=
  {| file_name := "report.pdf"; file_content := {| file_pages := [letter] |} |}.

Definition sample_ids (i : nat) : string := "p" +:+ pretty i.

(** A one-page document has been opened. *)
Definition opened_state : State :=
  step (op_upload quiet_library (Some one_page_file) sample_ids) initial_state.

(** ... and a blank page inserted after its page. *)
Definition two_page_state : State :=
  step (op_organize OrganizeType.blank Param.none None "b" sample_ids) opened_state.

(** The user opens a one-page document, rotates the page, and undoes
    that. *)
Definition rotate_cw : Op :=
  op_organize OrganizeType.rotate Param.cw None "n" sample_ids.

Definition undone_state : State :=
  run [op_upload quiet_library (Some one_page_file) sample_ids; rotate_cw; op_undo]
    initial_state.






(** A library whose [setRotation] throws, and one whose [getDocument]
    throws. *)
Definition failing_rotation_library : Library :=
  {| throws :=
       fun _ c => match c with on_page _ (setRotation _) => true | _ => false end;
     widthOfTextAtSize := fun _ _ _ => 0%R |}.

Definition failing_getDocument_library : Library :=
  {| throws := fun _ c => match c with getDocument => true | _ => false end;
     widthOfTextAtSize := fun _ _ _ => 0%R |}.

(** With the Draw tool the user has drawn a stroke on the page of the
    opened document: press, three moves, release.  The page container is at
    the origin of the window. *)
Definition at_origin : Dom := fun _ => Some (Point.mk 0 0).

Definition mouse (x y : R) : MouseEvent :=
  {| clientX := x; clientY := y; shiftKey := false |}.

Definition stroke_state : State :=
  run [op_tool draw;
       op_actionStart drawing None (Point.mk 10 10) "p0";
       op_mouseMove (mouse 20 15) at_origin;
       op_mouseMove (mouse 30 25) at_origin;
       op_mouseMove (mouse 40 30) at_origin;
       op_mouseUp (mouse 40 30) at_origin "1700000000001"]
    opened_state.

(** The selected element of the opened document is being resized. *)
Definition resizing_state : State :=
  setResizeDir (Some "se")
    (setAction (Some resizing)
       (setIsDragging true
          (setSelectedId (Some "a")
             (setElements
                [created_element "a" "p0" 30 30 30 30 opened_state]
                opened_state)))).

(** ** References and objects *)

(** Every reference of the page sequence and of the history denotes an
    object. *)
Definition seq_ok (n : nat) (rs : list ref) : Prop :=
  Forall (fun r => (r < n)%nat) rs.

Definition hist_ok (n : nat) (h : list Snapshot) : Prop :=
  Forall (fun e => seq_ok n (snap_sequence e)) h.

Definition refs_ok (s : State) : Prop :=
  seq_ok (length (heap s)) (pageSequence s) /\
  hist_ok (length (heap s)) (history s).

(** Every page object of [s] is a page object of [s'], unchanged. *)
Definition keeps_objects (s s' : State) : Prop :=
  forall r p, heap s !! r = Some p -> heap s' !! r = Some p.

(** ** More handlers of the editor *)

(** [arr.findIndex(p)], [None] for -1. *)
Fixpoint findIndex {A} (p : A -> bool) (l : list A) : option nat :=
  match l with
  | [] => None
  | a :: l' => if p a then Some 0%nat else option_map S (findIndex p l')
  end.

(** [bringToFront]: the selected element goes to the end of the list, which
    is drawn last. *)
Definition bringToFront (s : State) : State :=
  if negb (truthy (selectedId s)) then s
  else
    match findIndex (fun el => id_is (selectedId s) (EditorElement.id el))
            (elements s) with
    | None => s
    | Some index =>
        match elements s !! index with
        | Some element =>
            let newElements := splice_remove index (elements s) ++ [element] in
            saveToHistory s newElements (pageSequence s)
              (setElements newElements s)
        | None => s
        end
    end.

(** [sendToBack]: the selected element goes to the front of the list. *)
Definition sendToBack (s : State) : State :=
  if negb (truthy (selectedId s)) then s
  else
    match findIndex (fun el => id_is (selectedId s) (EditorElement.id el))
            (elements s) with
    | None => s
    | Some index =>
        match elements s !! index with
        | Some element =>
            let newElements := element :: splice_remove index (elements s) in
            saveToHistory s newElements (pageSequence s)
              (setElements newElements s)
        | None => s
        end
    end.

(** The "Delete" button of the properties panel:
    [setElements(prev => prev.filter(e => e.id !== selectedId));
     setSelectedId(null); saveToHistory()].  The call of [saveToHistory]
    takes the elements of the render the button belongs to. *)
Definition deleteSelected (s : State) : State :=
  saveToHistory s (elements s) (pageSequence s)
    (setSelectedId None
       (setElements
          (List.filter (fun e => negb (id_is (selectedId s) (EditorElement.id e)))
             (elements s))
          s)).

(** [{ ...el, content: text }] and [{ ...el, width: w, height: h }] *)
Definition with_content (el : EditorElement.t) (text : string) : EditorElement.t :=
  EditorElement.mk (EditorElement.id el) (EditorElement.pageId el)
    (EditorElement.type el) (EditorElement.x el) (EditorElement.y el)
    (EditorElement.width el) (EditorElement.height el) (Some text)
    (EditorElement.src el) (EditorElement.color el) (EditorElement.fontSize el)
    (EditorElement.isBold el) (EditorElement.isItalic el)
    (EditorElement.textAlign el) (EditorElement.opacity el)
    (EditorElement.rotation el) (EditorElement.points el)
    (EditorElement.strokeWidth el).

Definition with_size (el : EditorElement.t) (w h : R) : EditorElement.t :=
  EditorElement.with_box el (EditorElement.x el) (EditorElement.y el) w h.

(** The callbacks [onTextChange] and [onSizeChange] the pages get. *)
Definition onTextChange (id text : string) (s : State) : State :=
  setElements
    (map (fun el => if String.eqb (EditorElement.id el) id
                    then with_content el text else el) (elements s)) s.

Definition onSizeChange (id : string) (w h : R) (s : State) : State :=
  setElements
    (map (fun el => if String.eqb (EditorElement.id el) id
                    then with_size el w h else el) (elements s)) s.

(** [handleTextareaInput(id, e)] of a page: [value] is the text of the
    textarea and [scrollWidth], [scrollHeight] its measured extent. *)
Definition handleTextareaInput (id value : string) (scrollWidth scrollHeight : R)
    (s : State) : State :=
  onSizeChange id (Rmax 40 scrollWidth) (Rmax 20 scrollHeight)
    (onTextChange id value s).

Definition setScale (v : R) (s : State) : State :=
  mkState (heap s) (pdfDoc s) (fileBytes s) (pageSequence s)
    (currentPageIndex s) v (docTitle s) (toolMode s) (elements s)
    (selectedId s) (history s) (historyIndex s) (watermarkText s)
    (pageNumbering s) (currentColor s) (currentFontSize s)
    (currentStrokeWidth s) (currentOpacity s) (isDragging s) (dragStart s)
    (action s) (resizeDir s) (newElStart s) (activePageId s) (currentPoints s).

(** The zoom buttons: [setScale(s => Math.max(0.2, s - 0.1))] and
    [setScale(s => Math.min(4, s + 0.1))]. *)
Definition zoomOut (s : State) : State := setScale (Rmax 0.2 (scale s - 0.1)) s.

Definition zoomIn (s : State) : State := setScale (Rmin 4 (scale s + 0.1)) s.

Inductive Zoom := zoom_in | zoom_out.

Definition zoom (z : Zoom) (s : State) : State :=
  match z with zoom_in => zoomIn s | zoom_out => zoomOut s end.

(** The state after the mouse events [es], in order. *)
Definition mouse_moves (es : list MouseEvent) (dom : Dom) (s : State) : State :=
  fold_left (fun s e => handleMouseMove e dom s) es s.

(** The element with the selected id, displaced. *)
Definition displaced (sel : option string) (dx dy : R) (el : EditorElement.t)
  : EditorElement.t :=
  if id_is sel (EditorElement.id el) then EditorElement.moved el dx dy else el.

(** The elements after the mouse has gone from [(px, py)] through the
    positions of the events [es]: every move displaces the selected element
    by the step of the mouse since the event before it, one addition per
    move and coordinate, as the code does it. *)
Fixpoint dragged (sel : option string) (px py : R) (es : list MouseEvent)
    (els : list EditorElement.t) : list EditorElement.t :=
  match es with
  | [] => els
  | e :: es' =>
      dragged sel (clientX e) (clientY e) es'
        (map (displaced sel (clientX e - px) (clientY e - py)) els)
  end.

(** ** What a handler adds to the trace *)

(** The events of the calls of a library. *)
Definition call_event (e : Event) : Prop :=
  match e with Call _ | Throw _ => True | _ => False end.

(** ... and of the progress of a compression. *)
Definition work_event (e : Event) : Prop :=
  match e with Call _ | Throw _ | SetProgress _ => True | _ => False end.

Definition any_value {A} (a : A) : Prop := True.

(** Every event [m] adds satisfies [P]; when [m] returns, the value
    satisfies [Q]; when an exception escapes [m], one of its calls has
    thrown. *)
Definition traced {St A} (P : Event -> Prop) (Q : A -> Prop) (m : M St A) : Prop :=
  forall lib tr s,
    exists ev,
      adds m lib tr s ev /\ Forall P ev /\
      match res_value (m lib tr s) with
      | Some a => Q a
      | None => exists c, In (Throw c) ev
      end.

(** A call of a library other than [getDocument]. *)
Definition export_event (e : Event) : Prop :=
  match e with
  | Call c | Throw c => match c with getDocument => False | _ => True end
  | _ => False
  end.

(** A call that is none of the block that copies a source page. *)
Definition plain_event (e : Event) : Prop :=
  match e with
  | Call c | Throw c => in_page_block c = false
  | _ => False
  end.

(** [page.setRotation] has thrown; [outputDoc.addPage] has returned. *)
Definition rotation_failed (e : Event) : bool :=
  match e with Throw (on_page _ (setRotation _)) => true | _ => false end.

Definition adds_page (e : Event) : bool :=
  match e with
  | Call addPage_copied | Call (addPage_size _ _) => true
  | _ => false
  end.

(** The calls [ev] have added [n] pages to the output document, and one
    more for every [setRotation] that threw. *)
Definition page_count (ev : list Event) (n : nat) : Prop :=
  length (List.filter adds_page ev) =
    (n + length (List.filter rotation_failed ev))%nat.

(** The events [m] adds are calls of a library; when [m] returns, its value
    and the events satisfy [Q]; when an exception escapes [m], one of its
    calls has thrown. *)
Definition counted {St A} (Q : A -> list Event -> Prop) (m : M St A) : Prop :=
  forall lib tr s,
    exists ev,
      adds m lib tr s ev /\ Forall call_event ev /\
      match res_value (m lib tr s) with
      | Some a => Q a ev
      | None => exists c, In (Throw c) ev
      end.

(** ** Pressing the mouse on a page *)

(** [onMouseDown] of the container of a page; [pos] is [getPos(e)], the
    position of the mouse relative to the container.  The handler also
    resets [editingId], which belongs to the page component. *)
Definition pageMouseDown (pos : Point.t) (pageMeta : PageMetadata.t) (s : State)
  : State :=
  if negb (bool_decide (is_Some (pdfDoc s)))
     && negb (PageMetadata.originalIndex pageMeta =? -1) then s
  else if ToolMode_eqb (toolMode s) select then setSelectedId None s
  else
    let act :=
      if ToolMode_eqb (toolMode s) draw || ToolMode_eqb (toolMode s) highlight
      then drawing else creating in
    onActionStart act None pos (PageMetadata.id pageMeta) s.

(** [onMouseDown] of an element of a page.  With another tool than Select
    the handler returns and the event reaches the container of the page;
    on the selected text element it starts the editing of the text, which
    belongs to the page component. *)
Definition elementMouseDown (e : MouseEvent) (pos : Point.t)
    (el : EditorElement.t) (pageMeta : PageMetadata.t) (s : State) : State :=
  if negb (ToolMode_eqb (toolMode s) select) then pageMouseDown pos pageMeta s
  else if id_is (selectedId s) (EditorElement.id el)
          && ToolMode_eqb (EditorElement.type el) text then s
  else
    onActionStart moving None (Point.mk (clientX e) (clientY e))
      (PageMetadata.id pageMeta)
      (setSelectedId (Some (EditorElement.id el)) s).

(** ** The list of files of the merge tool *)
Module MergeTool.

(** [interface PdfFile { id: string; file: File }] *)
Record Entry := mk { id : string; file : PdfFile }.

Inductive Direction := up | down.

Definition is_up (d : Direction) : bool :=
  match d with up => true | down => false end.

(** [removeFile(id)] *)
Definition removeFile (i : string) (files : list Entry) : list Entry :=
  List.filter (fun f => negb (String.eqb (id f) i)) files.

(** [moveFile(index, direction)]; [None] when [index] is not an index of
    the list (the code would store [undefined] in it). *)
Definition moveFile (index : nat) (direction : Direction) (files : list Entry)
  : option (list Entry) :=
  if (is_up direction && (Z.of_nat index =? 0))
     || (negb (is_up direction)
         && (Z.of_nat index =? Z.of_nat (length files) - 1))
  then Some files
  else
    let targetIndex := if is_up direction then (index - 1)%nat else (index + 1)%nat in
    match files !! index, files !! targetIndex with
    | Some a, Some b => Some (<[targetIndex := a]> (<[index := b]> files))
    | _, _ => None
    end.

(** The merge button: [disabled={files.length < 2 || isMerging}]. *)
Definition merge_enabled (files : list Entry) (merging : bool) : bool :=
  negb ((Z.of_nat (length files) <? 2) || merging).

End MergeTool.

(** ** The sign tool: [PDFSignTool]

    The signatures the user has placed on the page that is shown, a drag or
    a resize in progress, the zoom and the page shown.  Positions and sizes
    of signatures are in pixels of the screen. *)
Module SignTool.

Record SignatureObject := mkSig {
  id : string;
  image : string;
  x : R;
  y : R;
  width : R;
  height : R
}.

Record ResizeState := mkResize {
  active : bool;
  direction : string;
  startX : R;
  startY : R;
  startWidth : R;
  startHeight : R;
  startLeft : R;
  startTop : R
}.

Record State := mk {
  pdfDoc : option PdfFile;
  fileBytes : option PdfFile;
  currentPage : Z;
  scale : R;
  fileName : option string;
  signatures : list SignatureObject;
  selectedSignatureId : option string;
  isDragging : bool;
  dragOffset : Point.t;
  resizeState : option ResizeState
}.

Definition initial : State :=
  mk None None 1 1 None [] None false (Point.mk 0 0) None.

Definition setPdfDoc (v : option PdfFile) (s : State) : State :=
  mk v (fileBytes s) (currentPage s) (scale s) (fileName s) (signatures s)
    (selectedSignatureId s) (isDragging s) (dragOffset s) (resizeState s).

Definition setFileBytes (v : option PdfFile) (s : State) : State :=
  mk (pdfDoc s) v (currentPage s) (scale s) (fileName s) (signatures s)
    (selectedSignatureId s) (isDragging s) (dragOffset s) (resizeState s).

Definition setCurrentPage (v : Z) (s : State) : State :=
  mk (pdfDoc s) (fileBytes s) v (scale s) (fileName s) (signatures s)
    (selectedSignatureId s) (isDragging s) (dragOffset s) (resizeState s).

Definition setScale (v : R) (s : State) : State :=
  mk (pdfDoc s) (fileBytes s) (currentPage s) v (fileName s) (signatures s)
    (selectedSignatureId s) (isDragging s) (dragOffset s) (resizeState s).

Definition setFileName (v : option string) (s : State) : State :=
  mk (pdfDoc s) (fileBytes s) (currentPage s) (scale s) v (signatures s)
    (selectedSignatureId s) (isDragging s) (dragOffset s) (resizeState s).

Definition setSignatures (v : list SignatureObject) (s : State) : State :=
  mk (pdfDoc s) (fileBytes s) (currentPage s) (scale s) (fileName s) v
    (selectedSignatureId s) (isDragging s) (dragOffset s) (resizeState s).

Definition setSelectedSignatureId (v : option string) (s : State) : State :=
  mk (pdfDoc s) (fileBytes s) (currentPage s) (scale s) (fileName s)
    (signatures s) v (isDragging s) (dragOffset s) (resizeState s).

Definition setIsDragging (v : bool) (s : State) : State :=
  mk (pdfDoc s) (fileBytes s) (currentPage s) (scale s) (fileName s)
    (signatures s) (selectedSignatureId s) v (dragOffset s) (resizeState s).

Definition setDragOffset (v : Point.t) (s : State) : State :=
  mk (pdfDoc s) (fileBytes s) (currentPage s) (scale s) (fileName s)
    (signatures s) (selectedSignatureId s) (isDragging s) v (resizeState s).

Definition setResizeState (v : option ResizeState) (s : State) : State :=
  mk (pdfDoc s) (fileBytes s) (currentPage s) (scale s) (fileName s)
    (signatures s) (selectedSignatureId s) (isDragging s) (dragOffset s) v.

(** [{ ...s, x, y }] and [{ ...s, x, y, width, height }] *)
Definition placed (g : SignatureObject) (x' y' : R) : SignatureObject :=
  mkSig (id g) (image g) x' y' (width g) (height g).

Definition boxed (g : SignatureObject) (x' y' w' h' : R) : SignatureObject :=
  mkSig (id g) (image g) x' y' w' h'.

(** [saveSignature] and [handleSignatureUpload] add the same object for the
    picture [dataUrl]; [now] is [Date.now().toString()]. *)
Definition newSignature (dataUrl now : string) (s : State) : SignatureObject :=
  let n := IZR (Z.of_nat (length (signatures s))) in
  mkSig now dataUrl (50 + n * 20) (50 + n * 20) 200 100.

Definition saveSignature (dataUrl now : string) (s : State) : State :=
  setSelectedSignatureId (Some now)
    (setSignatures (signatures s ++ [newSignature dataUrl now s]) s).

(** [signatures.find(s => s.id === id)] *)
Definition find_id (i : string) (sigs : list SignatureObject)
  : option SignatureObject :=
  List.find (fun g => String.eqb (id g) i) sigs.

(** [handleDragStart(e, id)] *)
Definition handleDragStart (e : MouseEvent) (i : string) (s : State) : State :=
  match find_id i (signatures s) with
  | None => s
  | Some sig =>
      setDragOffset (Point.mk (clientX e - x sig) (clientY e - y sig))
        (setIsDragging true (setSelectedSignatureId (Some i) s))
  end.

(** [handleResizeStart(e, direction, id)] *)
Definition handleResizeStart (e : MouseEvent) (dir : string) (i : string)
    (s : State) : State :=
  match find_id i (signatures s) with
  | None => s
  | Some sig =>
      setResizeState
        (Some (mkResize true dir (clientX e) (clientY e) (width sig)
                 (height sig) (x sig) (y sig)))
        (setSelectedSignatureId (Some i) s)
  end.

Definition Rleb (a b : R) : bool := if Rle_dec a b then true else false.

(** The box the resizing branch of [handleContainerMouseMove] computes. *)
Definition resized (rs : ResizeState) (e : MouseEvent) (g : SignatureObject)
  : SignatureObject :=
  let deltaX := (clientX e - startX rs)%R in
  let deltaY := (clientY e - startY rs)%R in
  let newWidth := startWidth rs in
  let newHeight := startHeight rs in
  let newX := startLeft rs in
  let newY := startTop rs in
  let newWidth :=
    if includes (direction rs) "e" then Rmax 30 (startWidth rs + deltaX)
    else newWidth in
  let '(newWidth, newX) :=
    if includes (direction rs) "w" then
      let proposedWidth := (startWidth rs - deltaX)%R in
      if Rleb 30 proposedWidth
      then (proposedWidth, (startLeft rs + deltaX)%R)
      else (newWidth, newX)
    else (newWidth, newX) in
  let newHeight :=
    if includes (direction rs) "s" then Rmax 30 (startHeight rs + deltaY)
    else newHeight in
  let '(newHeight, newY) :=
    if includes (direction rs) "n" then
      let proposedHeight := (startHeight rs - deltaY)%R in
      if Rleb 30 proposedHeight
      then (proposedHeight, (startTop rs + deltaY)%R)
      else (newHeight, newY)
    else (newHeight, newY) in
  boxed g newX newY newWidth newHeight.

(** [handleContainerMouseMove(e)] *)
Definition handleContainerMouseMove (e : MouseEvent) (s : State) : State :=
  let selected g := id_is (selectedSignatureId s) (id g) in
  match List.find selected (signatures s) with
  | None => s
  | Some _ =>
      if isDragging s then
        let newX := (clientX e - Point.x (dragOffset s))%R in
        let newY := (clientY e - Point.y (dragOffset s))%R in
        setSignatures
          (map (fun g => if selected g then placed g newX newY else g)
             (signatures s)) s
      else
        match resizeState s with
        | Some rs =>
            if active rs then
              setSignatures
                (map (fun g => if selected g then resized rs e g else g)
                   (signatures s)) s
            else s
        | None => s
        end
  end.

(** [handleContainerMouseUp], [handleBackgroundClick],
    [handleDeleteSignature(id)] *)
Definition handleContainerMouseUp (s : State) : State :=
  setResizeState None (setIsDragging false s).

Definition handleBackgroundClick (s : State) : State :=
  setSelectedSignatureId None s.

Definition handleDeleteSignature (i : string) (s : State) : State :=
  let s1 :=
    setSignatures
      (List.filter (fun g => negb (String.eqb (id g) i)) (signatures s)) s in
  if id_is (selectedSignatureId s) i then setSelectedSignatureId None s1 else s1.

(** The zoom buttons: [setScale(Math.max(0.5, scale - 0.1))] and
    [setScale(Math.min(3, scale + 0.1))]. *)
Definition zoomOut (s : State) : State := setScale (Rmax 0.5 (scale s - 0.1)) s.

Definition zoomIn (s : State) : State := setScale (Rmin 3 (scale s + 0.1)) s.

(** The page buttons, which are rendered for a loaded document and disabled
    at the first and at the last page. *)
Definition previousPage (s : State) : State :=
  match pdfDoc s with
  | Some _ =>
      if currentPage s <=? 1 then s
      else setCurrentPage (Z.max 1 (currentPage s - 1)) s
  | None => s
  end.

Definition nextPage (s : State) : State :=
  match pdfDoc s with
  | Some f =>
      let numPages := Z.of_nat (length (file_pages f)) in
      if currentPage s >=? numPages then s
      else setCurrentPage (Z.min numPages (currentPage s + 1)) s
  | None => s
  end.

(** [handleFileUpload]: the reader hands the bytes to [onload], or fails
    and then nothing follows. *)
Definition upload_try (f : UploadedFile) : M State unit :=
  call getDocument ;;
  modify (setPdfDoc (Some (file_content f))) ;;
  modify (setCurrentPage 1) ;;
  emit (SetFlag isLoading false).

Definition upload_catch : M State unit :=
  emit (ConsoleError "Error loading PDF") ;;
  emit (Alert "Failed to load PDF.") ;;
  emit (SetFlag isLoading false).

Definition handleFileUpload (file : option UploadedFile) : M State unit :=
  match file with
  | None => mret tt
  | Some f =>
      emit (SetFlag isLoading true) ;;
      modify (setFileName (Some (file_name f))) ;;
      modify (setPdfDoc None) ;;
      modify (setSignatures []) ;;
      modify (setSelectedSignatureId None) ;;
      call File_arrayBuffer ;;
      modify (setFileBytes (Some (file_content f))) ;;
      try_catch (upload_try f) upload_catch
  end.

(** The body of the loop of [handleDownload] over the signatures; [page] is
    [pages[currentPage - 1]], whose height the body reads after it has
    embedded the picture. *)
Definition drawSignature (cl : State) (source : PdfFile) (g : SignatureObject)
  : M State unit :=
  call (embedPng (image g)) ;;
  let pdfWidth := (width g / scale cl)%R in
  let pdfHeight := (height g / scale cl)%R in
  let pdfX := (x g / scale cl)%R in
  let draw (pdfPageHeight : R) :=
    on_page (Z.to_nat (currentPage cl - 1))
      (drawImage pdfX (pdfPageHeight - y g / scale cl - pdfHeight)
         pdfWidth pdfHeight None None) in
  match js_index (file_pages source) (currentPage cl - 1) with
  | Some size => call (draw (page_height size))
  | None => call_throwing (draw 0%R)
  end.

(** [`signed-${fileName || 'document'}.pdf`] *)
Definition signedName (cl : State) : string :=
  "signed-"
    +:+ (if truthy (fileName cl) then default "" (fileName cl) else "document")
    +:+ ".pdf".

Definition download_try (cl : State) (source : PdfFile) : M State unit :=
  call PDFDocument_load ;;
  for_each (signatures cl) (fun _ g => drawSignature cl source g) ;;
  call save ;;
  emit (Download (signedName cl) source).

Definition download_catch : M State unit :=
  emit (ConsoleError "Error saving PDF") ;;
  emit (Alert "Failed to save signed PDF.").

Definition download_finally : M State unit :=
  emit (SetFlag isSaving false).

(** [handleDownload] *)
Definition handleDownload (cl : State) : M State unit :=
  match fileBytes cl, pdfDoc cl with
  | Some source, Some _ =>
      if Nat.eqb (length (signatures cl)) 0 then mret tt
      else
        emit (SetFlag isSaving true) ;;
        try_finally (try_catch (download_try cl source) download_catch)
          download_finally
  | _, _ => mret tt
  end.

(** What the user does in the sign tool. *)
Inductive Op :=
  | op_upload (lib : Library) (file : option UploadedFile)
  | op_saveSignature (dataUrl now : string)
  | op_dragStart (e : MouseEvent) (i : string)
  | op_resizeStart (e : MouseEvent) (dir : string) (i : string)
  | op_mouseMove (e : MouseEvent)
  | op_mouseUp
  | op_backgroundClick
  | op_delete (i : string)
  | op_zoomIn
  | op_zoomOut
  | op_previousPage
  | op_nextPage
  | op_download (lib : Library).

Definition step (op : Op) (s : State) : State :=
  match op with
  | op_upload lib file => res_state (handleFileUpload file lib [] s)
  | op_saveSignature dataUrl now => saveSignature dataUrl now s
  | op_dragStart e i => handleDragStart e i s
  | op_resizeStart e dir i => handleResizeStart e dir i s
  | op_mouseMove e => handleContainerMouseMove e s
  | op_mouseUp => handleContainerMouseUp s
  | op_backgroundClick => handleBackgroundClick s
  | op_delete i => handleDeleteSignature i s
  | op_zoomIn => zoomIn s
  | op_zoomOut => zoomOut s
  | op_previousPage => previousPage s
  | op_nextPage => nextPage s
  | op_download lib => res_state (handleDownload s lib [] s)
  end.

Definition run (ops : list Op) (s : State) : State :=
  fold_left (fun s op => step op s) ops s.

(** A signature is at least 30 wide and 30 high. *)
Definition large_enough (g : SignatureObject) : Prop :=
  (30 <= width g)%R /\ (30 <= height g)%R.

(** What holds of every state of the sign tool. *)
Definition invariant (s : State) : Prop :=
  Forall large_enough (signatures s) /\
  (forall rs, resizeState s = Some rs ->
     (30 <= startWidth rs)%R /\ (30 <= startHeight rs)%R) /\
  (0.5 <= scale s <= 3)%R /\
  1 <= currentPage s /\
  (forall f, pdfDoc s = Some f ->
     fileBytes s = Some f /\
     currentPage s <= Z.max 1 (Z.of_nat (length (file_pages f)))).

(** The signature with the id [i], put at [x'], [y']. *)
Definition moved_to (i : string) (x' y' : R) (g : SignatureObject)
  : SignatureObject :=
  if String.eqb (id g) i then placed g x' y' else g.

(** The state after the mouse events [es], in order. *)
Definition mouse_moves (es : list MouseEvent) (s : State) : State :=
  fold_left (fun s e => handleContainerMouseMove e s) es s.

End SignTool.

(** [m] leaves the state as it is. *)
Definition static_ {St A} (m : M St A) : Prop :=
  forall lib tr s, res_state (m lib tr s) = s.

(** * Properties *)

(** ** The helpers on concrete inputs *)

Example hexToRgb_red :
  hexToRgb "#FF0000" = rgb (IZR 255 / 255) (IZR 0 / 255) (IZR 0 / 255).
Proof. reflexivity. Qed.

Example hexToRgb_without_hash :
  hexToRgb "0ea5e9" = rgb (IZR 14 / 255) (IZR 165 / 255) (IZR 233 / 255).
Proof. reflexivity. Qed.

Example hexToRgb_short : hexToRgb "#000" = rgb 0 0 0.
Proof. reflexivity. Qed.

Example strip_extension_last :
  strip_extension "scans.2024/report.final.pdf" = "scans.2024/report.final".
Proof. reflexivity. Qed.

Example strip_extension_none :
  strip_extension "scans.2024/report" = "scans.2024/report".
Proof. reflexivity. Qed.

Example includes_direction :
  includes "se" "e" = true /\ includes "se" "n" = false /\
  includes (position_string bottom_center) "center" = true /\
  includes (position_string top_right) "top" = true.
Proof. by repeat split. Qed.

Example js_slice0_examples :
  js_slice0 [1; 2; 3] 2 = [1; 2] /\ js_slice0 [1; 2; 3] 0 = [] /\
  js_slice0 [1; 2; 3] 7 = [1; 2; 3] /\ js_slice0 [1; 2; 3] (-1) = [1; 2].
Proof. by repeat split. Qed.

Example splice_examples :
  splice_remove 1 [1; 2; 3] = [1; 3] /\ splice_insert 1 9 [1; 2; 3] = [1; 9; 2; 3] /\
  splice_insert 5 9 [1; 2; 3] = [1; 2; 3; 9].
Proof. by repeat split. Qed.

Example pageNumberText_examples :
  pageNumberText fmt_n 3 12 = "3" /\
  pageNumberText fmt_Page_n 3 12 = "Page 3" /\
  pageNumberText fmt_Page_n_of_total 3 12 = "Page 3 of 12".
Proof. by repeat split. Qed.

Example rotated_examples :
  rotated 0 Param.cw = 90 /\ rotated 270 Param.cw = 0 /\
  rotated 0 Param.ccw = 270 /\ rotated 90 Param.ccw = 0.
Proof. by repeat split. Qed.

(** ** Lists and the object store *)

Lemma js_slice0_length {A} (l : list A) (e : Z) :
  (length (js_slice0 l e) <= length l)%nat.
Proof. unfold js_slice0. rewrite length_take. lia. Qed.

Lemma js_slice0_prefix {A} (l : list A) (e : Z) :
  0 <= e < Z.of_nat (length l) + 1 -> js_slice0 l e = take (Z.to_nat e) l.
Proof.
  intros He. unfold js_slice0.
  destruct (e <? 0) eqn:Hneg; [lia |].
  rewrite Z.min_l by lia. reflexivity.
Qed.

Lemma js_index_Some {A} (l : list A) (i : Z) (a : A) :
  js_index l i = Some a <-> 0 <= i /\ l !! Z.to_nat i = Some a.
Proof.
  unfold js_index. destruct (i <? 0) eqn:Hi.
  - split; [discriminate | lia].
  - split; [intros H; split; [lia | exact H] | intros [_ H]; exact H].
Qed.

Lemma js_index_is_Some {A} (l : list A) (i : Z) :
  0 <= i < Z.of_nat (length l) -> exists a, js_index l i = Some a.
Proof.
  intros Hi. destruct (lookup_lt_is_Some_2 l (Z.to_nat i)) as [a Ha]; [lia |].
  exists a. apply js_index_Some. split; [lia | exact Ha].
Qed.

Lemma alloc_all_spec (ps h : list PageMetadata.t) :
  alloc_all h ps = (h ++ ps, seq (length h) (length ps)).
Proof.
  revert h. induction ps as [| p ps IH]; intros h; simpl.
  - by rewrite app_nil_r.
  - rewrite IH. rewrite length_app. simpl.
    rewrite <- app_assoc. simpl.
    by replace (length h + 1)%nat with (S (length h)) by lia.
Qed.

Lemma deref_all_fresh (h ps : list PageMetadata.t) :
  deref_all (h ++ ps) (seq (length h) (length ps)) = ps.
Proof.
  revert h. induction ps as [| p ps IH]; intros h; [done |].
  simpl.
  rewrite lookup_app_r by lia. rewrite Nat.sub_diag. simpl.
  f_equal.
  specialize (IH (h ++ [p])).
  rewrite length_app in IH. simpl in IH.
  rewrite <- app_assoc in IH. simpl in IH.
  by replace (length h + 1)%nat with (S (length h)) in IH by lia.
Qed.

Lemma deref_all_elem (h : list PageMetadata.t) (rs : list ref) p :
  p ∈ deref_all h rs -> p ∈ h.
Proof.
  induction rs as [| r rs IH]; simpl.
  - by intros ?%elem_of_nil.
  - destruct (h !! r) as [q |] eqn:Hq; [| exact IH].
    intros [-> | Hin]%elem_of_cons; [| by apply IH].
    by eapply list_elem_of_lookup_2.
Qed.

Lemma clone_sequence_spec (h : list PageMetadata.t) (rs : list ref) :
  clone_sequence h rs =
    (h ++ deref_all h rs, seq (length h) (length (deref_all h rs))).
Proof. unfold clone_sequence. apply alloc_all_spec. Qed.

Lemma clone_id (el : EditorElement.t) : EditorElement.clone el = el.
Proof.
  destruct el as [? ? ? ? ? ? ? ? ? ? ? ? ? ? ? ? pts ?].
  unfold EditorElement.clone. simpl.
  destruct pts as [ps |]; [| done]. by rewrite map_id.
Qed.

Lemma map_clone_id (els : list EditorElement.t) :
  map EditorElement.clone els = els.
Proof. induction els as [| el els IH]; simpl; [done |]. by rewrite clone_id, IH. Qed.

(** ** The undo history *)

Lemma saveToHistory_unfold cl els rs s :
  saveToHistory cl els rs s =
    setHistoryIndex (Z.of_nat (length (pushed_history cl (new_snapshot els rs s))) - 1)
      (setHistory (pushed_history cl (new_snapshot els rs s))
         (set_heap (heap s ++ deref_all (heap s) rs) s)).
Proof.
  unfold saveToHistory. rewrite clone_sequence_spec, map_clone_id. reflexivity.
Qed.

Lemma pushed_history_length cl e :
  (length (history cl) <= 30)%nat ->
  (0 < length (pushed_history cl e) <= 30)%nat.
Proof.
  intros Hlen. unfold pushed_history, js_shift.
  pose proof (js_slice0_length (history cl) (historyIndex cl + 1)) as Hs.
  set (l := js_slice0 (history cl) (historyIndex cl + 1) ++ [e]).
  assert (Hl : (1 <= length l <= 31)%nat).
  { subst l. rewrite length_app. simpl. lia. }
  destruct (30 <? Z.of_nat (length l)) eqn:Hc.
  - rewrite length_drop. lia.
  - lia.
Qed.

Lemma pushed_history_last cl e : last (pushed_history cl e) = Some e.
Proof.
  unfold pushed_history, js_shift.
  set (p := js_slice0 (history cl) (historyIndex cl + 1)).
  destruct (30 <? Z.of_nat (length (p ++ [e]))) eqn:Hc.
  - destruct p as [| a p']; simpl in *.
    + done.
    + rewrite drop_0. apply last_snoc.
  - apply last_snoc.
Qed.

Lemma saveToHistory_history cl els rs s :
  history (saveToHistory cl els rs s) = pushed_history cl (new_snapshot els rs s).
Proof. by rewrite saveToHistory_unfold. Qed.

Lemma saveToHistory_heap cl els rs s :
  heap (saveToHistory cl els rs s) = heap s ++ deref_all (heap s) rs.
Proof. by rewrite saveToHistory_unfold. Qed.

Lemma saveToHistory_historyIndex cl els rs s :
  historyIndex (saveToHistory cl els rs s) =
    Z.of_nat (length (history (saveToHistory cl els rs s))) - 1.
Proof. by rewrite saveToHistory_unfold. Qed.

Lemma saveToHistory_frame cl els rs s :
  let s' := saveToHistory cl els rs s in
  pdfDoc s' = pdfDoc s /\ fileBytes s' = fileBytes s /\
  pageSequence s' = pageSequence s /\ elements s' = elements s /\
  currentPageIndex s' = currentPageIndex s /\ selectedId s' = selectedId s /\
  scale s' = scale s /\ toolMode s' = toolMode s.
Proof. simpl. rewrite saveToHistory_unfold. by repeat split. Qed.

Lemma saveToHistory_history_ok cl els rs s :
  (length (history cl) <= 30)%nat -> history_ok (saveToHistory cl els rs s).
Proof.
  intros Hlen. unfold history_ok.
  rewrite saveToHistory_historyIndex, saveToHistory_history.
  pose proof (pushed_history_length cl (new_snapshot els rs s) Hlen). lia.
Qed.

(** ** Properties of the state that every handler keeps *)

Section Preserves.
Context (I : State -> Prop).

Lemma preserves_ret {A} (a : A) : preserves I (mret a).
Proof. intros lib tr s Hs. exact Hs. Qed.

Lemma preserves_bind {A B} (m : M State A) (k : A -> M State B) :
  preserves I m -> (forall a, preserves I (k a)) -> preserves I (m ≫= k).
Proof.
  intros Hm Hk lib tr s Hs. unfold mbind, M_bind.
  specialize (Hm lib tr s Hs).
  destruct (m lib tr s) as [tr' s' [a |]]; simpl in *.
  - by apply Hk.
  - exact Hm.
Qed.

Lemma preserves_emit e : preserves I (emit e).
Proof. intros lib tr s Hs. exact Hs. Qed.

Lemma preserves_library : preserves I library.
Proof. intros lib tr s Hs. exact Hs. Qed.

Lemma preserves_call c : preserves I (call c).
Proof. intros lib tr s Hs. unfold call. by destruct (throws lib tr c). Qed.

Lemma preserves_call_throwing {A} c : preserves I (@call_throwing State A c).
Proof. intros lib tr s Hs. exact Hs. Qed.

Lemma preserves_modify f : (forall s, I s -> I (f s)) -> preserves I (modify f).
Proof. intros Hf lib tr s Hs. by apply Hf. Qed.

Lemma preserves_try_catch {A} (m h : M State A) :
  preserves I m -> preserves I h -> preserves I (try_catch m h).
Proof.
  intros Hm Hh lib tr s Hs. unfold try_catch.
  specialize (Hm lib tr s Hs).
  destruct (m lib tr s) as [tr' s' [a |]]; simpl in *.
  - exact Hm.
  - by apply Hh.
Qed.

Lemma preserves_try_finally {A} (m : M State A) (f : M State unit) :
  preserves I m -> preserves I f -> preserves I (try_finally m f).
Proof.
  intros Hm Hf lib tr s Hs. unfold try_finally.
  specialize (Hm lib tr s Hs).
  destruct (m lib tr s) as [tr' s' v]; simpl in *.
  specialize (Hf lib tr' s' Hm).
  by destruct (f lib tr' s') as [tr'' s'' [[] |]].
Qed.

Lemma preserves_for_each_from {A} (l : list A) (f : nat -> A -> M State unit) i :
  (forall j a, preserves I (f j a)) -> preserves I (for_each_from i l f).
Proof.
  intros Hf. revert i. induction l as [| a l IH]; intros i; simpl.
  - apply preserves_ret.
  - apply preserves_bind; [apply Hf | intros _; apply IH].
Qed.

Lemma preserves_for_each {A} (l : list A) (f : nat -> A -> M State unit) :
  (forall j a, preserves I (f j a)) -> preserves I (for_each l f).
Proof. apply preserves_for_each_from. Qed.

Lemma preserves_recording {A} (m : M State A) :
  preserves I m -> preserves I (recording m).
Proof.
  intros Hm lib tr s Hs. specialize (Hm lib tr s Hs). unfold recording.
  by destruct (m lib tr s) as [tr' s' [a |]].
Qed.

End Preserves.

(** One step of the reasoning about a handler: split a sequence, close a
    leaf, or take the cases of a test. *)
Ltac preserves_step :=
  first
    [ apply preserves_ret
    | apply preserves_emit
    | apply preserves_library
    | apply preserves_call
    | apply preserves_call_throwing
    | apply preserves_bind; [| intros ?]
    | apply preserves_try_catch
    | apply preserves_try_finally
    | apply preserves_for_each; intros ? ?
    | apply preserves_recording
    | match goal with
      | |- preserves _ (if ?b then _ else _) => destruct b
      | |- preserves _ (match ?x with _ => _ end) => destruct x
      end ].

Lemma preserves_exportPage (I : State -> Prop) flatten cl src i meta :
  preserves I (exportPage flatten cl src i meta).
Proof.
  unfold exportPage, addOutputPage, addBlankPage, copyPage, drawPageNumber,
    drawWatermark, replayElement, replayRedaction.
  repeat preserves_step.
Qed.

Lemma preserves_exportPages (I : State -> Prop) flatten cl src i metas :
  preserves I (exportPages flatten cl src i metas).
Proof.
  revert i. induction metas as [| meta metas IH]; intros i; simpl.
  - apply preserves_ret.
  - apply preserves_bind; [apply preserves_exportPage | intros size].
    apply preserves_bind; [apply IH | intros sizes]. apply preserves_ret.
Qed.

Lemma preserves_buildOutput (I : State -> Prop) flatten cl :
  preserves I (buildOutput flatten cl).
Proof.
  unfold buildOutput.
  repeat first [ apply preserves_exportPages | preserves_step ].
Qed.

Lemma handleDownload_state cl lib tr s :
  res_state (handleDownload cl lib tr s) = s.
Proof.
  assert (H : preserves (fun s' => s' = s) (handleDownload cl)).
  { unfold handleDownload, download_try, download_catch, download_finally.
    repeat first [ apply preserves_buildOutput | preserves_step ]. }
  exact (H lib tr s eq_refl).
Qed.

Lemma preserves_flattenPDF (I : State -> Prop) cl :
  (forall s f, I s -> I (setFileBytes f s)) ->
  (forall s f, I s -> I (setPdfDoc f s)) ->
  (forall s, I s -> I (install_normalized cl s)) ->
  preserves I (flattenPDF cl).
Proof.
  intros H1 H2 H3.
  unfold flattenPDF, flatten_try, flatten_catch, flatten_finally.
  repeat first
    [ apply preserves_buildOutput
    | apply preserves_modify; intros ? ?;
      first [ apply H1 | apply H2 | apply H3 ]; assumption
    | preserves_step ].
Qed.

Lemma preserves_handleFileUpload (I : State -> Prop) file ids cl :
  (forall s t, I s -> I (setDocTitle t s)) ->
  (forall s f, I s -> I (setFileBytes f s)) ->
  (forall s f, I s -> I (install_loaded cl f ids s)) ->
  preserves I (handleFileUpload file ids cl).
Proof.
  intros H1 H2 H3.
  unfold handleFileUpload, upload_try, upload_catch, upload_finally.
  repeat first
    [ apply preserves_modify; intros ? ?; auto
    | preserves_step ].
Qed.

(** *** The bound on the history *)

Lemma history_ok_same s s' :
  history s' = history s -> historyIndex s' = historyIndex s ->
  history_ok s -> history_ok s'.
Proof. unfold history_ok. by intros -> ->. Qed.

Lemma history_ok_saved cl els rs s0 s' :
  history_ok cl ->
  history s' = history (saveToHistory cl els rs s0) ->
  historyIndex s' = historyIndex (saveToHistory cl els rs s0) ->
  history_ok s'.
Proof.
  intros [Hlen _] H1 H2.
  eapply history_ok_same; [exact H1 | exact H2 |].
  by apply saveToHistory_history_ok.
Qed.

Lemma history_ok_initial : history_ok initial_state.
Proof. unfold history_ok. simpl. lia. Qed.

(** Close a goal [history_ok s'] where [s'] is [s] with other fields
    updated, or such an update of a state [saveToHistory] has produced. *)
Ltac history_ok_leaf H :=
  first
    [ exact H
    | apply (history_ok_same _ _ eq_refl eq_refl H)
    | eapply (history_ok_saved _ _ _ _ _ H); reflexivity ].

Lemma undo_history_ok s : history_ok s -> history_ok (undo s).
Proof.
  intros H. unfold undo.
  destruct (0 <? historyIndex s) eqn:Hpos; [| exact H].
  destruct (js_index (history s) (historyIndex s - 1)); [| exact H].
  destruct H as [Hlen Hidx]. unfold history_ok. simpl. lia.
Qed.

Lemma redo_history_ok s : history_ok s -> history_ok (redo s).
Proof.
  intros H. unfold redo.
  destruct (historyIndex s <? Z.of_nat (length (history s)) - 1) eqn:Hlt; [| exact H].
  destruct (js_index (history s) (historyIndex s + 1)); [| exact H].
  destruct H as [Hlen Hidx]. unfold history_ok. simpl. lia.
Qed.

Lemma organizeAction_history_ok type param idx newId cloneId s o :
  history_ok s ->
  organizeAction type param idx newId cloneId s = Some o ->
  history_ok (out_state o).
Proof.
  intros H. unfold organizeAction.
  destruct (js_index (pageSequence s) _) as [target |]; [| done].
  destruct (heap s !! target) as [targetPage |]; [| done].
  destruct type; simpl; repeat case_match;
    intros [= <-]; simpl; history_ok_leaf H.
Qed.

Lemma handlePageDrop_history_ok src tgt s s' :
  history_ok s -> handlePageDrop src tgt s = Some s' -> history_ok s'.
Proof.
  intros H. unfold handlePageDrop.
  repeat case_match; intros [= <-]; history_ok_leaf H.
Qed.

Lemma handleMouseMove_history_ok e dom s :
  history_ok s -> history_ok (handleMouseMove e dom s).
Proof.
  intros H. unfold handleMouseMove. repeat case_match; history_ok_leaf H.
Qed.

Lemma handleMouseUp_history_ok e dom now s :
  history_ok s -> history_ok (handleMouseUp e dom now s).
Proof.
  intros H. unfold handleMouseUp. repeat case_match; history_ok_leaf H.
Qed.

Lemma install_normalized_history_ok cl s :
  history_ok cl -> history_ok (install_normalized cl s).
Proof.
  intros H. unfold install_normalized. rewrite alloc_all_spec.
  history_ok_leaf H.
Qed.

Lemma install_loaded_history_ok cl f ids s :
  history_ok cl -> history_ok (install_loaded cl f ids s).
Proof.
  intros H. unfold install_loaded. rewrite alloc_all_spec.
  history_ok_leaf H.
Qed.

Lemma step_history_ok op s : history_ok s -> history_ok (step op s).
Proof.
  intros H. destruct op; simpl.
  - apply (preserves_handleFileUpload history_ok); try exact H.
    + intros s' t Hs'. history_ok_leaf Hs'.
    + intros s' f Hs'. history_ok_leaf Hs'.
    + intros s' f _. by apply install_loaded_history_ok.
  - unfold newDocument. simpl. history_ok_leaf H.
  - destruct (organizeAction _ _ _ _ _ s) as [o |] eqn:Ho; [| exact H].
    by eapply organizeAction_history_ok.
  - destruct (handlePageDrop _ _ s) as [s' |] eqn:Hd; [| exact H].
    by eapply handlePageDrop_history_ok.
  - by apply undo_history_ok.
  - by apply redo_history_ok.
  - unfold onActionStart. case_match; history_ok_leaf H.
  - by apply handleMouseMove_history_ok.
  - by apply handleMouseUp_history_ok.
  - destruct saved; history_ok_leaf H.
  - history_ok_leaf H.
  - history_ok_leaf H.
  - apply (preserves_flattenPDF history_ok); try exact H.
    + intros s' f Hs'. history_ok_leaf Hs'.
    + intros s' f Hs'. history_ok_leaf Hs'.
    + intros s' _. by apply install_normalized_history_ok.
  - rewrite handleDownload_state. exact H.
Qed.

Lemma run_history_ok ops s : history_ok s -> history_ok (run ops s).
Proof.
  unfold run. revert s. induction ops as [| op ops IH]; intros s H; simpl.
  - exact H.
  - apply IH. by apply step_history_ok.
Qed.

Lemma opened_state_eq :
  opened_state =
    mkState [PageMetadata.mk "p0" 1 0; PageMetadata.mk "p0" 1 0]
      (Some {| file_pages := [letter] |}) (Some {| file_pages := [letter] |})
      [0%nat] 0 1%R "report" select [] None
      [ {| snap_elements := []; snap_sequence := [1%nat] |} ] 0 ""
      (PageNumberConfig.mk false fmt_Page_n_of_total bottom_center 12%R "#64748b" 20%R)
      "#0ea5e9" 16%R 2%R 1%R false (Point.mk 0%R 0%R) None None
      (Point.mk 0%R 0%R) None [].
Proof. reflexivity. Qed.

Lemma two_page_state_eq :
  two_page_state =
    mkState [PageMetadata.mk "p0" 1 0; PageMetadata.mk "p0" 1 0;
             PageMetadata.mk "b" (-1) 0;
             PageMetadata.mk "p0" 1 0; PageMetadata.mk "b" (-1) 0]
      (Some {| file_pages := [letter] |}) (Some {| file_pages := [letter] |})
      [0%nat; 2%nat] 1 1%R "report" select [] None
      [ {| snap_elements := []; snap_sequence := [1%nat] |};
        {| snap_elements := []; snap_sequence := [3%nat; 4%nat] |} ] 1 ""
      (PageNumberConfig.mk false fmt_Page_n_of_total bottom_center 12%R "#64748b" 20%R)
      "#0ea5e9" 16%R 2%R 1%R false (Point.mk 0%R 0%R) None None
      (Point.mk 0%R 0%R) None [].
Proof. reflexivity. Qed.

(** C10.  [saveToHistory] keeps the entries up to the current index, appends
    a snapshot that holds the given elements and new copies of the pages of
    the given sequence, and drops the oldest entry when that makes more than
    30; afterwards the index is that of the appended snapshot, which is the
    last entry.  After every sequence of user actions the history holds at
    most 30 snapshots. *)
Theorem saveToHistory_bounded :
  (forall cl els rs s,
     history_ok cl ->
     let s' := saveToHistory cl els rs s in
     let snap := new_snapshot els rs s in
     let kept := take (Z.to_nat (historyIndex cl + 1)) (history cl) in
     history s' =
       (if decide (length kept < 30)%nat then kept ++ [snap]
        else drop 1 (kept ++ [snap])) /\
     snap_elements snap = els /\
     snap_pages s' snap = deref_all (heap s) rs /\
     Forall (fun r => (length (heap s) <= r)%nat) (snap_sequence snap) /\
     (forall r p, heap s !! r = Some p -> heap s' !! r = Some p) /\
     (length (history s') <= 30)%nat /\
     historyIndex s' = Z.of_nat (length (history s')) - 1 /\
     last (history s') = Some snap /\
     js_index (history s') (historyIndex s') = Some snap)
  /\
  (forall ops,
     (length (history (run ops initial_state)) <= 30)%nat /\
     -1 <= historyIndex (run ops initial_state)
        < Z.of_nat (length (history (run ops initial_state)))).
Proof.
  split.
  - intros cl els rs s [Hlen Hidx] s' snap kept.
    assert (Hh : history s' = pushed_history cl snap)
      by apply saveToHistory_history.
    assert (Hlast : last (history s') = Some snap)
      by (rewrite Hh; apply pushed_history_last).
    pose proof (pushed_history_length cl snap Hlen) as Hpl.
    assert (Hi : historyIndex s' = Z.of_nat (length (history s')) - 1)
      by apply saveToHistory_historyIndex.
    repeat split.
    + rewrite Hh. unfold pushed_history, js_shift.
      rewrite js_slice0_prefix by lia. fold kept.
      rewrite length_app. simpl.
      destruct (decide (length kept < 30)%nat) as [Hk | Hk].
      * destruct (Z.ltb_spec 30 (Z.of_nat (length kept + 1))); [lia | done].
      * destruct (Z.ltb_spec 30 (Z.of_nat (length kept + 1))); [done | lia].
    + unfold snap_pages. subst s'. rewrite saveToHistory_heap. subst snap.
      simpl. apply deref_all_fresh.
    + subst snap. simpl. apply Forall_forall. intros r Hr.
      apply list_elem_of_In, in_seq in Hr. lia.
    + intros r p Hr. subst s'. rewrite saveToHistory_heap.
      by apply lookup_app_l_Some.
    + rewrite Hh. lia.
    + exact Hi.
    + exact Hlast.
    + rewrite Hi. rewrite last_lookup in Hlast.
      apply js_index_Some. split; [rewrite Hh; lia |].
      rewrite <- Hlast. f_equal. rewrite Hh. lia.
  - intros ops. apply (run_history_ok ops initial_state history_ok_initial).
Qed.

Lemma saveToHistory_bounded_witness :
  history_ok two_page_state /\
  (length (history (saveToHistory two_page_state [] [0%nat] two_page_state)) <= 30)%nat.
Proof.
  split.
  - rewrite two_page_state_eq. unfold history_ok. simpl. lia.
  - apply (proj1 saveToHistory_bounded two_page_state [] [0%nat] two_page_state).
    rewrite two_page_state_eq. unfold history_ok. simpl. lia.
Defined.

(** ** Undo and redo *)

(** What undo and redo do keep of C5.  In a state of the editor, undo is
    enabled exactly when the history index is positive and redo exactly when
    it is below the last entry; an enabled undo (redo) makes the elements
    those the previous (next) entry records and the page sequence the
    references that entry holds, moves the index there and clears the
    selection; a disabled one changes nothing; neither changes the history
    or a page object.  The pages shown are the objects the entry refers to
    as they are now, which need not be what the entry recorded. *)
Theorem undo_redo_restore (s : State) :
  history_ok s ->
  (undo_enabled s = true <-> 0 < historyIndex s) /\
  (redo_enabled s = true <->
     historyIndex s < Z.of_nat (length (history s)) - 1) /\
  (undo_enabled s = true ->
     exists prev,
       js_index (history s) (historyIndex s - 1) = Some prev /\
       elements (undo s) = snap_elements prev /\
       pageSequence (undo s) = snap_sequence prev /\
       pages (undo s) = snap_pages s prev /\
       historyIndex (undo s) = historyIndex s - 1 /\
       selectedId (undo s) = None) /\
  (redo_enabled s = true ->
     exists next,
       js_index (history s) (historyIndex s + 1) = Some next /\
       elements (redo s) = snap_elements next /\
       pageSequence (redo s) = snap_sequence next /\
       pages (redo s) = snap_pages s next /\
       historyIndex (redo s) = historyIndex s + 1 /\
       selectedId (redo s) = None) /\
  (undo_enabled s = false -> undo s = s) /\
  (redo_enabled s = false -> redo s = s) /\
  history (undo s) = history s /\ heap (undo s) = heap s /\
  history (redo s) = history s /\ heap (redo s) = heap s.
Proof.
  intros [Hlen Hidx].
  assert (Hu : undo_enabled s = true <-> 0 < historyIndex s).
  { unfold undo_enabled. destruct (historyIndex s <=? 0) eqn:H; simpl; split;
      intros; try lia; done. }
  assert (Hr : redo_enabled s = true <->
               historyIndex s < Z.of_nat (length (history s)) - 1).
  { unfold redo_enabled.
    destruct (historyIndex s >=? Z.of_nat (length (history s)) - 1) eqn:H;
      simpl; split; intros; try lia; done. }
  split; [exact Hu |]. split; [exact Hr |].
  split; [| split; [| split; [| split]]].
  - intros He. apply Hu in He.
    destruct (js_index_is_Some (history s) (historyIndex s - 1)) as [prev Hp];
      [lia |].
    exists prev. split; [exact Hp |].
    unfold undo. rewrite (proj2 (Z.ltb_lt _ _) He), Hp. by repeat split.
  - intros He. apply Hr in He.
    destruct (js_index_is_Some (history s) (historyIndex s + 1)) as [next Hn];
      [lia |].
    exists next. split; [exact Hn |].
    unfold redo. rewrite (proj2 (Z.ltb_lt _ _) He), Hn. by repeat split.
  - intros He. unfold undo.
    destruct (0 <? historyIndex s) eqn:H; [| done].
    apply Z.ltb_lt, Hu in H. congruence.
  - intros He. unfold redo.
    destruct (historyIndex s <? Z.of_nat (length (history s)) - 1) eqn:H; [| done].
    apply Z.ltb_lt, Hr in H. congruence.
  - unfold undo, redo. repeat case_match; by repeat split.
Qed.

Lemma undo_redo_restore_witness :
  history_ok two_page_state /\
  (undo_enabled two_page_state = true <-> 0 < historyIndex two_page_state).
Proof.
  assert (H : history_ok two_page_state).
  { rewrite two_page_state_eq. unfold history_ok. simpl. lia. }
  split; [exact H |].
  exact (proj1 (undo_redo_restore two_page_state H)).
Defined.

(** C5, where the code departs from it.  The upload records history entry 0
    with the page at rotation 0.  After rotate, undo and rotate again, undo
    is enabled and entry 0 is the previous entry; the undo makes the page
    sequence the one of entry 0, and the page it shows has rotation 90, not
    the rotation 0 that was recorded. *)
Theorem undo_shows_rewritten_page :
  let s1 := opened_state in
  let s4 := step rotate_cw undone_state in
  exists e0,
    js_index (history s1) (historyIndex s1) = Some e0 /\
    map PageMetadata.rotation (snap_pages s1 e0) = [0] /\
    undo_enabled s4 = true /\
    js_index (history s4) (historyIndex s4 - 1) = Some e0 /\
    pageSequence (undo s4) = snap_sequence e0 /\
    elements (undo s4) = snap_elements e0 /\
    map PageMetadata.rotation (pages (undo s4)) = [90].
Proof.
  exists {| snap_elements := []; snap_sequence := [1%nat] |}.
  repeat split; reflexivity.
Qed.

(** ** Deleting a page *)

(** What the delete action does keep of C9, for a target index that
    denotes a page: when it is the only page, the state (page sequence,
    elements, history) stays as it is and the user is alerted; when there
    are more pages, the page sequence loses exactly that entry, the elements
    lose exactly those whose [pageId] is the id of the page, and no page
    object changes. *)
Theorem delete_page_spec (s : State) (param : Param.t) (idx : option Z)
    (newId : string) (cloneId : nat -> string) (target : ref)
    (page : PageMetadata.t) :
  let targetIdx := default (currentPageIndex s) idx in
  js_index (pageSequence s) targetIdx = Some target ->
  heap s !! target = Some page ->
  (length (pageSequence s) = 1%nat ->
     organizeAction OrganizeType.delete param idx newId cloneId s =
       Some {| out_state := s;
               out_alerts := ["Document must have at least one page."] |}) /\
  ((1 < length (pageSequence s))%nat ->
     exists o,
       organizeAction OrganizeType.delete param idx newId cloneId s = Some o /\
       out_alerts o = [] /\
       pageSequence (out_state o) =
         take (Z.to_nat targetIdx) (pageSequence s)
           ++ drop (S (Z.to_nat targetIdx)) (pageSequence s) /\
       elements (out_state o) =
         filter (fun el => EditorElement.pageId el ≠ PageMetadata.id page)
           (elements s) /\
       (forall el, el ∈ elements (out_state o) <->
                   el ∈ elements s /\
                   EditorElement.pageId el ≠ PageMetadata.id page) /\
       (forall r p, heap s !! r = Some p -> heap (out_state o) !! r = Some p)).
Proof.
  intros targetIdx Hidx Hpage.
  assert (Htarget : match idx with Some i => i | None => currentPageIndex s end
                    = targetIdx) by (subst targetIdx; by destruct idx).
  split.
  - intros Hone. unfold organizeAction. rewrite Htarget, Hidx, Hpage, Hone.
    reflexivity.
  - intros Hmore. unfold organizeAction. rewrite Htarget, Hidx, Hpage.
    destruct (1 <? Z.of_nat (length (pageSequence s))) eqn:Hc; [| lia].
    eexists. split; [reflexivity |]. simpl.
    destruct (saveToHistory_frame s
                (filter (fun el => EditorElement.pageId el ≠ PageMetadata.id page)
                   (elements s))
                (splice_remove (Z.to_nat targetIdx) (pageSequence s))
                (setElements
                   (filter (fun el => EditorElement.pageId el ≠ PageMetadata.id page)
                      (elements s))
                   (setPageSequence
                      (splice_remove (Z.to_nat targetIdx) (pageSequence s))
                      (setCurrentPageIndex (Z.max 0 (targetIdx - 1)) s))))
      as (_ & _ & Hseq & Hels & _).
    simpl in Hseq, Hels. unfold splice_remove in Hseq.
    split; [done |]. split; [exact Hseq |]. split; [exact Hels |]. split.
    + intros el. rewrite Hels. rewrite list_elem_of_filter. tauto.
    + intros r p Hr. rewrite saveToHistory_heap. simpl.
      by apply lookup_app_l_Some.
Qed.

Lemma delete_page_spec_witness :
  js_index (pageSequence opened_state) 0 = Some 0%nat /\
  organizeAction OrganizeType.delete Param.none (Some 0) "n" sample_ids opened_state =
    Some {| out_state := opened_state;
            out_alerts := ["Document must have at least one page."] |}.
Proof.
  split; [reflexivity |].
  apply (delete_page_spec opened_state Param.none (Some 0) "n" sample_ids 0%nat
           (PageMetadata.mk "p0" 1 0));
    reflexivity.
Defined.

Lemma delete_page_spec_deletes :
  exists o,
    organizeAction OrganizeType.delete Param.none (Some 1) "n" sample_ids
      two_page_state = Some o /\
    out_alerts o = [] /\
    pageSequence (out_state o) = [0%nat].
Proof.
  destruct (proj2 (delete_page_spec two_page_state Param.none (Some 1) "n"
                     sample_ids 2%nat (PageMetadata.mk "b" (-1) 0)
                     eq_refl eq_refl))
    as (o & Ho & Ha & Hs & _).
  { rewrite two_page_state_eq. simpl. lia. }
  exists o. split; [exact Ho |]. split; [exact Ha |]. rewrite Hs. reflexivity.
Defined.

(** C9, where the code departs from it.  A one-page document is opened, a
    blank page is inserted, which makes page 2 the current page, and the
    insertion is undone: the page sequence has exactly one page and the
    current page index is still 1.  The Delete button of the toolbar then
    reads [pageSequence[1].id] and throws: nothing is deleted and no alert
    is shown. *)
Theorem delete_throws_after_undo :
  let s := step op_undo two_page_state in
  length (pageSequence s) = 1%nat /\
  currentPageIndex s = 1 /\
  js_index (pageSequence s) (currentPageIndex s) = None /\
  organizeAction OrganizeType.delete Param.none None "n" sample_ids s = None.
Proof. repeat split; reflexivity. Qed.

(** ** Page rotation *)

Lemma rotated_valid r param : valid_rotation r -> valid_rotation (rotated r param).
Proof.
  unfold valid_rotation, rotated.
  intros [-> | [-> | [-> | ->]]]; destruct param; simpl; tauto.
Qed.

Lemma rotations_ok_deref h rs : rotations_ok h -> rotations_ok (deref_all h rs).
Proof.
  unfold rotations_ok. rewrite !Forall_forall.
  intros H p Hp. apply H. by eapply deref_all_elem.
Qed.

Lemma rotations_ok_clone h rs : rotations_ok h -> rotations_ok (h ++ deref_all h rs).
Proof. intros H. apply Forall_app. split; [done | by apply rotations_ok_deref]. Qed.

Lemma rotations_ok_snoc h p :
  rotations_ok h -> valid_rotation (PageMetadata.rotation p) -> rotations_ok (h ++ [p]).
Proof. intros H Hp. apply Forall_app. split; [done | by apply Forall_singleton]. Qed.

Lemma rotations_ok_lookup h r p :
  rotations_ok h -> h !! r = Some p -> valid_rotation (PageMetadata.rotation p).
Proof. intros H Hr. by eapply (Forall_lookup_1 _ _ _ _ H). Qed.

Lemma rotations_ok_initialSequence n ids : rotations_ok (initialSequence n ids).
Proof.
  unfold rotations_ok, initialSequence. apply Forall_forall. intros p Hp.
  apply list_elem_of_fmap in Hp as (i & -> & _). by left.
Qed.

Lemma rotations_ok_normalized ps : rotations_ok (normalized ps).
Proof.
  unfold rotations_ok, normalized. apply Forall_forall. intros p Hp.
  apply list_elem_of_lookup in Hp as [i Hi].
  rewrite list_lookup_imap in Hi.
  destruct (ps !! i); simpl in Hi; [| done]. injection Hi as <-. by left.
Qed.

(** Close a goal [rotations_ok (heap s')] for a state [s'] a handler has
    built from [s]. *)
Ltac rotations_ok_leaf :=
  simpl;
  repeat (rewrite saveToHistory_heap; simpl);
  repeat first
    [ assumption
    | apply rotations_ok_clone
    | apply rotations_ok_snoc
    | apply Forall_insert
    | apply Forall_app; split
    | apply rotations_ok_initialSequence
    | apply rotations_ok_normalized
    | apply rotated_valid
    | by left
    | by eapply rotations_ok_lookup
    | progress unfold with_id; simpl ].

Lemma organizeAction_rotations_ok type param idx newId cloneId s o :
  rotations_ok (heap s) ->
  organizeAction type param idx newId cloneId s = Some o ->
  rotations_ok (heap (out_state o)).
Proof.
  intros H. unfold organizeAction.
  destruct (js_index (pageSequence s) _) as [target |]; [| done].
  destruct (heap s !! target) as [targetPage |] eqn:Ht; [| done].
  destruct type; simpl; repeat case_match;
    intros [= <-]; rotations_ok_leaf.
Qed.

Lemma step_rotations_ok op s :
  rotations_ok (heap s) -> rotations_ok (heap (step op s)).
Proof.
  intros H. destruct op; simpl.
  - apply (preserves_handleFileUpload (fun s => rotations_ok (heap s)));
      try exact H; intros s' ? Hs'; try exact Hs'.
    unfold install_loaded. rewrite alloc_all_spec. rotations_ok_leaf.
  - unfold newDocument. rotations_ok_leaf.
  - destruct (organizeAction _ _ _ _ _ s) as [o |] eqn:Ho; [| exact H].
    by eapply organizeAction_rotations_ok.
  - unfold handlePageDrop. repeat case_match; rotations_ok_leaf.
  - unfold undo. repeat case_match; rotations_ok_leaf.
  - unfold redo. repeat case_match; rotations_ok_leaf.
  - unfold onActionStart. case_match; rotations_ok_leaf.
  - unfold handleMouseMove. repeat case_match; rotations_ok_leaf.
  - unfold handleMouseUp. repeat case_match; rotations_ok_leaf.
  - destruct saved; rotations_ok_leaf.
  - exact H.
  - exact H.
  - apply (preserves_flattenPDF (fun s => rotations_ok (heap s)));
      try exact H; try (intros s' ? Hs'; exact Hs').
    intros s' Hs'. unfold install_normalized. rewrite alloc_all_spec.
    rotations_ok_leaf.
  - by rewrite handleDownload_state.
Qed.

Lemma run_rotations_ok ops s :
  rotations_ok (heap s) -> rotations_ok (heap (run ops s)).
Proof.
  unfold run. revert s. induction ops as [| op ops IH]; intros s H; simpl.
  - exact H.
  - apply IH. by apply step_rotations_ok.
Qed.

(** C8.  The rotate action stores [(r + 90 + 360) mod 360] or
    [(r - 90 + 360) mod 360], which is one of 0, 90, 180, 270 when [r] is;
    the pages of a loaded document start with rotation 0; and after every
    sequence of user actions the rotation of every page of the page
    sequence is one of 0, 90, 180, 270. *)
Theorem page_rotation_invariant :
  (forall r, rotated r Param.cw = Z.rem (r + 90 + 360) 360 /\
             rotated r Param.ccw = Z.rem (r - 90 + 360) 360) /\
  (forall r param, valid_rotation r -> valid_rotation (rotated r param)) /\
  (forall n ids p, p ∈ initialSequence n ids -> PageMetadata.rotation p = 0) /\
  (forall ops p,
     p ∈ pages (run ops initial_state) ->
     valid_rotation (PageMetadata.rotation p)).
Proof.
  split; [| split; [| split]].
  - intros r. unfold rotated. simpl. split; [reflexivity | f_equal; lia].
  - apply rotated_valid.
  - intros n ids p Hp. unfold initialSequence in Hp.
    by apply list_elem_of_fmap in Hp as (i & -> & _).
  - intros ops p Hp.
    assert (H : rotations_ok (heap (run ops initial_state))).
    { apply run_rotations_ok. simpl. apply Forall_nil_2. }
    unfold rotations_ok in H. rewrite Forall_forall in H. apply H.
    by eapply deref_all_elem.
Qed.

Lemma page_rotation_invariant_witness :
  PageMetadata.mk "p0" 1 90 ∈
    pages (run [op_upload quiet_library (Some one_page_file) sample_ids;
                op_organize OrganizeType.rotate Param.cw None "n" sample_ids]
             initial_state) /\
  valid_rotation 90.
Proof.
  assert (H : PageMetadata.mk "p0" 1 90 ∈
    pages (run [op_upload quiet_library (Some one_page_file) sample_ids;
                op_organize OrganizeType.rotate Param.cw None "n" sample_ids]
             initial_state)).
  { apply list_elem_of_In. simpl. tauto. }
  split; [exact H |].
  exact (proj2 (proj2 (proj2 page_rotation_invariant)) _ _ H).
Defined.

(** ** The page organizer and the loaded document *)

Lemma organizeAction_keeps_document type param idx newId cloneId s o :
  organizeAction type param idx newId cloneId s = Some o ->
  fileBytes (out_state o) = fileBytes s /\ pdfDoc (out_state o) = pdfDoc s /\
  scale (out_state o) = scale s /\ selectedId (out_state o) = selectedId s /\
  toolMode (out_state o) = toolMode s.
Proof.
  unfold organizeAction.
  destruct (js_index (pageSequence s) _) as [target |]; [| done].
  destruct (heap s !! target) as [targetPage |]; [| done].
  destruct type; simpl; repeat case_match; intros [= <-]; simpl;
    try done;
    match goal with
    | |- context [saveToHistory ?cl ?els ?rs ?s0] =>
        destruct (saveToHistory_frame cl els rs s0)
          as (-> & -> & _ & _ & _ & -> & -> & ->)
    end; done.
Qed.

Lemma handlePageDrop_keeps_document src tgt s s' :
  handlePageDrop src tgt s = Some s' ->
  fileBytes s' = fileBytes s /\ pdfDoc s' = pdfDoc s /\
  elements s' = elements s /\ scale s' = scale s.
Proof.
  unfold handlePageDrop. repeat case_match; intros [= <-]; simpl; try done.
  match goal with
  | |- context [saveToHistory ?cl ?els ?rs ?s0] =>
      destruct (saveToHistory_frame cl els rs s0)
        as (-> & -> & _ & -> & _ & _ & -> & _)
  end; done.
Qed.

(** C7, where the code departs from it.  After an undo, the page sequence
    shares its page objects with the history entry it was restored from.
    The rotate action then updates the object of the page in place, so the
    entry that recorded rotation 0 records rotation 90 afterwards, and a
    further undo brings back a page with rotation 90. *)
Theorem rotate_after_undo_rewrites_history :
  let s3 := undone_state in
  let s4 := step rotate_cw s3 in
  exists e0,
    js_index (history s3) 0 = Some e0 /\
    js_index (history s4) 0 = Some e0 /\
    map PageMetadata.rotation (snap_pages s3 e0) = [0] /\
    map PageMetadata.rotation (snap_pages s4 e0) = [90] /\
    map PageMetadata.rotation (pages s3) = [0] /\
    map PageMetadata.rotation (pages s4) = [90] /\
    map PageMetadata.rotation (pages (undo s4)) = [90].
Proof.
  exists {| snap_elements := []; snap_sequence := [1%nat] |}.
  repeat split; reflexivity.
Qed.

(** ** Minimum sizes *)

Lemma resize_item_id sel dir dx dy item :
  EditorElement.id (resize_item sel dir dx dy item) = EditorElement.id item.
Proof. unfold resize_item. by repeat case_match. Qed.

Lemma resize_item_size sel dir dx dy item :
  id_is sel (EditorElement.id item) = true ->
  (10 <= EditorElement.width (resize_item sel dir dx dy item))%R /\
  (10 <= EditorElement.height (resize_item sel dir dx dy item))%R.
Proof.
  intros Hsel. unfold resize_item. rewrite Hsel. simpl.
  repeat case_match; simpl; split; apply Rmax_l.
Qed.

Lemma resize_item_other sel dir dx dy item :
  id_is sel (EditorElement.id item) = false ->
  resize_item sel dir dx dy item = item.
Proof. intros Hsel. unfold resize_item. by rewrite Hsel. Qed.

Lemma created_element_size now pageId x y w h s :
  (20 <= EditorElement.width (created_element now pageId x y w h s))%R /\
  (20 <= EditorElement.height (created_element now pageId x y w h s))%R.
Proof.
  unfold created_element. simpl. repeat case_match; split; apply Rmax_l.
Qed.

(** C2.  While an element is resized, a mouse move leaves the selected
    element at least 10 wide and 10 high (and the other elements as they
    were); an element that the release of a creating drag adds to the list
    is at least 20 wide and 20 high. *)
Theorem minimum_element_size :
  (forall e dom s el',
     isDragging s = true ->
     action s = Some resizing ->
     truthy (selectedId s) = true ->
     truthy (resizeDir s) = true ->
     el' ∈ elements (handleMouseMove e dom s) ->
     (id_is (selectedId s) (EditorElement.id el') = true ->
        (10 <= EditorElement.width el')%R /\ (10 <= EditorElement.height el')%R) /\
     (id_is (selectedId s) (EditorElement.id el') = false -> el' ∈ elements s)) /\
  (forall e dom now s el',
     isDragging s = true ->
     action s = Some creating ->
     el' ∈ elements (handleMouseUp e dom now s) ->
     el' ∈ elements s \/
     (20 <= EditorElement.width el')%R /\ (20 <= EditorElement.height el')%R).
Proof.
  split.
  - intros e dom s el' Hdrag Hact Hsel Hdir Hin.
    unfold handleMouseMove in Hin.
    rewrite Hdrag, Hact, Hsel, Hdir in Hin. simpl in Hin.
    apply list_elem_of_fmap in Hin as (item & -> & Hitem).
    rewrite resize_item_id. split.
    + apply resize_item_size.
    + intros Hother. by rewrite resize_item_other.
  - intros e dom now s el' Hdrag Hact Hin.
    unfold handleMouseUp in Hin. rewrite Hdrag, Hact in Hin. simpl in Hin.
    destruct (truthy (activePageId s)); simpl in Hin; [| by left].
    destruct (dom (activePageId s)) as [box |]; simpl in Hin; [| by left].
    match type of Hin with
    | context [if ?c then _ else _] => destruct c
    end; simpl in Hin; [| by left].
    assert (Hels : forall cl els rs s0 (b : bool),
              elements (if b then setToolMode select (saveToHistory cl els rs s0)
                        else saveToHistory cl els rs s0) = elements s0).
    { intros cl els rs s0 b.
      destruct (saveToHistory_frame cl els rs s0) as (_ & _ & _ & Hel & _).
      by destruct b. }
    rewrite Hels in Hin. simpl in Hin.
    apply elem_of_app in Hin as [Hin | Hin]; [by left | right].
    apply list_elem_of_singleton in Hin as ->.
    apply created_element_size.
Qed.

Lemma minimum_element_size_witness :
  let el' :=
    resize_item (Some "a") "se" (-100 - 0) (-100 - 0)
      (created_element "a" "p0" 30 30 30 30 opened_state) in
  (10 <= EditorElement.width el')%R /\ (10 <= EditorElement.height el')%R.
Proof.
  intros el'.
  apply (proj1 minimum_element_size
           {| clientX := -100; clientY := -100; shiftKey := false |}
           (fun _ => None) resizing_state el');
    [reflexivity | reflexivity | reflexivity | reflexivity | | reflexivity].
  apply list_elem_of_In. simpl. tauto.
Defined.

(** ** Traces of handlers *)

Section Raises.
Context {St : Type} (u : LibCall -> bool).

Lemma raises_ret {A} (a : A) : raises u (mret a : M St A).
Proof.
  intros lib tr s. exists []. split; [unfold adds; simpl; by rewrite app_nil_r |].
  intros c [].
Qed.

Lemma raises_emit e : not_a_throw e -> raises u (emit e : M St unit).
Proof.
  intros He lib tr s. exists [e]. split; [reflexivity |].
  intros c [-> | []]. destruct He.
Qed.

Lemma raises_modify f : raises u (modify f : M St unit).
Proof.
  intros lib tr s. exists []. split; [unfold adds; simpl; by rewrite app_nil_r |].
  intros c [].
Qed.

Lemma raises_library : raises u (library : M St Library).
Proof.
  intros lib tr s. exists []. split; [unfold adds; simpl; by rewrite app_nil_r |].
  intros c [].
Qed.

Lemma raises_call c : raises u (call c : M St unit).
Proof.
  intros lib tr s. unfold adds, call.
  destruct (throws lib tr c).
  - exists [Throw c]. by split.
  - exists [Call c]. split; [done |]. intros c' [[=] | []].
Qed.

Lemma raises_call_throwing {A} c : raises u (call_throwing c : M St A).
Proof. intros lib tr s. exists [Throw c]. by split. Qed.

Lemma raises_bind {A B} (m : M St A) (k : A -> M St B) :
  raises u m -> (forall a, raises u (k a)) -> raises u (m ≫= k).
Proof.
  intros Hm Hk lib tr s. unfold adds, mbind, M_bind.
  destruct (Hm lib tr s) as (ev1 & Hev1 & Hthrow1). unfold adds in Hev1.
  destruct (m lib tr s) as [tr1 s1 [a |]]; simpl in *; subst tr1.
  - destruct (Hk a lib (tr ++ ev1) s1) as (ev2 & Hev2 & Hthrow2).
    unfold adds in Hev2. exists (ev1 ++ ev2).
    split; [by rewrite Hev2, app_assoc |].
    intros c Hc Hu. apply in_app_or in Hc as [Hc | Hc].
    + by specialize (Hthrow1 c Hc Hu).
    + by apply (Hthrow2 c).
  - exists ev1. by split.
Qed.

Lemma raises_for_each_from {A} (l : list A) (f : nat -> A -> M St unit) i :
  (forall j a, raises u (f j a)) -> raises u (for_each_from i l f).
Proof.
  intros Hf. revert i. induction l as [| a l IH]; intros i; simpl.
  - apply raises_ret.
  - apply raises_bind; [apply Hf | intros _; apply IH].
Qed.

Lemma raises_for_each {A} (l : list A) (f : nat -> A -> M St unit) :
  (forall j a, raises u (f j a)) -> raises u (for_each l f).
Proof. apply raises_for_each_from. Qed.


End Raises.

Ltac raises_step :=
  first
    [ apply raises_ret
    | apply raises_emit; exact I
    | apply raises_modify
    | apply raises_library
    | apply raises_call
    | apply raises_call_throwing
    | apply raises_bind; [| intros ?]
    | apply raises_for_each; intros ? ?
    | match goal with
      | |- raises _ (if ?b then _ else _) => destruct b
      | |- raises _ (match ?x with _ => _ end) => destruct x
      end ].

Lemma raises_mergeFiles files : raises every_call (mergeFiles files).
Proof.
  induction files as [| pdf files IH]; simpl.
  - apply raises_ret.
  - unfold mergeFile. repeat first [ apply IH | raises_step ].
Qed.

Lemma raises_compressPages scale quality total i sizes :
  raises every_call (compressPages scale quality total i sizes).
Proof.
  revert i. induction sizes as [| size sizes IH]; intros i; simpl.
  - apply raises_ret.
  - unfold compressPage. repeat first [ apply IH | raises_step ].
Qed.

(** *** Failures in the export *)




Section Handled.
Context {St : Type}.


















End Handled.
















(** ** The geometry of the replay *)

Lemma getRotatedXY_rotate_about cx cy rotVal ox oy :
  getRotatedXY cx cy rotVal ox oy =
    rotate_about (Point.mk cx cy) rotVal (Point.mk ox oy).
Proof. unfold getRotatedXY, rotate_about. simpl. f_equal; lra. Qed.








(** ** The render effect *)

Module PageRenderFacts.
Import PageRender.

Lemma same_deps_refl p : same_deps p p = true.
Proof.
  unfold same_deps. rewrite bool_decide_eq_true_2, Nat.eqb_refl by done.
  by destruct (Req_dec_T (scale p) (scale p)).
Qed.

Lemma same_deps_scale a b : scale a <> scale b -> same_deps a b = false.
Proof.
  intros H. unfold same_deps.
  destruct (Req_dec_T (scale a) (scale b)); [done |].
  by rewrite andb_false_r.
Qed.

Lemma rendered_unchanged p page env c :
  deps c = Some p -> step (rendered p page env) c = c.
Proof. intros H. simpl. by rewrite H, same_deps_refl. Qed.

Lemma rendered_changed d p page env c :
  deps c = Some d -> same_deps d p = false ->
  step (rendered p page env) c =
    render_start p page env (set_deps p (cleanup c)).
Proof. intros H Hd. simpl. by rewrite H, Hd. Qed.

Lemma cancel_trace t c : trace (cancel t c) = trace c ++ [Cancel t].
Proof. unfold cancel. simpl. by case_bool_decide. Qed.

Lemma cancel_in_flight_subset t c u :
  u ∈ in_flight (cancel t c) -> u ∈ in_flight c /\ u ≠ t.
Proof.
  unfold cancel. simpl. case_bool_decide as Hd; simpl.
  - rewrite list_elem_of_In, filter_In, <- list_elem_of_In.
    intros [Hu Hne]. split; [done |].
    intros ->. by rewrite Nat.eqb_refl in Hne.
  - intros Hu. split; [done |]. by intros ->.
Qed.

Lemma cancel_current_trace c :
  exists ev, trace (cancel_current c) = trace c ++ ev /\ Forall calm ev.
Proof.
  unfold cancel_current. destruct (renderTaskRef c) as [t |].
  - exists [Cancel t]. split; [apply cancel_trace | by repeat constructor].
  - exists []. split; [by rewrite app_nil_r | constructor].
Qed.

Lemma render_start_trace p page env c :
  exists ev, trace (render_start p page env c) = trace c ++ ev /\ Forall calm ev.
Proof.
  unfold render_start.
  destruct (cancel_current_trace c) as (ev & Hev & Hcalm).
  destruct (negb (canvas env)).
  { exists []. split; [by rewrite app_nil_r | constructor]. }
  destruct (negb (context env)); [by exists ev |].
  destruct (PageMetadata.originalIndex page =? -1).
  { exists (ev ++ [FillBlank]). simpl. rewrite Hev, <- app_assoc.
    split; [done |]. apply Forall_app. split; [done | by repeat constructor]. }
  destruct (pdfDoc p); by exists ev.
Qed.

Lemma step_trace_grows i c : exists ev, trace (step i c) = trace c ++ ev.
Proof.
  destruct i; simpl.
  - destruct (deps c) as [d |].
    + destruct (same_deps d p); [exists []; by rewrite app_nil_r |].
      destruct (cancel_current_trace c) as (ev1 & H1 & _).
      destruct (render_start_trace p page env (set_deps p (cleanup c)))
        as (ev2 & H2 & _).
      exists (ev1 ++ ev2). unfold cleanup in *. simpl in H2.
      by rewrite H2, H1, app_assoc.
    + destruct (render_start_trace p page env (set_deps p c)) as (ev2 & H2 & _).
      by exists ev2.
  - destruct (cancel_current_trace c) as (ev1 & H1 & _). by exists ev1.
  - unfold render_resume. destruct (waiting c); simpl;
      [exists []; by rewrite app_nil_r | by eexists].
  - destruct (waiting c); [exists []; by rewrite app_nil_r |].
    unfold on_rejected. case_match; simpl;
      [by eexists | exists []; by rewrite app_nil_r].
  - exists []. by rewrite app_nil_r.
  - case_bool_decide; [| exists []; by rewrite app_nil_r].
    unfold on_rejected. case_match; simpl;
      [by eexists | exists []; by rewrite app_nil_r].
Qed.

Lemma run_trace_grows inputs c :
  exists ev, trace (run inputs c) = trace c ++ ev.
Proof.
  unfold run. revert c. induction inputs as [| i inputs IH]; intros c; simpl.
  - exists []. by rewrite app_nil_r.
  - destruct (IH (step i c)) as [ev2 H2].
    destruct (step_trace_grows i c) as [ev1 H1].
    exists (ev1 ++ ev2). by rewrite H2, H1, app_assoc.
Qed.

Lemma cleanup_in_flight c t :
  renderTaskRef c = Some t -> t ∈ in_flight c ->
  trace (cleanup c) = trace c ++ [Cancel t] /\
  (t ∉ in_flight (cleanup c)) /\
  (in_flight (cleanup c) ⊆ in_flight c).
Proof.
  intros Href Hin. unfold cleanup, cancel_current. rewrite Href.
  split; [apply cancel_trace |]. split.
  - intros H. by apply cancel_in_flight_subset in H as [_ H].
  - intros u H. by apply cancel_in_flight_subset in H as [H _].
Qed.

Lemma cancel_current_in_flight c u :
  u ∈ in_flight (cancel_current c) -> u ∈ in_flight c.
Proof.
  unfold cancel_current. destruct (renderTaskRef c); [| done].
  intros H. by apply cancel_in_flight_subset in H as [H _].
Qed.

Lemma render_start_in_flight p page env c u :
  u ∈ in_flight (render_start p page env c) -> u ∈ in_flight c.
Proof.
  unfold render_start. repeat case_match; simpl; try done;
    apply cancel_current_in_flight.
Qed.

(** What the effect does keep: the render task that [renderTaskRef] holds
    is cancelled, before anything else, when the framework runs the effect
    again, and when the component is removed; the [catch] block reports
    nothing for a [RenderingCancelledException] and an error for every
    other exception. *)
Lemma held_render_cancelled (c : Comp) (t : nat) (d : Props) :
  renderTaskRef c = Some t ->
  t ∈ in_flight c ->
  deps c = Some d ->
  (forall p page env,
     same_deps d p = false ->
     let c' := step (rendered p page env) c in
     (exists rest,
        trace c' = trace c ++ Cancel t :: rest /\ Forall calm rest) /\
     (t ∉ in_flight c')) /\
  (let c' := step unmounted c in
   trace c' = trace c ++ [Cancel t] /\ (t ∉ in_flight c')) /\
  (forall c0, on_rejected "RenderingCancelledException" c0 = c0) /\
  (forall name c0,
     name ≠ "RenderingCancelledException" ->
     trace (on_rejected name c0) =
       trace c0 ++ [ConsoleError "PDF Page Render Error:"]).
Proof.
  intros Href Hin Hdeps.
  destruct (cleanup_in_flight c t Href Hin) as (Htr & Hnot & _).
  split; [| split; [| split]].
  - intros p page env Hp c'. subst c'. simpl. rewrite Hdeps, Hp.
    destruct (render_start_trace p page env (set_deps p (cleanup c)))
      as (ev & Hev & Hcalm).
    simpl in Hev. split.
    + exists ev. rewrite Hev, Htr, <- app_assoc. by split.
    + intros H. apply Hnot. by apply render_start_in_flight in H.
  - simpl. by split.
  - reflexivity.
  - intros name c0 Hname. unfold on_rejected.
    destruct (String.eqb name "RenderingCancelledException") eqn:Heq.
    + by apply String.eqb_eq in Heq.
    + reflexivity.
Qed.

End PageRenderFacts.

(** C4, where the code departs from it.  First: the zoom changes twice
    while the page is fetched.  Both invocations of [render()] find no
    render task to cancel, both start one when their page arrives, and
    [renderTaskRef] holds the second only: the first is in flight when the
    second starts, no later run of the effect cancels it, and it is still
    in flight when the component has been removed.  Second: the rotate
    action changes the rotation of the page object in place, so the page
    component is rendered with the same object as before, the effect does
    not run, and the render task that draws the page with the old rotation
    is neither cancelled nor replaced. *)
Theorem stale_render_survives :
  let env := {| PageRender.canvas := true; PageRender.context := true |} in
  let props z :=
    {| PageRender.pdfDoc := Some 0%nat; PageRender.pageMeta := 0%nat;
       PageRender.scale := z |} in
  let zoomed z := PageRender.rendered (props z) (PageMetadata.mk "p0" 1 0) env in
  let c :=
    PageRender.run
      [zoomed 1%R; zoomed 1.1%R; PageRender.page_resolved;
       PageRender.page_resolved]
      PageRender.mounted in
  (PageRender.trace c = [PageRender.Start 0; PageRender.Start 1] /\
   PageRender.in_flight c = [0%nat; 1%nat] /\
   PageRender.renderTaskRef c = Some 1%nat /\
   PageRender.trace (PageRender.step (zoomed 1.2%R) c) =
     [PageRender.Start 0; PageRender.Start 1; PageRender.Cancel 1;
      PageRender.Cancel 1] /\
   PageRender.in_flight (PageRender.step (zoomed 1.2%R) c) = [0%nat] /\
   PageRender.trace (PageRender.step PageRender.unmounted c) =
     [PageRender.Start 0; PageRender.Start 1; PageRender.Cancel 1] /\
   PageRender.in_flight (PageRender.step PageRender.unmounted c) = [0%nat]) /\
  (let s := opened_state in
   let s' := step rotate_cw s in
   let shown := PageRender.rendered (props 1%R) (PageMetadata.mk "p0" 1 0) env in
   let turned := PageRender.rendered (props 1%R) (PageMetadata.mk "p0" 1 90) env in
   let c1 :=
     PageRender.run [shown; PageRender.page_resolved] PageRender.mounted in
   pageSequence s = [0%nat] /\ pageSequence s' = [0%nat] /\
   map PageMetadata.rotation (pages s) = [0] /\
   map PageMetadata.rotation (pages s') = [90] /\
   page_rendered (Some 0%nat) 0%nat env s = Some shown /\
   page_rendered (Some 0%nat) 0%nat env s' = Some turned /\
   PageRender.in_flight c1 = [0%nat] /\
   PageRender.trace c1 = [PageRender.Start 0] /\
   PageRender.step turned c1 = c1).
Proof.
  intros env props zoomed c.
  assert (Hc : c = PageRender.mk (Some (props 1.1%R)) (Some 1%nat)
                     [0%nat; 1%nat] 0 2
                     [PageRender.Start 0; PageRender.Start 1]).
  { subst c zoomed. unfold PageRender.run. cbn [fold_left].
    change (PageRender.step (PageRender.rendered (props 1%R) _ env)
              PageRender.mounted)
      with (PageRender.mk (Some (props 1%R)) None [] 1 0 []).
    rewrite (PageRenderFacts.rendered_changed (props 1%R) (props 1.1%R))
      by (try reflexivity; apply PageRenderFacts.same_deps_scale; simpl; lra).
    reflexivity. }
  split.
  - rewrite Hc. subst zoomed. cbv beta.
    rewrite (PageRenderFacts.rendered_changed (props 1.1%R) (props 1.2%R))
      by (try reflexivity; apply PageRenderFacts.same_deps_scale; simpl; lra).
    repeat split; reflexivity.
  - intros s s' shown turned c1.
    split; [reflexivity |]. split; [reflexivity |].
    split; [reflexivity |]. split; [reflexivity |].
    split; [reflexivity |]. split; [reflexivity |].
    split; [reflexivity |]. split; [reflexivity |].
    apply (PageRenderFacts.rendered_unchanged (props 1%R)). reflexivity.
Qed.

(** ** The export and freehand strokes *)

(** C1, where the code departs from it.  The state holds one element, a
    stroke of the Draw tool on the page of the document, which is not a
    redaction.  The export creates the document, copies the page and saves,
    and makes no drawing call at all: the loop over the elements has no case
    for the types [draw] and [highlight].  [flattenPDF] does the same,
    announces that all annotations are part of the document, and empties
    the list of elements. *)
Theorem freehand_stroke_not_exported :
  map EditorElement.type (elements stroke_state) = [draw] /\
  map EditorElement.pageId (elements stroke_state) = ["p0"] /\
  map is_redaction (elements stroke_state) = [false] /\
  map PageMetadata.id (pages stroke_state) = ["p0"] /\
  trace_of (handleDownload stroke_state) quiet_library stroke_state =
    [SetFlag isSaving true;
     Call PDFDocument_load; Call PDFDocument_create;
     Call (embedFont Helvetica); Call (embedFont HelveticaBold);
     Call (embedFont HelveticaOblique); Call (embedFont HelveticaBoldOblique);
     Call (copyPages [0]); Call addPage_copied;
     Call (on_page 0 (setRotation 0));
     Call save;
     Download "report.pdf" {| file_pages := [letter] |};
     SetFlag isSaving false] /\
  trace_of (flattenPDF stroke_state) quiet_library stroke_state =
    [SetFlag isSaving true;
     Call PDFDocument_load; Call PDFDocument_create;
     Call (embedFont Helvetica); Call (embedFont HelveticaBold);
     Call (embedFont HelveticaOblique); Call (embedFont HelveticaBoldOblique);
     Call (copyPages [0]); Call addPage_copied;
     Call (on_page 0 (setRotation 0));
     Call save;
     Call getDocument;
     Alert "PDF successfully flattened. All annotations and page numbers are now part of the base document.";
     SetFlag isSaving false] /\
  elements (res_state (flattenPDF stroke_state quiet_library [] stroke_state)) = [].
Proof.
  repeat split; reflexivity.
Qed.

(** ** The sequence of the export when no call throws *)

Section Yields.
Context {St : Type} (lib : Library) (Hlib : never_throws lib).

Lemma yields_ret {A} (a : A) : yields lib (mret a : M St A) [] a.
Proof. intros tr s. simpl. unfold mret, M_ret. by rewrite app_nil_r. Qed.

Lemma yields_emit e : yields lib (emit e : M St unit) [e] tt.
Proof. intros tr s. reflexivity. Qed.

Lemma yields_library : yields lib (library : M St Library) [] lib.
Proof. intros tr s. unfold library. by rewrite app_nil_r. Qed.

Lemma yields_call c : yields lib (call c : M St unit) [Call c] tt.
Proof. intros tr s. unfold call. by rewrite Hlib. Qed.

Lemma yields_bind {A B} (m : M St A) (k : A -> M St B) ev1 ev2 a b :
  yields lib m ev1 a -> yields lib (k a) ev2 b ->
  yields lib (m ≫= k) (ev1 ++ ev2) b.
Proof.
  intros Hm Hk tr s. unfold mbind, M_bind. rewrite Hm, Hk.
  by rewrite <- app_assoc.
Qed.

Lemma yields_try_catch {A} (m h : M St A) ev a :
  yields lib m ev a -> yields lib (try_catch m h) ev a.
Proof. intros Hm tr s. unfold try_catch. by rewrite Hm. Qed.

Lemma yields_try_finally {A} (m : M St A) (f : M St unit) ev1 ev2 a :
  yields lib m ev1 a -> yields lib f ev2 tt ->
  yields lib (try_finally m f) (ev1 ++ ev2) a.
Proof.
  intros Hm Hf tr s. unfold try_finally. rewrite Hm, Hf.
  by rewrite <- app_assoc.
Qed.

Lemma yields_events {A} (m : M St A) ev ev' a :
  yields lib m ev a -> ev = ev' -> yields lib m ev' a.
Proof. by intros H <-. Qed.

Lemma yields_recording {A} (m : M St A) ev a :
  yields lib m ev a -> yields lib (recording m) ev (a, ev).
Proof.
  intros Hm tr s. unfold recording. rewrite Hm.
  by rewrite drop_app_length.
Qed.

Lemma yields_for_each_from {A} (l : list A) (f : nat -> A -> M St unit)
    (steps : A -> list Event) i :
  (forall j a, yields lib (f j a) (steps a) tt) ->
  yields lib (for_each_from i l f) (concat (map steps l)) tt.
Proof.
  intros Hf. revert i. induction l as [| a l IH]; intros i; simpl.
  - apply yields_ret.
  - eapply yields_bind; [apply Hf | apply IH].
Qed.

Lemma yields_addOutputPage source i meta :
  yields lib (addOutputPage false source i meta : M St PageSize)
    (map Call (page_steps source i meta)) (output_size source meta).
Proof.
  unfold addOutputPage, page_steps, output_size, source_page, addBlankPage.
  destruct (PageMetadata.originalIndex meta =? -1) eqn:Hblank.
  - destruct source; simpl;
      (eapply yields_events;
       [eapply yields_bind; [apply yields_call | apply yields_ret] | done]).
  - apply yields_try_catch.
    destruct source as [f |]; simpl.
    + destruct (js_index (file_pages f) (PageMetadata.originalIndex meta - 1))
        as [size |] eqn:Hidx; simpl.
      * apply js_index_Some in Hidx as Hidx'. destruct Hidx' as [Hpos Hlook].
        apply lookup_lt_Some in Hlook.
        destruct (Z.leb_spec 0 (PageMetadata.originalIndex meta - 1)); [| lia].
        destruct (Z.ltb_spec (PageMetadata.originalIndex meta - 1)
                    (Z.of_nat (length (file_pages f)))); [| lia].
        simpl. unfold copyPage. rewrite Hidx.
        eapply yields_events;
          [ eapply yields_bind;
            [ eapply yields_bind; [apply yields_call | apply yields_ret]
            | eapply yields_bind;
              [ apply yields_call
              | eapply yields_bind; [apply yields_call | apply yields_ret] ] ]
          | done ].
      * assert (Hout : (0 <=? PageMetadata.originalIndex meta - 1)
                       && (PageMetadata.originalIndex meta - 1
                           <? Z.of_nat (length (file_pages f))) = false).
        { unfold js_index in Hidx.
          destruct (Z.ltb_spec (PageMetadata.originalIndex meta - 1) 0).
          - destruct (Z.leb_spec 0 (PageMetadata.originalIndex meta - 1));
              [lia | done].
          - apply lookup_ge_None in Hidx.
            destruct (Z.ltb_spec (PageMetadata.originalIndex meta - 1)
                        (Z.of_nat (length (file_pages f)))); [lia |].
            by rewrite andb_false_r. }
        rewrite Hout.
        eapply yields_events;
          [eapply yields_bind; [apply yields_call | apply yields_ret] | done].
    + eapply yields_events;
        [eapply yields_bind; [apply yields_call | apply yields_ret] | done].
Qed.

Lemma yields_drawPageNumber cfg i total size :
  yields lib (drawPageNumber cfg i total size : M St unit)
    (map Call (number_steps lib cfg i total size)) tt.
Proof.
  unfold drawPageNumber, number_steps.
  destruct (PageNumberConfig.enabled cfg); [| apply yields_ret].
  eapply yields_events;
    [eapply yields_bind; [apply yields_library | apply yields_call] |].
  by destruct (PageNumberConfig.position cfg).
Qed.

Lemma yields_drawWatermark watermark i size :
  yields lib (drawWatermark watermark i size : M St unit)
    (map Call (watermark_steps watermark i size)) tt.
Proof.
  unfold drawWatermark, watermark_steps.
  destruct (decide (watermark = "")) as [-> | Hne]; simpl.
  - apply yields_ret.
  - destruct (String.eqb watermark "") eqn:Heq.
    + by apply String.eqb_eq in Heq.
    + apply yields_call.
Qed.

Lemma getRotatedXY_anchored scale h el ox oy :
  getRotatedXY
    (EditorElement.x el / scale + EditorElement.width el / scale / 2)
    (h - EditorElement.y el / scale - EditorElement.height el / scale / 2)
    (- rotation_or_0 el) ox oy =
  anchored (pdf_geometry scale h el) ox oy.
Proof. apply getRotatedXY_rotate_about. Qed.

Lemma yields_replayElement scale h i el :
  yields lib (replayElement scale h i el : M St unit)
    (if is_redaction el then [] else map Call (element_steps scale h i el)) tt.
Proof.
  unfold replayElement, is_redaction, element_steps.
  destruct (ToolMode_eqb (EditorElement.type el) redact) eqn:Hred;
    [apply yields_ret |].
  rewrite !getRotatedXY_anchored.
  destruct (EditorElement.type el) eqn:Hty; try discriminate Hred;
    try apply yields_ret;
    try (eapply yields_events; [apply yields_call |]; simpl; done).
  - (* text *)
    eapply yields_events; [apply yields_call |]. simpl.
    unfold text_font, is_true.
    by destruct (default false (EditorElement.isBold el)),
               (default false (EditorElement.isItalic el)).
  - (* image *)
    unfold truthy. destruct (EditorElement.src el) as [src |]; simpl;
      [| apply yields_ret].
    destruct (decide (src = "")) as [-> | Hne]; simpl; [apply yields_ret |].
    destruct (String.eqb src "") eqn:Heq; [by apply String.eqb_eq in Heq |].
    simpl. apply yields_try_catch.
    eapply yields_events;
      [eapply yields_bind; [apply yields_call | apply yields_call] | done].
Qed.

Lemma yields_replayRedaction scale h i el :
  yields lib (replayRedaction scale h i el : M St unit)
    [Call (redaction_step scale h i el)] tt.
Proof.
  unfold replayRedaction, redaction_step.
  eapply yields_events; [apply yields_call |].
  unfold anchored, rotate_about, box_center, pdf_geometry, rotation_or_0. simpl.
  do 4 f_equal; lra.
Qed.

Lemma concat_map_skip_redactions (steps : EditorElement.t -> list Event) els :
  concat (map (fun el => if is_redaction el then [] else steps el) els) =
  concat (map steps (List.filter (fun el => negb (is_redaction el)) els)).
Proof.
  induction els as [| el els IH]; simpl; [done |].
  destruct (is_redaction el); simpl; by rewrite IH.
Qed.

Lemma concat_map_calls {A} (f : A -> list LibCall) (l : list A) :
  concat (map (fun a => map Call (f a)) l) = map Call (concat (map f l)).
Proof.
  induction l as [| a l IH]; simpl; [done |]. by rewrite IH, map_app.
Qed.

Lemma concat_map_call {A} (f : A -> LibCall) (l : list A) :
  concat (map (fun a => [Call (f a)]) l) = map Call (map f l).
Proof. induction l as [| a l IH]; simpl; [done |]. by rewrite IH. Qed.

Lemma yields_exportPage cl source i meta :
  yields lib (exportPage false cl source i meta : M St PageSize)
    (map Call (page_steps source i meta
                 ++ overlay_steps lib cl i meta (output_size source meta)))
    (output_size source meta).
Proof.
  unfold exportPage, overlay_steps.
  eapply yields_events.
  - eapply yields_bind; [apply yields_addOutputPage |].
    eapply yields_bind; [apply yields_drawPageNumber |].
    eapply yields_bind; [apply yields_drawWatermark |].
    eapply yields_bind.
    { apply (yields_for_each_from _ _
               (fun el => if is_redaction el then []
                          else map Call (element_steps (scale cl)
                                           (page_height (output_size source meta)) i el))).
      intros j el. apply yields_replayElement. }
    eapply yields_bind.
    { apply (yields_for_each_from _ _
               (fun el => [Call (redaction_step (scale cl)
                                   (page_height (output_size source meta)) i el)])).
      intros j el. apply yields_replayRedaction. }
    apply yields_ret.
  - rewrite concat_map_skip_redactions. rewrite app_nil_r.
    rewrite !map_app. do 3 f_equal.
    by rewrite concat_map_calls, concat_map_call.
Qed.

Lemma yields_exportPages cl source i metas :
  yields lib (exportPages false cl source i metas : M St (list PageSize))
    (map Call (pages_steps lib cl source i metas))
    (map (output_size source) metas).
Proof.
  revert i. induction metas as [| meta metas IH]; intros i; simpl.
  - apply yields_ret.
  - eapply yields_events.
    + eapply yields_bind; [apply yields_exportPage |].
      eapply yields_bind; [apply IH | apply yields_ret].
    + rewrite app_nil_r, !map_app. by rewrite <- app_assoc.
Qed.

Lemma added_pages_no_page source copied calls rest :
  Forall (fun c => in_page_block c = false) calls ->
  added_pages source copied (map Call calls ++ rest) =
    added_pages source copied rest.
Proof.
  induction calls as [| c calls IH]; intros H; [done |].
  apply Forall_cons in H as [Hc H]. simpl.
  destruct c; try discriminate Hc; by apply IH.
Qed.

Lemma overlay_steps_no_page cl i meta size :
  Forall (fun c => in_page_block c = false) (overlay_steps lib cl i meta size).
Proof.
  unfold overlay_steps. repeat apply Forall_app_2.
  - unfold number_steps. case_match; by repeat constructor.
  - unfold watermark_steps. case_match; by repeat constructor.
  - apply Forall_concat, Forall_forall. intros l Hl.
    apply list_elem_of_In, in_map_iff in Hl as (el & <- & _).
    unfold element_steps. repeat case_match; by repeat constructor.
  - apply Forall_forall. intros c Hc.
    by apply list_elem_of_In, in_map_iff in Hc as (el & <- & _).
Qed.

Lemma added_pages_page_steps source copied i meta rest :
  exists copied',
    added_pages source copied (map Call (page_steps source i meta) ++ rest) =
      output_size source meta :: added_pages source copied' rest.
Proof.
  unfold page_steps, output_size.
  destruct (source_page source meta) as [size |] eqn:Hp; simpl.
  - exists size. unfold source_page in Hp.
    destruct source as [f |]; [| done].
    destruct (PageMetadata.originalIndex meta =? -1); [done |].
    simpl. by rewrite Hp.
  - by exists copied.
Qed.

Lemma added_pages_pages_steps cl source copied i metas :
  added_pages source copied (map Call (pages_steps lib cl source i metas)) =
    map (output_size source) metas.
Proof.
  revert i copied. induction metas as [| meta metas IH]; intros i copied; [done |].
  simpl. rewrite map_app.
  destruct (added_pages_page_steps source copied i meta
              (map Call (overlay_steps lib cl i meta (output_size source meta)
                           ++ pages_steps lib cl source (S i) metas)))
    as [copied' ->].
  rewrite map_app, added_pages_no_page by apply overlay_steps_no_page.
  by rewrite IH.
Qed.

Lemma yields_buildOutput cl :
  yields lib (buildOutput false cl : M St PdfFile)
    (map Call (export_steps lib cl))
    {| file_pages := map (output_size (fileBytes cl)) (pages cl) |}.
Proof.
  unfold buildOutput, export_steps.
  rewrite <- (added_pages_pages_steps cl (fileBytes cl) blank_page 0 (pages cl)).
  eapply yields_events.
  - eapply yields_bind.
    { instantiate (2 := map Call match fileBytes cl with
                                 | Some _ => [PDFDocument_load]
                                 | None => []
                                 end).
      instantiate (1 := fileBytes cl).
      destruct (fileBytes cl); simpl;
        [ eapply yields_events;
          [eapply yields_bind; [apply yields_call | apply yields_ret] | done]
        | apply yields_ret ]. }
    do 5 (eapply yields_bind; [apply yields_call |]).
    eapply yields_bind; [apply yields_recording, yields_exportPages |].
    eapply yields_bind; [apply yields_call | apply yields_ret].
  - rewrite !map_app. reflexivity.
Qed.

End Yields.

(** The export of a state that has pages, with a library of which no call
    throws: the calls are those of the description, in that order, and the
    document is handed to the browser under the title of the document. *)
Lemma export_sequence lib cl s :
  never_throws lib ->
  pageSequence cl ≠ [] ->
  trace_of (handleDownload cl) lib s =
    [SetFlag isSaving true]
      ++ map Call (export_steps lib cl)
      ++ [Download
            ((if String.eqb (docTitle cl) "" then "document" else docTitle cl)
               +:+ ".pdf")
            {| file_pages := map (output_size (fileBytes cl)) (pages cl) |};
          SetFlag isSaving false].
Proof.
  intros Hlib Hpages. unfold trace_of, handleDownload.
  destruct (pageSequence cl) as [| r rs] eqn:Hseq; [done |]. simpl.
  assert (H : yields lib
                (emit (SetFlag isSaving true) ;;
                 try_finally (try_catch (download_try cl) download_catch)
                   download_finally : M State unit)
                ([SetFlag isSaving true]
                   ++ (map Call (export_steps lib cl)
                         ++ [Download
                               ((if String.eqb (docTitle cl) "" then "document"
                                 else docTitle cl) +:+ ".pdf")
                               {| file_pages :=
                                    map (output_size (fileBytes cl)) (pages cl) |}])
                   ++ [SetFlag isSaving false]) tt).
  { eapply yields_bind; [apply yields_emit |].
    eapply yields_try_finally; [| apply yields_emit].
    apply yields_try_catch. unfold download_try.
    eapply yields_bind; [by apply yields_buildOutput | apply yields_emit]. }
  rewrite H. simpl. by rewrite <- !app_assoc.
Qed.

(** ** Undo, redo and a new edit *)

(** Two states with the same fields are the same state. *)
Lemma State_ext (s s' : State) :
  heap s = heap s' ->
  pdfDoc s = pdfDoc s' ->
  fileBytes s = fileBytes s' ->
  pageSequence s = pageSequence s' ->
  currentPageIndex s = currentPageIndex s' ->
  scale s = scale s' ->
  docTitle s = docTitle s' ->
  toolMode s = toolMode s' ->
  elements s = elements s' ->
  selectedId s = selectedId s' ->
  history s = history s' ->
  historyIndex s = historyIndex s' ->
  watermarkText s = watermarkText s' ->
  pageNumbering s = pageNumbering s' ->
  currentColor s = currentColor s' ->
  currentFontSize s = currentFontSize s' ->
  currentStrokeWidth s = currentStrokeWidth s' ->
  currentOpacity s = currentOpacity s' ->
  isDragging s = isDragging s' ->
  dragStart s = dragStart s' ->
  action s = action s' ->
  resizeDir s = resizeDir s' ->
  newElStart s = newElStart s' ->
  activePageId s = activePageId s' ->
  currentPoints s = currentPoints s' ->
  s = s'.
Proof. destruct s, s'. simpl. intros. by subst. Qed.

Lemma undo_enabled_pos s : undo_enabled s = true <-> 0 < historyIndex s.
Proof.
  unfold undo_enabled. destruct (Z.leb_spec (historyIndex s) 0); simpl;
    split; intros; try lia; done.
Qed.

Lemma redo_enabled_lt s :
  redo_enabled s = true <-> historyIndex s < Z.of_nat (length (history s)) - 1.
Proof.
  unfold redo_enabled.
  destruct (historyIndex s >=? Z.of_nat (length (history s)) - 1) eqn:H;
    simpl; split; intros; try lia; done.
Qed.

Lemma undo_eq s prev :
  0 < historyIndex s ->
  js_index (history s) (historyIndex s - 1) = Some prev ->
  undo s =
    setSelectedId None
      (setHistoryIndex (historyIndex s - 1)
         (setPageSequence (snap_sequence prev)
            (setElements (snap_elements prev) s))).
Proof.
  intros Hpos Hp. unfold undo.
  rewrite (proj2 (Z.ltb_lt _ _) Hpos), Hp. reflexivity.
Qed.

Lemma redo_eq s next :
  historyIndex s < Z.of_nat (length (history s)) - 1 ->
  js_index (history s) (historyIndex s + 1) = Some next ->
  redo s =
    setSelectedId None
      (setHistoryIndex (historyIndex s + 1)
         (setPageSequence (snap_sequence next)
            (setElements (snap_elements next) s))).
Proof.
  intros Hlt Hn. unfold redo.
  rewrite (proj2 (Z.ltb_lt _ _) Hlt), Hn. reflexivity.
Qed.

Lemma undo_redo_undo (s : State) :
  history_ok s -> undo_enabled s = true ->
  undo (redo (undo s)) = undo s /\
  historyIndex (redo (undo s)) = historyIndex s /\
  forall cur,
    js_index (history s) (historyIndex s) = Some cur ->
    elements (redo (undo s)) = snap_elements cur /\
    pageSequence (redo (undo s)) = snap_sequence cur.
Proof.
  intros [Hlen Hidx] He. apply undo_enabled_pos in He.
  destruct (js_index_is_Some (history s) (historyIndex s - 1)) as [prev Hp];
    [lia |].
  destruct (js_index_is_Some (history s) (historyIndex s)) as [cur Hc];
    [lia |].
  rewrite (undo_eq s prev He Hp).
  set (s1 := setSelectedId None _).
  assert (Hr : redo s1 =
               setSelectedId None
                 (setHistoryIndex (historyIndex s1 + 1)
                    (setPageSequence (snap_sequence cur)
                       (setElements (snap_elements cur) s1)))).
  { apply redo_eq; subst s1; simpl; [lia |].
    by replace (historyIndex s - 1 + 1) with (historyIndex s) by lia. }
  rewrite Hr.
  split; [| split].
  - rewrite (undo_eq _ prev).
    + subst s1. apply State_ext; simpl; try reflexivity. lia.
    + subst s1. simpl. lia.
    + subst s1. simpl.
      by replace (historyIndex s - 1 + 1 - 1) with (historyIndex s - 1) by lia.
  - subst s1. simpl. lia.
  - intros cur' Hc'. rewrite Hc in Hc'. injection Hc' as <-. by split.
Qed.

Lemma redo_undo_redo (s : State) :
  history_ok s -> redo_enabled s = true -> 0 <= historyIndex s ->
  redo (undo (redo s)) = redo s /\
  historyIndex (undo (redo s)) = historyIndex s /\
  forall cur,
    js_index (history s) (historyIndex s) = Some cur ->
    elements (undo (redo s)) = snap_elements cur /\
    pageSequence (undo (redo s)) = snap_sequence cur.
Proof.
  intros [Hlen Hidx] He Hnn. apply redo_enabled_lt in He.
  destruct (js_index_is_Some (history s) (historyIndex s + 1)) as [next Hn];
    [lia |].
  destruct (js_index_is_Some (history s) (historyIndex s)) as [cur Hc];
    [lia |].
  rewrite (redo_eq s next He Hn).
  set (s1 := setSelectedId None _).
  assert (Hu : undo s1 =
               setSelectedId None
                 (setHistoryIndex (historyIndex s1 - 1)
                    (setPageSequence (snap_sequence cur)
                       (setElements (snap_elements cur) s1)))).
  { apply undo_eq; subst s1; simpl; [lia |].
    by replace (historyIndex s + 1 - 1) with (historyIndex s) by lia. }
  rewrite Hu.
  split; [| split].
  - rewrite (redo_eq _ next).
    + subst s1. apply State_ext; simpl; try reflexivity. lia.
    + subst s1. simpl. lia.
    + subst s1. simpl.
      by replace (historyIndex s + 1 - 1 + 1) with (historyIndex s + 1) by lia.
  - subst s1. simpl. lia.
  - intros cur' Hc'. rewrite Hc in Hc'. injection Hc' as <-. by split.
Qed.

(** X1.  In a state whose history has at most 30 entries and whose index
    is below its length: when undo is enabled, undo followed by redo
    restores the history index and shows the elements and the page
    sequence of the current history entry, and a further undo gives the
    state of the first undo. The same holds for redo followed by undo when
    redo is enabled and the index is not negative. *)
Theorem undo_redo_round_trip (s : State) :
  history_ok s ->
  (undo_enabled s = true ->
     undo (redo (undo s)) = undo s /\
     historyIndex (redo (undo s)) = historyIndex s /\
     forall cur,
       js_index (history s) (historyIndex s) = Some cur ->
       elements (redo (undo s)) = snap_elements cur /\
       pageSequence (redo (undo s)) = snap_sequence cur) /\
  (redo_enabled s = true -> 0 <= historyIndex s ->
     redo (undo (redo s)) = redo s /\
     historyIndex (undo (redo s)) = historyIndex s /\
     forall cur,
       js_index (history s) (historyIndex s) = Some cur ->
       elements (undo (redo s)) = snap_elements cur /\
       pageSequence (undo (redo s)) = snap_sequence cur).
Proof.
  intros Hok. split.
  - by apply undo_redo_undo.
  - by apply redo_undo_redo.
Qed.

Lemma undo_redo_round_trip_witness :
  history_ok two_page_state /\
  undo (redo (undo two_page_state)) = undo two_page_state.
Proof.
  assert (H : history_ok two_page_state).
  { rewrite two_page_state_eq. unfold history_ok. simpl. lia. }
  split; [exact H |].
  apply (proj1 (undo_redo_round_trip two_page_state H)).
  rewrite two_page_state_eq. reflexivity.
Defined.

Lemma pushed_history_eq cl e :
  history_ok cl ->
  pushed_history cl e =
    if decide (historyIndex cl < 29)
    then take (Z.to_nat (historyIndex cl + 1)) (history cl) ++ [e]
    else drop 1 (take (Z.to_nat (historyIndex cl + 1)) (history cl) ++ [e]).
Proof.
  intros [Hlen Hidx]. unfold pushed_history, js_shift.
  rewrite js_slice0_prefix by lia.
  rewrite length_app, length_take. simpl.
  destruct (decide (historyIndex cl < 29)).
  - destruct (Z.ltb_spec 30 (Z.of_nat
      (Z.to_nat (historyIndex cl + 1) `min` length (history cl) + 1)));
      [lia | done].
  - destruct (Z.ltb_spec 30 (Z.of_nat
      (Z.to_nat (historyIndex cl + 1) `min` length (history cl) + 1)));
      [done | lia].
Qed.

Lemma saveToHistory_length cl els rs s :
  history_ok cl ->
  Z.of_nat (length (history (saveToHistory cl els rs s))) =
    if decide (historyIndex cl < 29) then historyIndex cl + 2 else 30.
Proof.
  intros Hok. pose proof Hok as [Hlen Hidx].
  rewrite saveToHistory_history, (pushed_history_eq _ _ Hok).
  destruct (decide (historyIndex cl < 29)).
  - rewrite length_app, length_take. simpl. lia.
  - rewrite length_drop, length_app, length_take. simpl. lia.
Qed.

Lemma saveToHistory_undo_enabled cl els rs s :
  history_ok cl ->
  undo_enabled (saveToHistory cl els rs s) = true <-> 0 <= historyIndex cl.
Proof.
  intros Hok. pose proof Hok as [Hlen Hidx].
  rewrite undo_enabled_pos, saveToHistory_historyIndex,
    (saveToHistory_length _ _ _ _ Hok).
  destruct (decide (historyIndex cl < 29)); lia.
Qed.

Lemma saveToHistory_current cl els rs s :
  history_ok cl ->
  js_index (history (saveToHistory cl els rs s))
    (historyIndex (saveToHistory cl els rs s)) = Some (new_snapshot els rs s).
Proof.
  intros Hok. pose proof Hok as [Hlen Hidx].
  pose proof (saveToHistory_length cl els rs s Hok) as Hl.
  pose proof (pushed_history_last cl (new_snapshot els rs s)) as Hlast.
  rewrite <- (saveToHistory_history cl els rs s), last_lookup in Hlast.
  rewrite saveToHistory_historyIndex.
  apply js_index_Some.
  split; [destruct (decide (historyIndex cl < 29)); lia |].
  rewrite <- Hlast. f_equal. lia.
Qed.

Lemma saveToHistory_undo cl els rs s cur :
  history_ok cl ->
  js_index (history cl) (historyIndex cl) = Some cur ->
  let s' := saveToHistory cl els rs s in
  elements (undo s') = snap_elements cur /\
  pageSequence (undo s') = snap_sequence cur /\
  historyIndex (undo s') = historyIndex s' - 1 /\
  heap (undo s') = heap s' /\ pdfDoc (undo s') = pdfDoc s' /\
  fileBytes (undo s') = fileBytes s'.
Proof.
  intros Hok Hcur s'. pose proof Hok as [Hlen Hidx].
  assert (Hi : historyIndex s' = Z.of_nat (length (history s')) - 1)
    by apply saveToHistory_historyIndex.
  assert (Hh : history s' = pushed_history cl (new_snapshot els rs s))
    by apply saveToHistory_history.
  pose proof (saveToHistory_length cl els rs s Hok) as Hl. fold s' in Hl.
  apply js_index_Some in Hcur as [Hpos Hcur].
  assert (Hprev : js_index (history s') (historyIndex s' - 1) = Some cur).
  { apply js_index_Some. rewrite Hi, Hl.
    split; [destruct (decide (historyIndex cl < 29)); lia |].
    rewrite Hh, (pushed_history_eq _ _ Hok).
    destruct (decide (historyIndex cl < 29)).
    - rewrite lookup_app_l by (rewrite length_take; lia).
      rewrite lookup_take_lt by lia.
      rewrite <- Hcur. f_equal. lia.
    - rewrite lookup_drop.
      rewrite lookup_app_l by (rewrite length_take; lia).
      rewrite lookup_take_lt by lia.
      rewrite <- Hcur. f_equal. lia. }
  rewrite (undo_eq s' cur); [by repeat split | | exact Hprev].
  rewrite Hi, Hl. destruct (decide (historyIndex cl < 29)); lia.
Qed.

(** X2.  After saveToHistory nothing can be redone (redo is disabled and
    the redo handler changes nothing) and the current history entry is the
    new snapshot. Undo is then enabled exactly when the render the handler
    came from had a history index of at least 0, and it shows the elements
    and the page sequence of the entry that was current in that render. *)
Theorem edit_discards_redo (cl : State) (els : list EditorElement.t)
    (rs : list ref) (s : State) :
  history_ok cl ->
  let s' := saveToHistory cl els rs s in
  redo_enabled s' = false /\
  redo s' = s' /\
  (undo_enabled s' = true <-> 0 <= historyIndex cl) /\
  js_index (history s') (historyIndex s') = Some (new_snapshot els rs s) /\
  (forall cur,
     js_index (history cl) (historyIndex cl) = Some cur ->
     elements (undo s') = snap_elements cur /\
     pageSequence (undo s') = snap_sequence cur /\
     historyIndex (undo s') = historyIndex s' - 1).
Proof.
  intros Hok s'.
  pose proof Hok as [Hlen Hidx].
  assert (Hi : historyIndex s' = Z.of_nat (length (history s')) - 1)
    by apply saveToHistory_historyIndex.
  assert (Hh : history s' = pushed_history cl (new_snapshot els rs s))
    by apply saveToHistory_history.
  pose proof (saveToHistory_length cl els rs s Hok) as Hl. fold s' in Hl.
  assert (Hr : redo_enabled s' = false).
  { unfold redo_enabled. rewrite Hi.
    by destruct (Z.geb_spec (Z.of_nat (length (history s')) - 1)
                            (Z.of_nat (length (history s')) - 1)); [| lia]. }
  split; [exact Hr |]. split; [| split; [| split]].
  - unfold redo.
    destruct (Z.ltb_spec (historyIndex s') (Z.of_nat (length (history s')) - 1));
      [lia | done].
  - by apply saveToHistory_undo_enabled.
  - by apply saveToHistory_current.
  - intros cur Hcur.
    destruct (saveToHistory_undo cl els rs s cur Hok Hcur) as (H1 & H2 & H3 & _).
    by repeat split.
Qed.

Lemma edit_discards_redo_witness :
  history_ok two_page_state /\
  redo_enabled (saveToHistory two_page_state [] [0%nat] two_page_state) = false.
Proof.
  assert (H : history_ok two_page_state).
  { rewrite two_page_state_eq. unfold history_ok. simpl. lia. }
  split; [exact H |].
  apply (edit_discards_redo two_page_state [] [0%nat] two_page_state H).
Defined.

(** ** References denote objects *)

Lemma seq_ok_mono n m rs : (n <= m)%nat -> seq_ok n rs -> seq_ok m rs.
Proof.
  unfold seq_ok. intros Hnm H. eapply Forall_impl; [exact H |].
  intros r Hr. simpl in Hr. lia.
Qed.

Lemma hist_ok_mono n m h : (n <= m)%nat -> hist_ok n h -> hist_ok m h.
Proof.
  unfold hist_ok. intros Hnm H. eapply Forall_impl; [exact H |].
  intros e. by apply seq_ok_mono.
Qed.

Lemma seq_ok_seq n k : seq_ok (n + k) (seq n k).
Proof.
  unfold seq_ok. apply Forall_forall. intros r Hr.
  apply list_elem_of_In, in_seq in Hr. lia.
Qed.

Lemma seq_ok_splice_remove n i rs : seq_ok n rs -> seq_ok n (splice_remove i rs).
Proof.
  unfold seq_ok, splice_remove. intros H. apply Forall_app.
  split; [by apply Forall_take | by apply Forall_drop].
Qed.

Lemma seq_ok_splice_insert n i r rs :
  (r < n)%nat -> seq_ok n rs -> seq_ok n (splice_insert i r rs).
Proof.
  unfold seq_ok, splice_insert. intros Hr H. apply Forall_app.
  split; [by apply Forall_take |]. apply Forall_cons.
  split; [done | by apply Forall_drop].
Qed.

Lemma seq_ok_lookup n rs i r : seq_ok n rs -> rs !! i = Some r -> (r < n)%nat.
Proof. unfold seq_ok. intros H Hi. by eapply (Forall_lookup_1 _ _ _ _ H). Qed.

Lemma hist_ok_pushed n cl e :
  hist_ok n (history cl) -> seq_ok n (snap_sequence e) ->
  hist_ok n (pushed_history cl e).
Proof.
  intros Hh He. unfold pushed_history, js_shift, js_slice0, hist_ok.
  set (k := Z.to_nat _).
  assert (H : Forall (fun e0 => seq_ok n (snap_sequence e0))
                (take k (history cl) ++ [e])).
  { apply Forall_app. split; [by apply Forall_take | by apply Forall_singleton]. }
  destruct (30 <? _); [by apply Forall_drop | done].
Qed.

Lemma saveToHistory_refs_ok cl els rs s :
  hist_ok (length (heap s)) (history cl) ->
  seq_ok (length (heap s)) (pageSequence s) ->
  refs_ok (saveToHistory cl els rs s).
Proof.
  intros Hh Hs. rewrite saveToHistory_unfold. unfold refs_ok. simpl.
  rewrite length_app. split.
  - eapply seq_ok_mono; [| exact Hs]. lia.
  - apply hist_ok_pushed.
    + eapply hist_ok_mono; [| exact Hh]. lia.
    + simpl. apply seq_ok_seq.
Qed.

Lemma refs_ok_same s s' :
  heap s' = heap s -> pageSequence s' = pageSequence s ->
  history s' = history s -> refs_ok s -> refs_ok s'.
Proof. unfold refs_ok. by intros -> -> ->. Qed.

Lemma refs_ok_lookup s i r :
  refs_ok s -> pageSequence s !! i = Some r -> is_Some (heap s !! r).
Proof.
  intros [Hs _] Hi. apply lookup_lt_is_Some_2. by eapply seq_ok_lookup.
Qed.

Lemma deref_all_cons h r rs :
  deref_all h (r :: rs) =
    match h !! r with
    | Some p => p :: deref_all h rs
    | None => deref_all h rs
    end.
Proof. reflexivity. Qed.

Lemma length_deref_all h rs :
  seq_ok (length h) rs -> length (deref_all h rs) = length rs.
Proof.
  induction rs as [| r rs IH]; intros Hs; [done |].
  apply Forall_cons in Hs as [Hr Hs].
  rewrite deref_all_cons.
  destruct (h !! r) as [p |] eqn:Hp; simpl.
  - by rewrite IH.
  - apply lookup_ge_None in Hp. lia.
Qed.

Lemma length_pages s : refs_ok s -> length (pages s) = length (pageSequence s).
Proof. intros [Hs _]. by apply length_deref_all. Qed.

(** Close a goal [refs_ok s'] for a state [s'] a handler has built from a
    state [s] with [H : refs_ok s]. *)
Ltac refs_ok_leaf H :=
  let Hs := fresh "Hs" in
  let Hh := fresh "Hh" in
  pose proof H as [Hs Hh];
  first
    [ exact H
    | apply (refs_ok_same _ _ eq_refl eq_refl eq_refl H)
    | match goal with
      | |- refs_ok ?s' =>
          match s' with
          | context [saveToHistory ?cl ?els ?rs ?s0] =>
              apply (refs_ok_same (saveToHistory cl els rs s0) s'
                       eq_refl eq_refl eq_refl);
              apply saveToHistory_refs_ok;
              simpl; rewrite ?length_insert, ?length_app; simpl;
              first
                [ eapply hist_ok_mono; [| exact Hh]; lia
                | exact Hs
                | idtac ]
          end
      end ].

Lemma organizeAction_refs_ok type param idx newId cloneId s o :
  refs_ok s ->
  organizeAction type param idx newId cloneId s = Some o ->
  refs_ok (out_state o).
Proof.
  intros H. unfold organizeAction.
  destruct (js_index (pageSequence s) _) as [target |] eqn:Ht; [| done].
  apply js_index_Some in Ht as [_ Ht].
  destruct (heap s !! target) as [targetPage |]; [| done].
  pose proof H as [Hs Hh].
  destruct type; simpl; repeat case_match;
    intros [= <-]; simpl; refs_ok_leaf H.
  all: first
    [ by apply seq_ok_splice_remove
    | apply seq_ok_splice_insert;
      [lia | eapply seq_ok_mono; [| eassumption]; lia]
    | apply Forall_insert; [apply Forall_insert; [eassumption |] |];
      eapply seq_ok_lookup; eassumption ].
Qed.

Lemma handlePageDrop_refs_ok src tgt s s' :
  refs_ok s -> handlePageDrop src tgt s = Some s' -> refs_ok s'.
Proof.
  intros H. unfold handlePageDrop.
  repeat case_match; intros [= <-]; refs_ok_leaf H.
  apply seq_ok_splice_insert; [by eapply seq_ok_lookup |].
  by apply seq_ok_splice_remove.
Qed.

Lemma undo_refs_ok s : refs_ok s -> refs_ok (undo s).
Proof.
  intros H. unfold undo. repeat case_match; try exact H.
  destruct H as [Hs Hh]. split; simpl; [| exact Hh].
  match goal with
  | Hp : js_index _ _ = Some _ |- _ => apply js_index_Some in Hp as [_ Hp]
  end.
  unfold hist_ok in Hh. by eapply (Forall_lookup_1 _ _ _ _ Hh).
Qed.

Lemma redo_refs_ok s : refs_ok s -> refs_ok (redo s).
Proof.
  intros H. unfold redo. repeat case_match; try exact H.
  destruct H as [Hs Hh]. split; simpl; [| exact Hh].
  match goal with
  | Hp : js_index _ _ = Some _ |- _ => apply js_index_Some in Hp as [_ Hp]
  end.
  unfold hist_ok in Hh. by eapply (Forall_lookup_1 _ _ _ _ Hh).
Qed.

Lemma install_loaded_refs_ok cl f ids s :
  hist_ok (length (heap s)) (history cl) -> refs_ok (install_loaded cl f ids s).
Proof.
  intros Hh. unfold install_loaded. rewrite alloc_all_spec.
  apply saveToHistory_refs_ok; simpl; rewrite length_app.
  - eapply hist_ok_mono; [| exact Hh]. lia.
  - apply seq_ok_seq.
Qed.

Lemma install_normalized_refs_ok cl s :
  hist_ok (length (heap s)) (history cl) -> refs_ok (install_normalized cl s).
Proof.
  intros Hh. unfold install_normalized. rewrite alloc_all_spec.
  apply saveToHistory_refs_ok; simpl; rewrite length_app.
  - eapply hist_ok_mono; [| exact Hh]. lia.
  - apply seq_ok_seq.
Qed.

Lemma install_loaded_heap cl f ids s :
  (length (heap s) <= length (heap (install_loaded cl f ids s)))%nat.
Proof.
  unfold install_loaded. rewrite alloc_all_spec, saveToHistory_heap. simpl.
  rewrite !length_app. lia.
Qed.

Lemma install_normalized_heap cl s :
  (length (heap s) <= length (heap (install_normalized cl s)))%nat.
Proof.
  unfold install_normalized. rewrite alloc_all_spec, saveToHistory_heap. simpl.
  rewrite !length_app. lia.
Qed.

Lemma step_refs_ok op s : refs_ok s -> refs_ok (step op s).
Proof.
  intros H. destruct op; simpl.
  - apply (preserves_handleFileUpload
             (fun s' => refs_ok s' /\ hist_ok (length (heap s')) (history s)));
      [| | | by destruct H].
    + intros s' t [Hs' Hh']. split; [refs_ok_leaf Hs' | exact Hh'].
    + intros s' f [Hs' Hh']. split; [refs_ok_leaf Hs' | exact Hh'].
    + intros s' f [Hs' Hh']. split; [by apply install_loaded_refs_ok |].
      eapply hist_ok_mono; [apply install_loaded_heap | exact Hh'].
  - unfold newDocument. simpl. destruct H as [Hs Hh].
    split; simpl; rewrite length_app; simpl.
    + apply Forall_singleton. lia.
    + eapply hist_ok_mono; [| exact Hh]. lia.
  - destruct (organizeAction _ _ _ _ _ s) as [o |] eqn:Ho; [| exact H].
    by eapply organizeAction_refs_ok.
  - destruct (handlePageDrop _ _ s) as [s' |] eqn:Hd; [| exact H].
    by eapply handlePageDrop_refs_ok.
  - by apply undo_refs_ok.
  - by apply redo_refs_ok.
  - unfold onActionStart. case_match; refs_ok_leaf H.
  - unfold handleMouseMove. repeat case_match; refs_ok_leaf H.
  - unfold handleMouseUp. repeat case_match; refs_ok_leaf H.
  - destruct saved; refs_ok_leaf H.
  - refs_ok_leaf H.
  - refs_ok_leaf H.
  - apply (preserves_flattenPDF
             (fun s' => refs_ok s' /\ hist_ok (length (heap s')) (history s)));
      [| | | by destruct H].
    + intros s' f [Hs' Hh']. split; [refs_ok_leaf Hs' | exact Hh'].
    + intros s' f [Hs' Hh']. split; [refs_ok_leaf Hs' | exact Hh'].
    + intros s' [Hs' Hh']. split; [by apply install_normalized_refs_ok |].
      eapply hist_ok_mono; [apply install_normalized_heap | exact Hh'].
  - by rewrite handleDownload_state.
Qed.

Lemma run_refs_ok ops s : refs_ok s -> refs_ok (run ops s).
Proof.
  unfold run. revert s. induction ops as [| op ops IH]; intros s H; simpl.
  - exact H.
  - apply IH. by apply step_refs_ok.
Qed.

Lemma refs_ok_initial : refs_ok initial_state.
Proof. split; simpl; constructor. Qed.

(** X3.  In every state the editor reaches from its initial state,
    organizeAction throws exactly when the page sequence has no entry at
    the target index (specificIndex, or currentPageIndex without one). In
    particular every page action throws while the page sequence is empty. *)
Theorem organizeAction_throws_iff (ops : list Op) (type : OrganizeType.t)
    (param : Param.t) (idx : option Z) (newId : string) (cloneId : nat -> string) :
  let s := run ops initial_state in
  (organizeAction type param idx newId cloneId s = None <->
   js_index (pageSequence s) (default (currentPageIndex s) idx) = None) /\
  (pageSequence s = [] -> organizeAction type param idx newId cloneId s = None) /\
  length (pages s) = length (pageSequence s).
Proof.
  intros s.
  assert (H : refs_ok s) by apply run_refs_ok, refs_ok_initial.
  assert (Hiff : organizeAction type param idx newId cloneId s = None <->
                 js_index (pageSequence s) (default (currentPageIndex s) idx) = None).
  { unfold organizeAction.
    replace (match idx with Some i => i | None => currentPageIndex s end)
      with (default (currentPageIndex s) idx) by (by destruct idx).
    destruct (js_index (pageSequence s) _) as [target |] eqn:Ht; [| done].
    apply js_index_Some in Ht as [_ Ht].
    destruct (refs_ok_lookup s _ _ H Ht) as [page Hp].
    replace (heap s !! target) with (Some page).
    split; [| done].
    destruct type; simpl; repeat case_match; done. }
  split; [exact Hiff |]. split; [| by apply length_pages].
  intros Hnil. apply Hiff. rewrite Hnil. unfold js_index.
  by case_match.
Qed.

Lemma organizeAction_throws_iff_witness :
  organizeAction OrganizeType.rotate Param.cw None "blank-1"
    (fun _ => "copy-1") (run [] initial_state) = None.
Proof.
  apply (organizeAction_throws_iff [] OrganizeType.rotate Param.cw None
           "blank-1" (fun _ => "copy-1")).
  reflexivity.
Defined.

(** ** Page objects *)

Lemma keeps_objects_refl s : keeps_objects s s.
Proof. by intros r p Hr. Qed.

Lemma keeps_objects_trans s1 s2 s3 :
  keeps_objects s1 s2 -> keeps_objects s2 s3 -> keeps_objects s1 s3.
Proof. intros H1 H2 r p Hr. by apply H2, H1. Qed.

Lemma keeps_objects_app s s' l : heap s' = heap s ++ l -> keeps_objects s s'.
Proof. intros Hh r p Hr. rewrite Hh. by apply lookup_app_l_Some. Qed.

(** Close a goal [keeps_objects s s'] for a state [s'] that a handler has
    built from [s] without an update of an object. *)
Ltac keeps_objects_leaf :=
  let r := fresh "r" in
  let p := fresh "p" in
  let Hr := fresh "Hr" in
  intros r p Hr; simpl;
  repeat (rewrite saveToHistory_heap; simpl);
  repeat apply lookup_app_l_Some;
  exact Hr.

Lemma install_loaded_keeps cl f ids s : keeps_objects s (install_loaded cl f ids s).
Proof. unfold install_loaded. rewrite alloc_all_spec. keeps_objects_leaf. Qed.

Lemma install_normalized_keeps cl s : keeps_objects s (install_normalized cl s).
Proof. unfold install_normalized. rewrite alloc_all_spec. keeps_objects_leaf. Qed.

Lemma organizeAction_keeps type param idx newId cloneId s o :
  type <> OrganizeType.rotate ->
  organizeAction type param idx newId cloneId s = Some o ->
  keeps_objects s (out_state o).
Proof.
  intros Hty. unfold organizeAction.
  destruct (js_index (pageSequence s) _) as [target |]; [| done].
  destruct (heap s !! target) as [targetPage |]; [| done].
  destruct type; [done | ..]; simpl; repeat case_match;
    intros [= <-]; keeps_objects_leaf.
Qed.

(** X4.  No action of the editor other than the rotate action changes an
    existing page object. The rotate action replaces the rotation of the
    page object at the target index and leaves all other page objects as
    they are. *)
Theorem only_rotate_changes_page_objects :
  (forall op s,
     (forall param idx newId cloneId,
        op <> op_organize OrganizeType.rotate param idx newId cloneId) ->
     keeps_objects s (step op s)) /\
  (forall param idx newId cloneId s o target page,
     organizeAction OrganizeType.rotate param idx newId cloneId s = Some o ->
     js_index (pageSequence s) (default (currentPageIndex s) idx) = Some target ->
     heap s !! target = Some page ->
     heap (out_state o) !! target =
       Some (PageMetadata.mk (PageMetadata.id page)
               (PageMetadata.originalIndex page)
               (rotated (PageMetadata.rotation page) param)) /\
     forall r p, r <> target -> heap s !! r = Some p ->
                 heap (out_state o) !! r = Some p).
Proof.
  split.
  - intros op s Hop. destruct op; simpl.
    + apply (preserves_handleFileUpload (keeps_objects s));
        [| | | apply keeps_objects_refl].
      * intros s' t Hs'. exact Hs'.
      * intros s' f Hs'. exact Hs'.
      * intros s' f Hs'. eapply keeps_objects_trans; [exact Hs' |].
        apply install_loaded_keeps.
    + unfold newDocument. keeps_objects_leaf.
    + destruct (organizeAction _ _ _ _ _ s) as [o |] eqn:Ho;
        [| apply keeps_objects_refl].
      eapply organizeAction_keeps; [| exact Ho].
      intros ->. by destruct (Hop param specificIndex newId cloneId).
    + unfold handlePageDrop. repeat case_match; keeps_objects_leaf.
    + unfold undo. repeat case_match; keeps_objects_leaf.
    + unfold redo. repeat case_match; keeps_objects_leaf.
    + unfold onActionStart. case_match; keeps_objects_leaf.
    + unfold handleMouseMove. repeat case_match; keeps_objects_leaf.
    + unfold handleMouseUp. repeat case_match; keeps_objects_leaf.
    + destruct saved; keeps_objects_leaf.
    + keeps_objects_leaf.
    + keeps_objects_leaf.
    + apply (preserves_flattenPDF (keeps_objects s));
        [| | | apply keeps_objects_refl].
      * intros s' f Hs'. exact Hs'.
      * intros s' f Hs'. exact Hs'.
      * intros s' Hs'. eapply keeps_objects_trans; [exact Hs' |].
        apply install_normalized_keeps.
    + rewrite handleDownload_state. apply keeps_objects_refl.
  - intros param idx newId cloneId s o target page Ho Ht Hp.
    unfold organizeAction in Ho.
    replace (match idx with Some i => i | None => currentPageIndex s end)
      with (default (currentPageIndex s) idx) in Ho by (by destruct idx).
    rewrite Ht in Ho. simpl in Ho.
    replace (heap s !! target) with (Some page) in Ho.
    injection Ho as <-. simpl. rewrite saveToHistory_heap. simpl.
    apply lookup_lt_Some in Hp as Hlt.
    split.
    + apply lookup_app_l_Some. by rewrite list_lookup_insert_eq.
    + intros r p Hne Hr. apply lookup_app_l_Some.
      by rewrite list_lookup_insert_ne.
Qed.

Lemma only_rotate_changes_page_objects_witness :
  heap two_page_state !! 0%nat = Some (PageMetadata.mk "p0" 1 0) /\
  heap (step op_undo two_page_state) !! 0%nat = Some (PageMetadata.mk "p0" 1 0).
Proof.
  assert (H : heap two_page_state !! 0%nat = Some (PageMetadata.mk "p0" 1 0))
    by reflexivity.
  split; [exact H |].
  apply (proj1 only_rotate_changes_page_objects op_undo two_page_state).
  - intros param idx newId cloneId. discriminate.
  - exact H.
Defined.

(** ** Moving, duplicating and inserting pages *)

Lemma delete_insert_same {A} (l : list A) (i : nat) (x : A) :
  delete i (<[i := x]> l) = delete i l.
Proof.
  revert i. induction l as [| a l IH]; intros [| i]; simpl; try done.
  by rewrite IH.
Qed.

Lemma insert_Permutation {A} (l : list A) (i : nat) (x : A) :
  (i < length l)%nat -> <[i := x]> l ≡ₚ x :: delete i l.
Proof.
  intros Hi. rewrite <- (delete_insert_same l i x).
  apply delete_Permutation. by apply list_lookup_insert_eq.
Qed.

(** Exchanging two entries of an array permutes it. *)
Lemma swap_Permutation {A} (l : list A) (i j : nat) (a b : A) :
  l !! i = Some a -> l !! j = Some b ->
  <[j := a]> (<[i := b]> l) ≡ₚ l.
Proof.
  intros Hi Hj.
  destruct (decide (i = j)) as [-> | Hne].
  - rewrite list_insert_insert_eq. rewrite list_insert_id; [done | exact Hi].
  - apply lookup_lt_Some in Hi as Hil. apply lookup_lt_Some in Hj as Hjl.
    assert (H1 : <[j := a]> (<[i := b]> l) ≡ₚ a :: delete j (<[i := b]> l)).
    { apply insert_Permutation. by rewrite length_insert. }
    assert (H2 : <[i := b]> l ≡ₚ b :: delete j (<[i := b]> l)).
    { apply delete_Permutation. by rewrite list_lookup_insert_ne. }
    assert (H3 : <[i := b]> l ≡ₚ b :: delete i l)
      by by apply insert_Permutation.
    assert (H4 : l ≡ₚ a :: delete i l) by by apply delete_Permutation.
    etrans; [exact H1 |]. etrans; [| symmetry; exact H4].
    apply perm_skip. apply (Permutation_cons_inv (a := b)).
    etrans; [symmetry; exact H2 | exact H3].
Qed.

Lemma swap_back {A} (l : list A) (i j : nat) (a b : A) :
  l !! i = Some a -> l !! j = Some b ->
  <[i := a]> (<[j := b]> (<[j := a]> (<[i := b]> l))) = l.
Proof.
  intros Hi Hj.
  destruct (decide (i = j)) as [-> | Hne].
  - rewrite !list_insert_insert_eq. by apply list_insert_id.
  - rewrite list_insert_insert_eq.
    rewrite (list_insert_id (<[i := b]> l) j b)
      by by rewrite list_lookup_insert_ne.
    rewrite list_insert_insert_eq. by apply list_insert_id.
Qed.

Lemma js_index_lookup {A} (l : list A) (i : Z) :
  0 <= i -> js_index l i = l !! Z.to_nat i.
Proof. intros Hi. unfold js_index. by destruct (Z.ltb_spec i 0); [lia |]. Qed.

Lemma js_index_None {A} (l : list A) (i : Z) :
  js_index l i = None <-> i < 0 \/ Z.of_nat (length l) <= i.
Proof.
  unfold js_index. destruct (Z.ltb_spec i 0).
  - split; [by left | done].
  - rewrite lookup_ge_None. lia.
Qed.

(** The state an organizer action leaves when it sets the sequence
    [newSequence] and the elements [newElements]. *)
Lemma finish_frame cl els rs s1 :
  let s' := saveToHistory cl els rs (setElements els (setPageSequence rs s1)) in
  pageSequence s' = rs /\ elements s' = els /\
  currentPageIndex s' = currentPageIndex s1 /\
  history s' =
    pushed_history cl
      (new_snapshot els rs (setElements els (setPageSequence rs s1))) /\
  heap s' = heap s1 ++ deref_all (heap s1) rs.
Proof.
  simpl.
  destruct (saveToHistory_frame cl els rs (setElements els (setPageSequence rs s1)))
    as (_ & _ & Hs & He & Hc & _).
  rewrite saveToHistory_history, saveToHistory_heap. by repeat split.
Qed.

(** X5.  With a page at the target index the move action does not throw or
    alert and leaves the elements and the page objects alone. When the
    neighbour index (target - 1 for 'up', target + 1 otherwise) is in
    range, the two pages are exchanged, all other positions keep their
    page and the current page index becomes the neighbour index; otherwise
    the sequence and the current page index stay as they are, and a
    snapshot is pushed on the history all the same. *)
Theorem move_page_spec (s : State) (param : Param.t) (idx : option Z)
    (newId : string) (cloneId : nat -> string) (target : ref)
    (page : PageMetadata.t) :
  let targetIdx := default (currentPageIndex s) idx in
  let moveTarget :=
    if Param.eqb param Param.up then targetIdx - 1 else targetIdx + 1 in
  js_index (pageSequence s) targetIdx = Some target ->
  heap s !! target = Some page ->
  exists o,
    organizeAction OrganizeType.move param idx newId cloneId s = Some o /\
    out_alerts o = [] /\
    elements (out_state o) = elements s /\
    pageSequence (out_state o) ≡ₚ pageSequence s /\
    keeps_objects s (out_state o) /\
    (forall other,
       js_index (pageSequence s) moveTarget = Some other ->
       js_index (pageSequence (out_state o)) moveTarget = Some target /\
       js_index (pageSequence (out_state o)) targetIdx = Some other /\
       (forall k, k <> targetIdx -> k <> moveTarget ->
          js_index (pageSequence (out_state o)) k = js_index (pageSequence s) k) /\
       currentPageIndex (out_state o) = moveTarget) /\
    (js_index (pageSequence s) moveTarget = None ->
       pageSequence (out_state o) = pageSequence s /\
       currentPageIndex (out_state o) = currentPageIndex s /\
       history (out_state o) =
         pushed_history s (new_snapshot (elements s) (pageSequence s) s)).
Proof.
  intros targetIdx moveTarget Hidx Hpage.
  assert (Htarget : match idx with Some i => i | None => currentPageIndex s end
                    = targetIdx) by (subst targetIdx; by destruct idx).
  apply js_index_Some in Hidx as Hidx'. destruct Hidx' as [Hpos Hlook].
  unfold organizeAction. rewrite Htarget, Hidx. simpl.
  replace (heap s !! target) with (Some page).
  fold moveTarget.
  destruct (js_index (pageSequence s) moveTarget) as [other |] eqn:Hother.
  - apply js_index_Some in Hother as Hother'.
    destruct Hother' as [Hmpos Hmlook].
    apply lookup_lt_Some in Hmlook as Hmlt.
    destruct (Z.leb_spec 0 moveTarget); [| lia].
    destruct (Z.ltb_spec moveTarget (Z.of_nat (length (pageSequence s))));
      [| lia].
    simpl. rewrite Hmlook.
    eexists. split; [reflexivity |]. simpl.
    match goal with
    | |- context [saveToHistory ?cl ?els ?rs (setElements ?els (setPageSequence ?rs ?s1))] =>
        destruct (finish_frame cl els rs s1) as (Hs & He & Hc & Hh & Hhp)
    end.
    simpl in Hs, He, Hc, Hhp. rewrite Hs, He, Hc.
    assert (Hne : Z.to_nat targetIdx <> Z.to_nat moveTarget).
    { subst moveTarget. destruct (Param.eqb param Param.up); lia. }
    split; [done |]. split; [done |].
    split; [by apply swap_Permutation |].
    split; [by eapply keeps_objects_app |].
    split; [| done].
    intros other' [= <-]. split; [| split; [| split]].
    + rewrite js_index_lookup by lia.
      apply list_lookup_insert_eq. by rewrite length_insert.
    + rewrite js_index_lookup by lia.
      rewrite list_lookup_insert_ne by done.
      apply list_lookup_insert_eq. by eapply lookup_lt_Some.
    + intros k Hk1 Hk2. unfold js_index.
      destruct (Z.ltb_spec k 0); [done |].
      rewrite !list_lookup_insert_ne by lia. done.
    + done.
  - apply js_index_None in Hother.
    assert (Hguard : (0 <=? moveTarget)
                     && (moveTarget <? Z.of_nat (length (pageSequence s))) = false).
    { destruct (Z.leb_spec 0 moveTarget); [| done].
      destruct (Z.ltb_spec moveTarget (Z.of_nat (length (pageSequence s))));
        [lia | done]. }
    rewrite Hguard.
    eexists. split; [reflexivity |]. simpl.
    destruct (finish_frame s (elements s) (pageSequence s) s)
      as (Hs & He & Hc & Hh & Hhp).
    simpl in Hs, He, Hc, Hhp. rewrite Hs, He, Hc.
    split; [done |]. split; [done |]. split; [done |].
    split; [by eapply keeps_objects_app |].
    split; [done |].
    intros _. split; [done |]. split; [done |].
    rewrite saveToHistory_history. reflexivity.
Qed.

Lemma move_page_spec_witness :
  js_index (pageSequence two_page_state) 1 = Some 2%nat /\
  exists o,
    organizeAction OrganizeType.move Param.up None "n" sample_ids two_page_state
      = Some o /\
    js_index (pageSequence (out_state o)) 0 = Some 2%nat.
Proof.
  assert (H : js_index (pageSequence two_page_state) 1 = Some 2%nat)
    by reflexivity.
  split; [exact H |].
  destruct (move_page_spec two_page_state Param.up None "n" sample_ids 2%nat
              (PageMetadata.mk "b" (-1) 0) H eq_refl)
    as (o & Ho & _ & _ & _ & _ & Hswap & _).
  exists o. split; [exact Ho |].
  exact (proj1 (Hswap 0%nat eq_refl)).
Defined.

(** X6.  Moving the current page up and then down again (or down and then
    up), when the neighbour exists, restores the page sequence, the
    current page index and the elements. *)
Theorem move_there_and_back (s : State) (param : Param.t)
    (newId newId' : string) (cloneId cloneId' : nat -> string) (o1 : Outcome) :
  let back := if Param.eqb param Param.up then Param.down else Param.up in
  let moveTarget :=
    if Param.eqb param Param.up then currentPageIndex s - 1
    else currentPageIndex s + 1 in
  0 <= moveTarget < Z.of_nat (length (pageSequence s)) ->
  organizeAction OrganizeType.move param None newId cloneId s = Some o1 ->
  exists o2,
    organizeAction OrganizeType.move back None newId' cloneId' (out_state o1)
      = Some o2 /\
    pageSequence (out_state o2) = pageSequence s /\
    currentPageIndex (out_state o2) = currentPageIndex s /\
    elements (out_state o2) = elements s /\
    keeps_objects s (out_state o2).
Proof.
  intros back moveTarget Hrange Ho1.
  unfold organizeAction in Ho1.
  destruct (js_index (pageSequence s) (currentPageIndex s)) as [target |] eqn:Ht;
    [| done].
  destruct (heap s !! target) as [page |] eqn:Hp; [| done].
  simpl in Ho1. fold moveTarget in Ho1.
  destruct (Z.leb_spec 0 moveTarget); [| lia].
  destruct (Z.ltb_spec moveTarget (Z.of_nat (length (pageSequence s)))); [| lia].
  simpl in Ho1.
  destruct (pageSequence s !! Z.to_nat moveTarget) as [other |] eqn:Hother;
    [| apply lookup_ge_None in Hother; lia].
  injection Ho1 as <-. simpl.
  apply js_index_Some in Ht as [Hpos Ht].
  assert (Hne : Z.to_nat (currentPageIndex s) <> Z.to_nat moveTarget).
  { subst moveTarget. destruct (Param.eqb param Param.up); lia. }
  assert (Hback : (if Param.eqb back Param.up then moveTarget - 1
                   else moveTarget + 1) = currentPageIndex s).
  { subst back moveTarget. by destruct (Param.eqb param Param.up); simpl; lia. }
  match goal with
  | |- context [saveToHistory ?cl ?els ?rs (setElements ?els (setPageSequence ?rs ?s1))] =>
      destruct (finish_frame cl els rs s1) as (Hs & He & Hc & Hh & Hhp);
      set (s2 := saveToHistory cl els rs (setElements els (setPageSequence rs s1)))
        in *
  end.
  simpl in Hs, He, Hc, Hhp.
  unfold organizeAction. rewrite Hc, Hs.
  rewrite js_index_lookup by lia.
  rewrite list_lookup_insert_eq by (rewrite length_insert; lia).
  assert (Hp2 : heap s2 !! target = Some page).
  { rewrite Hhp. by apply lookup_app_l_Some. }
  replace (heap s2 !! target) with (Some page). simpl.
  rewrite Hback.
  destruct (Z.leb_spec 0 (currentPageIndex s)); [| lia].
  apply lookup_lt_Some in Ht as Hlt.
  rewrite !length_insert.
  destruct (Z.ltb_spec (currentPageIndex s) (Z.of_nat (length (pageSequence s))));
    [| lia].
  simpl.
  rewrite list_lookup_insert_ne by done.
  rewrite list_lookup_insert_eq by done.
  eexists. split; [reflexivity |]. simpl.
  match goal with
  | |- context [saveToHistory ?cl ?els ?rs (setElements ?els (setPageSequence ?rs ?s1))] =>
      destruct (finish_frame cl els rs s1) as (Hs' & He' & Hc' & Hh' & Hhp')
  end.
  simpl in Hs', He', Hc', Hhp'.
  split; [rewrite Hs'; by apply swap_back |].
  split; [by rewrite Hc' |]. split; [by rewrite He', He |].
  intros r p Hr. rewrite Hhp'. apply lookup_app_l_Some.
  rewrite Hhp. by apply lookup_app_l_Some.
Qed.

Lemma move_there_and_back_witness :
  exists o1 o2,
    organizeAction OrganizeType.move Param.up None "n" sample_ids two_page_state
      = Some o1 /\
    organizeAction OrganizeType.move Param.down None "m" sample_ids (out_state o1)
      = Some o2 /\
    pageSequence (out_state o2) = pageSequence two_page_state.
Proof.
  destruct (organizeAction OrganizeType.move Param.up None "n" sample_ids
              two_page_state) as [o1 |] eqn:Ho1.
  - destruct (move_there_and_back two_page_state Param.up "n" "m" sample_ids
                sample_ids o1) as (o2 & Ho2 & Hseq & _).
    + rewrite two_page_state_eq. simpl. lia.
    + exact Ho1.
    + exists o1, o2. by repeat split.
  - exfalso. rewrite two_page_state_eq in Ho1. discriminate Ho1.
Defined.

Lemma with_ids_back (el : EditorElement.t) (i p : string) :
  EditorElement.with_ids (EditorElement.with_ids el i p)
    (EditorElement.id el) (EditorElement.pageId el) = el.
Proof. by destruct el. Qed.

(** X7.  With a page at the target index, the duplicate action inserts
    right after it a new page object with the new id and the originalIndex
    and rotation of the original, makes it the current page, and appends
    one clone of every element of the original page, equal to its original
    except for its id and its pageId, which is the id of the new page.
    Existing page objects and elements are unchanged. *)
Theorem duplicate_page_spec (s : State) (param : Param.t) (idx : option Z)
    (newId : string) (cloneId : nat -> string) (target : ref)
    (page : PageMetadata.t) :
  let targetIdx := default (currentPageIndex s) idx in
  js_index (pageSequence s) targetIdx = Some target ->
  heap s !! target = Some page ->
  exists o r clones,
    organizeAction OrganizeType.duplicate param idx newId cloneId s = Some o /\
    out_alerts o = [] /\
    heap s !! r = None /\
    heap (out_state o) !! r =
      Some (PageMetadata.mk newId (PageMetadata.originalIndex page)
              (PageMetadata.rotation page)) /\
    pageSequence (out_state o) =
      take (S (Z.to_nat targetIdx)) (pageSequence s)
        ++ r :: drop (S (Z.to_nat targetIdx)) (pageSequence s) /\
    js_index (pageSequence (out_state o)) (targetIdx + 1) = Some r /\
    currentPageIndex (out_state o) = targetIdx + 1 /\
    keeps_objects s (out_state o) /\
    elements (out_state o) = elements s ++ clones /\
    Forall2
      (fun c el =>
         EditorElement.pageId c = newId /\
         EditorElement.with_ids c (EditorElement.id el) (EditorElement.pageId el)
           = el)
      clones
      (filter (fun el => EditorElement.pageId el = PageMetadata.id page)
         (elements s)).
Proof.
  intros targetIdx Hidx Hpage.
  assert (Htarget : match idx with Some i => i | None => currentPageIndex s end
                    = targetIdx) by (subst targetIdx; by destruct idx).
  apply js_index_Some in Hidx as Hidx'. destruct Hidx' as [Hpos Hlook].
  apply lookup_lt_Some in Hlook as Hlt.
  unfold organizeAction. rewrite Htarget, Hidx. simpl.
  replace (heap s !! target) with (Some page).
  eexists. exists (length (heap s)). eexists.
  split; [reflexivity |]. simpl.
  match goal with
  | |- context [saveToHistory ?cl ?els ?rs (setElements ?els (setPageSequence ?rs ?s1))] =>
      destruct (finish_frame cl els rs s1) as (Hs & He & Hc & Hh & Hhp)
  end.
  simpl in Hs, He, Hc, Hhp. rewrite Hs, He, Hc.
  split; [done |].
  split; [by apply lookup_ge_None |].
  split.
  { rewrite Hhp. apply lookup_app_l_Some.
    rewrite lookup_app_r by lia. by rewrite Nat.sub_diag. }
  split; [done |].
  split.
  { rewrite js_index_lookup by lia. unfold splice_insert.
    rewrite lookup_app_r by (rewrite length_take; lia).
    rewrite length_take.
    by replace (Z.to_nat (targetIdx + 1)
                - S (Z.to_nat targetIdx) `min` length (pageSequence s))%nat
      with 0%nat by lia. }
  split; [done |].
  split.
  { intros r p Hr. rewrite Hhp. by do 2 apply lookup_app_l_Some. }
  split; [reflexivity |].
  apply Forall2_same_length_lookup_2.
  - by rewrite length_imap.
  - intros i c el Hc' Hel. rewrite list_lookup_imap, Hel in Hc'.
    injection Hc' as <-. split; [done | apply with_ids_back].
Qed.

Lemma duplicate_page_spec_witness :
  js_index (pageSequence opened_state) 0 = Some 0%nat /\
  exists o,
    organizeAction OrganizeType.duplicate Param.none None "d" sample_ids
      opened_state = Some o /\
    currentPageIndex (out_state o) = 1.
Proof.
  assert (H : js_index (pageSequence opened_state) 0 = Some 0%nat)
    by reflexivity.
  split; [exact H |].
  destruct (duplicate_page_spec opened_state Param.none None "d" sample_ids 0%nat
              (PageMetadata.mk "p0" 1 0) H eq_refl)
    as (o & r & clones & Ho & _ & _ & _ & _ & _ & Hc & _).
  exists o. split; [exact Ho | exact Hc].
Defined.

(** X8.  With a page at the target index, the blank action inserts right
    after it a new page object with originalIndex -1 and rotation 0, makes
    it the current page, and leaves the elements and the existing page
    objects unchanged. *)
Theorem blank_page_spec (s : State) (param : Param.t) (idx : option Z)
    (newId : string) (cloneId : nat -> string) (target : ref)
    (page : PageMetadata.t) :
  let targetIdx := default (currentPageIndex s) idx in
  js_index (pageSequence s) targetIdx = Some target ->
  heap s !! target = Some page ->
  exists o r,
    organizeAction OrganizeType.blank param idx newId cloneId s = Some o /\
    out_alerts o = [] /\
    heap s !! r = None /\
    heap (out_state o) !! r = Some (PageMetadata.mk newId (-1) 0) /\
    pageSequence (out_state o) =
      take (S (Z.to_nat targetIdx)) (pageSequence s)
        ++ r :: drop (S (Z.to_nat targetIdx)) (pageSequence s) /\
    js_index (pageSequence (out_state o)) (targetIdx + 1) = Some r /\
    currentPageIndex (out_state o) = targetIdx + 1 /\
    keeps_objects s (out_state o) /\
    elements (out_state o) = elements s.
Proof.
  intros targetIdx Hidx Hpage.
  assert (Htarget : match idx with Some i => i | None => currentPageIndex s end
                    = targetIdx) by (subst targetIdx; by destruct idx).
  apply js_index_Some in Hidx as Hidx'. destruct Hidx' as [Hpos Hlook].
  apply lookup_lt_Some in Hlook as Hlt.
  unfold organizeAction. rewrite Htarget, Hidx. simpl.
  replace (heap s !! target) with (Some page).
  eexists. exists (length (heap s)).
  split; [reflexivity |]. simpl.
  match goal with
  | |- context [saveToHistory ?cl ?els ?rs (setElements ?els (setPageSequence ?rs ?s1))] =>
      destruct (finish_frame cl els rs s1) as (Hs & He & Hc & Hh & Hhp)
  end.
  simpl in Hs, He, Hc, Hhp. rewrite Hs, He, Hc.
  split; [done |].
  split; [by apply lookup_ge_None |].
  split.
  { rewrite Hhp. apply lookup_app_l_Some.
    rewrite lookup_app_r by lia. by rewrite Nat.sub_diag. }
  split; [done |].
  split.
  { rewrite js_index_lookup by lia. unfold splice_insert.
    rewrite lookup_app_r by (rewrite length_take; lia).
    rewrite length_take.
    by replace (Z.to_nat (targetIdx + 1)
                - S (Z.to_nat targetIdx) `min` length (pageSequence s))%nat
      with 0%nat by lia. }
  split; [done |].
  split; [| done].
  intros r p Hr. rewrite Hhp. by do 2 apply lookup_app_l_Some.
Qed.

Lemma blank_page_spec_witness :
  js_index (pageSequence opened_state) 0 = Some 0%nat /\
  exists o,
    organizeAction OrganizeType.blank Param.none None "b" sample_ids
      opened_state = Some o /\
    currentPageIndex (out_state o) = 1.
Proof.
  assert (H : js_index (pageSequence opened_state) 0 = Some 0%nat)
    by reflexivity.
  split; [exact H |].
  destruct (blank_page_spec opened_state Param.none None "b" sample_ids 0%nat
              (PageMetadata.mk "p0" 1 0) H eq_refl)
    as (o & r & Ho & _ & _ & _ & _ & _ & Hc & _).
  exists o. split; [exact Ho | exact Hc].
Defined.

Lemma splice_remove_Permutation {A} (l : list A) (i : nat) (a : A) :
  l !! i = Some a -> a :: splice_remove i l ≡ₚ l.
Proof.
  intros Hi. unfold splice_remove.
  rewrite <- (take_drop_middle l i a Hi) at 3.
  apply Permutation_middle.
Qed.

Lemma splice_insert_Permutation {A} (l : list A) (i : nat) (a : A) :
  splice_insert i a l ≡ₚ a :: l.
Proof.
  unfold splice_insert. rewrite <- (take_drop i l) at 3.
  symmetry. apply Permutation_middle.
Qed.

Lemma splice_insert_lookup {A} (l : list A) (i : nat) (a : A) :
  (i <= length l)%nat -> splice_insert i a l !! i = Some a.
Proof.
  intros Hi. unfold splice_insert.
  rewrite lookup_app_r by (rewrite length_take; lia).
  rewrite length_take. by replace (i - i `min` length l)%nat with 0%nat by lia.
Qed.

Lemma length_splice_remove {A} (l : list A) (i : nat) :
  (i < length l)%nat -> length (splice_remove i l) = (length l - 1)%nat.
Proof.
  intros Hi. unfold splice_remove. rewrite length_app, length_take, length_drop.
  lia.
Qed.

(** X9.  Dropping the thumbnail of index src on a different index tgt of
    the sequence moves that page to index tgt: the other pages keep their
    order, the new sequence is a permutation of the old one, the current
    page index becomes tgt, and elements and page objects are unchanged. *)
Theorem page_drop_spec (s : State) (src tgt : nat) (moved : ref) :
  pageSequence s !! src = Some moved ->
  (tgt < length (pageSequence s))%nat ->
  src <> tgt ->
  exists s',
    handlePageDrop (Some src) tgt s = Some s' /\
    pageSequence s' ≡ₚ pageSequence s /\
    pageSequence s' !! tgt = Some moved /\
    splice_remove tgt (pageSequence s') = splice_remove src (pageSequence s) /\
    currentPageIndex s' = Z.of_nat tgt /\
    elements s' = elements s /\
    keeps_objects s s'.
Proof.
  intros Hsrc Htgt Hne. unfold handlePageDrop.
  destruct (Nat.eqb_spec src tgt); [done |]. rewrite Hsrc.
  apply lookup_lt_Some in Hsrc as Hlt.
  eexists. split; [reflexivity |].
  set (newSequence := splice_insert tgt moved (splice_remove src (pageSequence s))).
  destruct (saveToHistory_frame s (elements s) newSequence
              (setPageSequence newSequence s)) as (_ & _ & Hs & He & _).
  simpl in Hs, He. simpl. rewrite Hs, He.
  assert (Hlen : (tgt <= length (splice_remove src (pageSequence s)))%nat)
    by (rewrite length_splice_remove; lia).
  split.
  { subst newSequence. etrans; [apply splice_insert_Permutation |].
    by apply splice_remove_Permutation. }
  split; [by apply splice_insert_lookup |].
  split.
  { subst newSequence. unfold splice_insert, splice_remove at 1.
    rewrite take_app_le by (rewrite length_take; lia).
    rewrite take_take. replace (tgt `min` tgt)%nat with tgt by lia.
    rewrite drop_app_ge by (rewrite length_take; lia).
    rewrite length_take.
    replace (S tgt - tgt `min` length (splice_remove src (pageSequence s)))%nat
      with 1%nat by lia.
    simpl. rewrite drop_0. apply take_drop. }
  split; [done |]. split; [done |].
  intros r p Hr. simpl. rewrite saveToHistory_heap. by apply lookup_app_l_Some.
Qed.

Lemma page_drop_spec_witness :
  exists s',
    handlePageDrop (Some 0%nat) 1%nat two_page_state = Some s' /\
    pageSequence s' !! 1%nat = Some 0%nat.
Proof.
  destruct (page_drop_spec two_page_state 0%nat 1%nat 0%nat)
    as (s' & Hd & _ & Hl & _).
  - reflexivity.
  - rewrite two_page_state_eq. simpl. lia.
  - lia.
  - exists s'. split; [exact Hd | exact Hl].
Defined.

(** ** Dragging an element *)

Lemma handleMouseMove_moving e dom s :
  isDragging s = true -> action s = Some moving ->
  truthy (selectedId s) = true ->
  handleMouseMove e dom s =
    setElements
      (map (displaced (selectedId s)
              (clientX e - Point.x (dragStart s))
              (clientY e - Point.y (dragStart s))) (elements s))
      (setDragStart (Point.mk (clientX e) (clientY e)) s).
Proof.
  intros Hd Ha Hs. unfold handleMouseMove. rewrite Hd, Ha, Hs. reflexivity.
Qed.

Lemma mouse_moves_dragged (es : list MouseEvent) (dom : Dom) (s : State) :
  isDragging s = true ->
  action s = Some moving ->
  truthy (selectedId s) = true ->
  let s' := mouse_moves es dom s in
  elements s' =
    dragged (selectedId s) (Point.x (dragStart s)) (Point.y (dragStart s)) es
      (elements s) /\
  isDragging s' = true /\ action s' = Some moving /\
  selectedId s' = selectedId s /\ pageSequence s' = pageSequence s /\
  history s' = history s /\ historyIndex s' = historyIndex s /\
  heap s' = heap s.
Proof.
  revert s. induction es as [| e1 es IH]; intros s Hd Ha Hs; [done |].
  unfold mouse_moves. simpl.
  rewrite (handleMouseMove_moving e1 dom s Hd Ha Hs).
  set (s1 := setElements _ _).
  destruct (IH s1 Hd Ha Hs) as (H1 & H2 & H3 & H4 & H5 & H6 & H7 & H8).
  unfold mouse_moves in *. by repeat split.
Qed.

(** ** The box of a freehand stroke *)

Lemma fold_Rmin_le l a : (fold_left Rmin l a <= a)%R.
Proof.
  revert a. induction l as [| b l IH]; intros a; simpl; [lra |].
  etrans; [apply IH | apply Rmin_l].
Qed.

Lemma fold_Rmin_lower l a x : In x l -> (fold_left Rmin l a <= x)%R.
Proof.
  revert a. induction l as [| b l IH]; intros a; simpl; [done |].
  intros [-> | Hin]; [| by apply IH].
  etrans; [apply fold_Rmin_le | apply Rmin_r].
Qed.

Lemma fold_Rmin_attained l a : fold_left Rmin l a = a \/ In (fold_left Rmin l a) l.
Proof.
  revert a. induction l as [| b l IH]; intros a; simpl; [by left |].
  destruct (IH (Rmin a b)) as [-> | Hin]; [| by right; right].
  unfold Rmin. destruct (Rle_dec a b); [by left | by right; left].
Qed.

Lemma fold_Rmax_ge l a : (a <= fold_left Rmax l a)%R.
Proof.
  revert a. induction l as [| b l IH]; intros a; simpl; [lra |].
  etrans; [apply Rmax_l | apply IH].
Qed.

Lemma fold_Rmax_upper l a x : In x l -> (x <= fold_left Rmax l a)%R.
Proof.
  revert a. induction l as [| b l IH]; intros a; simpl; [done |].
  intros [-> | Hin]; [| by apply IH].
  etrans; [apply Rmax_r | apply fold_Rmax_ge].
Qed.

Lemma fold_Rmax_attained l a : fold_left Rmax l a = a \/ In (fold_left Rmax l a) l.
Proof.
  revert a. induction l as [| b l IH]; intros a; simpl; [by left |].
  destruct (IH (Rmax a b)) as [-> | Hin]; [| by right; right].
  unfold Rmax. destruct (Rle_dec a b); [by right; left | by left].
Qed.

Lemma Math_min_list_lower d l x : In x l -> (Math_min_list d l <= x)%R.
Proof.
  destruct l as [| a l]; simpl; [done |].
  intros [-> | Hin]; [apply fold_Rmin_le | by apply fold_Rmin_lower].
Qed.

Lemma Math_max_list_upper d l x : In x l -> (x <= Math_max_list d l)%R.
Proof.
  destruct l as [| a l]; simpl; [done |].
  intros [-> | Hin]; [apply fold_Rmax_ge | by apply fold_Rmax_upper].
Qed.

Lemma Math_min_list_attained d l : l <> [] -> In (Math_min_list d l) l.
Proof.
  destruct l as [| a l]; [done |]. intros _. simpl.
  destruct (fold_Rmin_attained l a) as [-> | Hin]; [by left | by right].
Qed.

Lemma Math_max_list_attained d l : l <> [] -> In (Math_max_list d l) l.
Proof.
  destruct l as [| a l]; [done |]. intros _. simpl.
  destruct (fold_Rmax_attained l a) as [-> | Hin]; [by left | by right].
Qed.

(** X11.  Releasing the mouse after a freehand stroke of more than two
    points on a page appends exactly one element, of type 'highlight' with
    the highlight tool and 'draw' with any other, that carries the points.
    Its x, y, width and height are the tight bounding box of the points:
    every point lies inside, and each of the four sides passes through a
    point. *)
Theorem freehand_bounding_box (e : MouseEvent) (dom : Dom) (now : string)
    (s : State) (pId : string) :
  isDragging s = true ->
  action s = Some drawing ->
  activePageId s = Some pId -> pId <> "" ->
  (2 < length (currentPoints s))%nat ->
  exists el,
    elements (handleMouseUp e dom now s) = elements s ++ [el] /\
    EditorElement.pageId el = pId /\
    EditorElement.points el = Some (currentPoints s) /\
    (EditorElement.type el = highlight <-> toolMode s = highlight) /\
    (EditorElement.type el = draw <-> toolMode s <> highlight) /\
    (forall p, In p (currentPoints s) ->
       (EditorElement.x el <= Point.x p <= EditorElement.x el + EditorElement.width el)%R /\
       (EditorElement.y el <= Point.y p <= EditorElement.y el + EditorElement.height el)%R) /\
    (exists p, In p (currentPoints s) /\ Point.x p = EditorElement.x el) /\
    (exists p, In p (currentPoints s) /\
               Point.x p = (EditorElement.x el + EditorElement.width el)%R) /\
    (exists p, In p (currentPoints s) /\ Point.y p = EditorElement.y el) /\
    (exists p, In p (currentPoints s) /\
               Point.y p = (EditorElement.y el + EditorElement.height el)%R) /\
    currentPoints (handleMouseUp e dom now s) = [] /\
    isDragging (handleMouseUp e dom now s) = false.
Proof.
  intros Hd Ha Hp Hne Hlen.
  assert (Htruthy : truthy (activePageId s) = true).
  { rewrite Hp. simpl. destruct (String.eqb_spec pId ""); done. }
  assert (Hnil : currentPoints s <> []).
  { intros Hnil. rewrite Hnil in Hlen. simpl in Hlen. lia. }
  exists (drawn_element now pId s).
  unfold handleMouseUp. rewrite Hd, Ha, Htruthy, Hp. simpl.
  destruct (Z.ltb_spec 2 (Z.of_nat (length (currentPoints s)))); [| lia].
  simpl.
  match goal with
  | |- context [saveToHistory ?cl ?els ?rs ?s0] =>
      destruct (saveToHistory_frame cl els rs s0) as (_ & _ & _ & He & _)
  end.
  simpl in He.
  split; [exact He |]. split; [done |]. split; [done |].
  split.
  { destruct (toolMode s); simpl; split; intros; done. }
  split.
  { destruct (toolMode s); simpl; split; intros; done. }
  assert (Hmap : forall (f : Point.t -> R) p,
            In p (currentPoints s) -> In (f p) (map f (currentPoints s))).
  { intros f p Hin. by apply in_map. }
  split.
  { intros p Hin. simpl.
    pose proof (Math_min_list_lower 0 _ _ (Hmap Point.x p Hin)).
    pose proof (Math_max_list_upper 0 _ _ (Hmap Point.x p Hin)).
    pose proof (Math_min_list_lower 0 _ _ (Hmap Point.y p Hin)).
    pose proof (Math_max_list_upper 0 _ _ (Hmap Point.y p Hin)).
    split; lra. }
  assert (Hx : map Point.x (currentPoints s) <> [])
    by (destruct (currentPoints s); done).
  assert (Hy : map Point.y (currentPoints s) <> [])
    by (destruct (currentPoints s); done).
  split.
  { apply (Math_min_list_attained 0) in Hx.
    apply in_map_iff in Hx as (p & Hpx & Hin). by exists p. }
  split.
  { apply (Math_max_list_attained 0) in Hx.
    apply in_map_iff in Hx as (p & Hpx & Hin). exists p. split; [done |].
    simpl. lra. }
  split.
  { apply (Math_min_list_attained 0) in Hy.
    apply in_map_iff in Hy as (p & Hpy & Hin). by exists p. }
  split.
  { apply (Math_max_list_attained 0) in Hy.
    apply in_map_iff in Hy as (p & Hpy & Hin). exists p. split; [done |].
    simpl. lra. }
  done.
Qed.

Lemma freehand_bounding_box_witness :
  let s :=
    run [op_tool draw;
         op_actionStart drawing None (Point.mk 10 10) "p0";
         op_mouseMove (mouse 20 15) at_origin;
         op_mouseMove (mouse 30 25) at_origin;
         op_mouseMove (mouse 40 30) at_origin]
      opened_state in
  exists el,
    elements (handleMouseUp (mouse 40 30) at_origin "1700000000001" s)
      = elements s ++ [el] /\
    EditorElement.pageId el = "p0".
Proof.
  intros s.
  destruct (freehand_bounding_box (mouse 40 30) at_origin "1700000000001" s "p0")
    as (el & He & Hp & _).
  - reflexivity.
  - reflexivity.
  - reflexivity.
  - discriminate.
  - simpl. lia.
  - by exists el.
Defined.

(** ** The rotation handle *)

Lemma Math_round_bounds v :
  (v - 1 / 2 < IZR (Math_round v) <= v + 1 / 2)%R.
Proof.
  unfold Math_round. rewrite minus_IZR.
  destruct (archimed (v + 1 / 2)) as [H1 H2]. lra.
Qed.

Lemma Math_round_range v a b :
  (IZR a <= v <= IZR b)%R -> a <= Math_round v <= b.
Proof.
  intros [Ha Hb]. destruct (Math_round_bounds v) as [H1 H2].
  split.
  - assert (H : a - 1 < Math_round v); [| lia].
    apply lt_IZR. rewrite minus_IZR. lra.
  - assert (H : Math_round v < b + 1); [| lia].
    apply lt_IZR. rewrite plus_IZR. lra.
Qed.

Lemma Math_round_IZR n : Math_round (IZR n) = n.
Proof.
  assert (H : n <= Math_round (IZR n) <= n); [| lia].
  apply Math_round_range. lra.
Qed.

Lemma atan2_bound y x : (- (3 / 2) * PI < atan2 y x < 3 / 2 * PI)%R.
Proof.
  pose proof PI_RGT_0 as Hpi.
  pose proof (atan_bound (y / x)) as Hb.
  unfold atan2. repeat case_match; lra.
Qed.

Lemma degrees_bound a :
  (- (3 / 2) * PI < a < 3 / 2 * PI)%R -> (-270 < a * (180 / PI) < 270)%R.
Proof.
  intros [H1 H2]. pose proof PI_RGT_0 as Hpi.
  set (u := (a * / PI)%R).
  assert (Hu : (u * PI = a)%R) by (subst u; field; lra).
  replace (a * (180 / PI))%R with (180 * u)%R by (subst u; field; lra).
  rewrite <- Hu in H1, H2.
  split; nra.
Qed.

(** X12.  While the rotation handle is dragged on a page whose container
    exists, the rotation stored in the selected element is a whole number
    of degrees from 0 to 359, and a multiple of 15 when Shift is held.
    Every other element is unchanged. *)
Theorem rotation_handle_range (e : MouseEvent) (dom : Dom) (s : State)
    (box : Point.t) (el' : EditorElement.t) :
  isDragging s = true ->
  action s = Some rotating ->
  truthy (selectedId s) = true ->
  truthy (activePageId s) = true ->
  dom (activePageId s) = Some box ->
  In el' (elements (handleMouseMove e dom s)) ->
  (id_is (selectedId s) (EditorElement.id el') = true ->
     exists n : Z,
       EditorElement.rotation el' = Some (IZR n) /\ (0 <= n < 360) /\
       (shiftKey e = true -> exists k, n = 15 * k)) /\
  (id_is (selectedId s) (EditorElement.id el') = false -> In el' (elements s)).
Proof.
  intros Hd Ha Hs Hp Hbox Hin.
  unfold handleMouseMove in Hin. rewrite Hd, Ha, Hs, Hp, Hbox in Hin.
  simpl in Hin.
  destruct (List.find _ (elements s)) as [el |] eqn:Hfind.
  - simpl in Hin. apply in_map_iff in Hin as (el0 & Hel' & Hin0).
    set (centerX := (Point.x box + EditorElement.x el + EditorElement.width el / 2)%R)
      in *.
    set (centerY := (Point.y box + EditorElement.y el + EditorElement.height el / 2)%R)
      in *.
    set (angle := (atan2 (clientY e - centerY) (clientX e - centerX) * (180 / PI))%R)
      in *.
    assert (Hangle : (-270 < angle < 270)%R)
      by (subst angle; apply degrees_bound, atan2_bound).
    destruct (id_is (selectedId s) (EditorElement.id el0)) eqn:Hsel0.
    + subst el'. split; [intros _ | simpl; congruence].
      eexists. split; [reflexivity |].
      destruct (shiftKey e) eqn:Hshift.
      * set (k := Math_round ((angle + 90) / 15)).
        assert (Hk : -12 <= k <= 24).
        { subst k. apply Math_round_range. lra. }
        replace (IZR k * 15)%R with (IZR (k * 15)) by (rewrite mult_IZR; lra).
        rewrite Math_round_IZR.
        split; [apply Z.rem_bound_pos; lia |].
        intros _. exists (k + 24 - 24 * Z.quot (k * 15 + 360) 360).
        pose proof (Z.quot_rem' (k * 15 + 360) 360). lia.
      * assert (Hr : -180 <= Math_round (angle + 90) <= 360).
        { apply Math_round_range. lra. }
        split; [apply Z.rem_bound_pos; lia | done].
    + subst el'. split; [congruence | by intros _].
  - split; [| by intros _].
    intros Hsel. pose proof (find_none _ _ Hfind el' Hin) as Hnone.
    simpl in Hnone. congruence.
Qed.

Lemma rotation_handle_range_witness :
  let el := created_element "a" "p0" 30 30 30 30 opened_state in
  let s :=
    setActivePageId (Some "p0")
      (setAction (Some rotating)
         (setIsDragging true
            (setSelectedId (Some "a") (setElements [el] opened_state)))) in
  let el' := nth 0 (elements (handleMouseMove (mouse 80 20) at_origin s)) el in
  exists n : Z, EditorElement.rotation el' = Some (IZR n) /\ 0 <= n < 360.
Proof.
  intros el s el'.
  assert (Hin : In el' (elements (handleMouseMove (mouse 80 20) at_origin s)))
    by (left; reflexivity).
  destruct (proj1 (rotation_handle_range (mouse 80 20) at_origin s
                     (Point.mk 0 0) el' eq_refl eq_refl eq_refl eq_refl eq_refl
                     Hin) eq_refl)
    as (n & Hn & Hr & _).
  by exists n.
Defined.

(** ** Editing a text *)

(** X13.  Typing into the text area of an element stores the new text in
    the element and sets its width to max(40, scrollWidth) and its height
    to max(20, scrollHeight), keeping its position. Other elements, the
    history and the page sequence are unchanged: no history entry is made. *)
Theorem textarea_minimum_size (id value : string) (scrollWidth scrollHeight : R)
    (s : State) :
  let s' := handleTextareaInput id value scrollWidth scrollHeight s in
  Forall2
    (fun el' el =>
       EditorElement.id el' = EditorElement.id el /\
       (EditorElement.id el = id ->
          EditorElement.content el' = Some value /\
          EditorElement.width el' = Rmax 40 scrollWidth /\
          EditorElement.height el' = Rmax 20 scrollHeight /\
          (40 <= EditorElement.width el')%R /\
          (20 <= EditorElement.height el')%R /\
          (scrollWidth <= EditorElement.width el')%R /\
          (scrollHeight <= EditorElement.height el')%R /\
          EditorElement.x el' = EditorElement.x el /\
          EditorElement.y el' = EditorElement.y el) /\
       (EditorElement.id el <> id -> el' = el))
    (elements s') (elements s) /\
  history s' = history s /\ pageSequence s' = pageSequence s.
Proof.
  simpl. split; [| done].
  unfold handleTextareaInput, onSizeChange, onTextChange. simpl.
  rewrite map_map.
  apply Forall2_same_length_lookup_2; [by rewrite length_map |].
  intros i el' el Hel' Hel.
  rewrite list_lookup_fmap, Hel in Hel'. simpl in Hel'. injection Hel' as <-.
  destruct (String.eqb_spec (EditorElement.id el) id) as [Heq | Hne].
  - simpl. destruct (String.eqb_spec (EditorElement.id el) id); [| done].
    simpl. split; [done |]. split; [| done]. intros _.
    repeat split; try apply Rmax_l; apply Rmax_r.
  - destruct (String.eqb_spec (EditorElement.id el) id); [done |].
    split; [done |]. split; [done |]. done.
Qed.

Lemma textarea_minimum_size_witness :
  exists el',
    elements (handleTextareaInput "a" "hi" 10 10 resizing_state) !! 0%nat
      = Some el' /\
    EditorElement.content el' = Some "hi" /\
    EditorElement.width el' = Rmax 40 10 /\
    EditorElement.height el' = Rmax 20 10.
Proof.
  destruct (textarea_minimum_size "a" "hi" 10 10 resizing_state) as [H _].
  destruct (Forall2_lookup_r _ _ _ 0%nat
              (created_element "a" "p0" 30 30 30 30 opened_state) H eq_refl)
    as (el' & Hl & _ & Hsel & _).
  exists el'. split; [exact Hl |].
  destruct (Hsel eq_refl) as (Hc & Hw & Hh & _). by repeat split.
Defined.

(** ** Zoom *)

(** X14.  Starting from a zoom between 0.2 and 4, any sequence of clicks
    on the two zoom buttons leaves the zoom between 0.2 and 4 and changes
    nothing of the document (elements, page sequence, history, page
    objects). *)
Theorem zoom_bounds (zs : list Zoom) (s : State) :
  (0.2 <= scale s <= 4)%R ->
  let s' := fold_left (fun s z => zoom z s) zs s in
  (0.2 <= scale s' <= 4)%R /\
  elements s' = elements s /\ pageSequence s' = pageSequence s /\
  history s' = history s /\ heap s' = heap s.
Proof.
  revert s. induction zs as [| z zs IH]; intros s Hs; simpl; [done |].
  assert (H1 : (0.2 <= scale (zoom z s) <= 4)%R).
  { destruct z; simpl.
    - unfold Rmin. destruct (Rle_dec 4 (scale s + 0.1)); lra.
    - unfold Rmax. destruct (Rle_dec 0.2 (scale s - 0.1)); lra. }
  destruct (IH (zoom z s) H1) as (Hsc & He & Hp & Hh & Hhp).
  simpl in Hsc, He, Hp, Hh, Hhp. rewrite He, Hp, Hh, Hhp.
  split; [exact Hsc |]. by destruct z.
Qed.

Lemma zoom_bounds_witness :
  (0.2 <= scale initial_state <= 4)%R /\
  (0.2 <= scale (fold_left (fun s z => zoom z s) [zoom_out; zoom_in; zoom_in]
                   initial_state) <= 4)%R.
Proof.
  assert (H : (0.2 <= scale initial_state <= 4)%R) by (simpl; lra).
  split; [exact H |].
  apply (zoom_bounds [zoom_out; zoom_in; zoom_in] initial_state H).
Defined.

(** ** The order of the elements *)

Lemma findIndex_Some {A} (p : A -> bool) (l : list A) (i : nat) :
  findIndex p l = Some i ->
  exists a, l !! i = Some a /\ p a = true /\ Forall (fun b => p b = false) (take i l).
Proof.
  revert i. induction l as [| b l IH]; intros i; simpl; [done |].
  destruct (p b) eqn:Hb.
  - intros [= <-]. exists b. by repeat split.
  - destruct (findIndex p l) as [j |]; simpl; [| done].
    intros [= <-]. destruct (IH j eq_refl) as (a & Ha & Hpa & Hbefore).
    exists a. split; [exact Ha |]. split; [exact Hpa |].
    simpl. by apply Forall_cons.
Qed.

Lemma findIndex_None {A} (p : A -> bool) (l : list A) :
  findIndex p l = None <-> Forall (fun b => p b = false) l.
Proof.
  induction l as [| b l IH]; simpl; [by split |].
  destruct (p b) eqn:Hb.
  - split; [done |]. intros [Hb' _]%Forall_cons. congruence.
  - destruct (findIndex p l) as [j |]; simpl.
    + split; [done |]. intros [_ Hl]%Forall_cons. by apply IH in Hl.
    + split; [| done]. intros _. apply Forall_cons. split; [done |]. by apply IH.
Qed.

(** X15.  With an element of the list selected, bringToFront moves the
    first element with the selected id to the end of the list and
    sendToBack moves it to the start, all other elements keeping their
    order, and each pushes the new list as the last history entry. With
    nothing selected, or no element with the selected id, both leave the
    state unchanged. *)
Theorem layer_order_spec (s : State) :
  (truthy (selectedId s) = false \/
   Forall (fun el => id_is (selectedId s) (EditorElement.id el) = false)
     (elements s) ->
   bringToFront s = s /\ sendToBack s = s) /\
  (truthy (selectedId s) = true ->
   Exists (fun el => id_is (selectedId s) (EditorElement.id el) = true)
     (elements s) ->
   exists before el after,
     elements s = before ++ el :: after /\
     id_is (selectedId s) (EditorElement.id el) = true /\
     Forall (fun b => id_is (selectedId s) (EditorElement.id b) = false) before /\
     elements (bringToFront s) = before ++ after ++ [el] /\
     elements (sendToBack s) = el :: before ++ after /\
     elements (bringToFront s) ≡ₚ elements s /\
     elements (sendToBack s) ≡ₚ elements s /\
     last (history (bringToFront s)) =
       Some (new_snapshot (before ++ after ++ [el]) (pageSequence s)
               (setElements (before ++ after ++ [el]) s)) /\
     last (history (sendToBack s)) =
       Some (new_snapshot (el :: before ++ after) (pageSequence s)
               (setElements (el :: before ++ after) s)) /\
     pageSequence (bringToFront s) = pageSequence s /\
     pageSequence (sendToBack s) = pageSequence s /\
     selectedId (bringToFront s) = selectedId s /\
     selectedId (sendToBack s) = selectedId s).
Proof.
  split.
  - intros [Hsel | Hnone]; unfold bringToFront, sendToBack.
    + by rewrite Hsel.
    + apply findIndex_None in Hnone. rewrite Hnone.
      by destruct (negb (truthy (selectedId s))).
  - intros Hsel Hex. unfold bringToFront, sendToBack. rewrite Hsel. simpl.
    destruct (findIndex _ (elements s)) as [index |] eqn:Hfind.
    + destruct (findIndex_Some _ _ _ Hfind) as (el & Hel & Hp & Hbefore).
      rewrite Hel.
      exists (take index (elements s)), el, (drop (S index) (elements s)).
      split; [by rewrite take_drop_middle |].
      split; [exact Hp |]. split; [exact Hbefore |].
      destruct (saveToHistory_frame s
                  (splice_remove index (elements s) ++ [el]) (pageSequence s)
                  (setElements (splice_remove index (elements s) ++ [el]) s))
        as (_ & _ & Hs1 & He1 & _ & Hsel1 & _).
      destruct (saveToHistory_frame s
                  (el :: splice_remove index (elements s)) (pageSequence s)
                  (setElements (el :: splice_remove index (elements s)) s))
        as (_ & _ & Hs2 & He2 & _ & Hsel2 & _).
      simpl in Hs1, He1, Hsel1, Hs2, He2, Hsel2.
      rewrite He1, He2, Hs1, Hs2, Hsel1, Hsel2, !saveToHistory_history.
      unfold splice_remove. rewrite <- app_assoc.
      assert (Hperm : el :: take index (elements s) ++ drop (S index) (elements s)
                      ≡ₚ elements s).
      { rewrite <- (take_drop_middle (elements s) index el Hel) at 3.
        apply Permutation_middle. }
      split; [done |]. split; [done |].
      split.
      { etrans; [| exact Hperm]. rewrite app_assoc.
        symmetry. apply Permutation_cons_append. }
      split; [exact Hperm |].
      split; [apply pushed_history_last |].
      split; [apply pushed_history_last |].
      done.
    + apply findIndex_None in Hfind. apply Exists_exists in Hex as (el & Hin & Hp).
      rewrite Forall_forall in Hfind. specialize (Hfind el Hin). simpl in Hfind.
      congruence.
Qed.

Lemma layer_order_spec_witness :
  let a := created_element "a" "p0" 30 30 30 30 opened_state in
  let b := created_element "b" "p0" 60 60 30 30 opened_state in
  let s := setSelectedId (Some "a") (setElements [a; b] opened_state) in
  exists before el after,
    elements s = before ++ el :: after /\
    elements (bringToFront s) = before ++ after ++ [el].
Proof.
  intros a b s.
  destruct (proj2 (layer_order_spec s)) as (before & el & after & H1 & _ & _ & H2 & _).
  - reflexivity.
  - apply Exists_cons_hd. reflexivity.
  - by exists before, el, after.
Defined.

(** X16.  The Delete button of the properties panel removes exactly the
    elements with the selected id and clears the selection, but the
    snapshot it pushes on the history holds the element list from before
    the deletion. So, with a valid history and a non-negative index, undo
    followed by redo shows the deleted element again. *)
Theorem delete_selected_spec (s : State) :
  let s' := deleteSelected s in
  elements s' =
    List.filter (fun e => negb (id_is (selectedId s) (EditorElement.id e)))
      (elements s) /\
  (forall el, In el (elements s') <->
     In el (elements s) /\ id_is (selectedId s) (EditorElement.id el) = false) /\
  selectedId s' = None /\
  pageSequence s' = pageSequence s /\
  (exists snap,
     last (history s') = Some snap /\ snap_elements snap = elements s) /\
  (history_ok s -> 0 <= historyIndex s ->
     elements (redo (undo s')) = elements s).
Proof.
  intros s'. subst s'. unfold deleteSelected.
  set (remaining := List.filter _ (elements s)).
  set (s1 := setSelectedId None (setElements remaining s)).
  destruct (saveToHistory_frame s (elements s) (pageSequence s) s1)
    as (_ & _ & Hs & He & _ & Hsel & _).
  simpl in Hs, He, Hsel.
  split; [exact He |].
  split.
  { intros el. rewrite He. subst remaining. rewrite filter_In.
    by rewrite negb_true_iff. }
  split; [exact Hsel |]. split; [exact Hs |].
  split.
  { eexists. split; [rewrite saveToHistory_history; apply pushed_history_last |].
    reflexivity. }
  intros Hok Hnn.
  set (s2 := saveToHistory s (elements s) (pageSequence s) s1).
  assert (Hok2 : history_ok s2) by (apply saveToHistory_history_ok; apply Hok).
  assert (Hu : undo_enabled s2 = true) by by apply saveToHistory_undo_enabled.
  destruct (undo_redo_undo s2 Hok2 Hu) as (_ & _ & Hcur).
  destruct (Hcur _ (saveToHistory_current s (elements s) (pageSequence s) s1 Hok))
    as [Hels _].
  exact Hels.
Qed.

Lemma delete_selected_spec_witness :
  let a := created_element "a" "p0" 30 30 30 30 opened_state in
  let s := setSelectedId (Some "a") (setElements [a] opened_state) in
  history_ok s /\ elements (deleteSelected s) = [] /\
  elements (redo (undo (deleteSelected s))) = elements s.
Proof.
  intros a s.
  assert (H : history_ok s) by (unfold history_ok; simpl; lia).
  split; [exact H |]. split; [reflexivity |].
  apply (delete_selected_spec s); [exact H | simpl; lia].
Defined.

(** ** Colours *)

Lemma hex_digit_range c n : hex_digit c = Some n -> 0 <= n <= 15.
Proof.
  unfold hex_digit.
  repeat match goal with
         | |- context [?a <=? ?b] => destruct (Z.leb_spec a b)
         end; simpl; intros [= <-]; lia.
Qed.

Lemma hex_pair_range a b n : hex_pair a b = Some n -> 0 <= n <= 255.
Proof.
  unfold hex_pair.
  destruct (hex_digit a) as [u |] eqn:Hu; [| done].
  destruct (hex_digit b) as [v |] eqn:Hv; [| done].
  apply hex_digit_range in Hu, Hv. intros [= <-]. lia.
Qed.

Lemma component_range n : 0 <= n <= 255 -> (0 <= IZR n / 255 <= 1)%R.
Proof.
  intros [H0 H1]. apply IZR_le in H0, H1. lra.
Qed.

(** X17.  For every string, each of the three colour components that
    hexToRgb returns lies between 0 and 1. *)
Theorem hexToRgb_range (hex : string) :
  (0 <= red (hexToRgb hex) <= 1)%R /\
  (0 <= green (hexToRgb hex) <= 1)%R /\
  (0 <= blue (hexToRgb hex) <= 1)%R.
Proof.
  unfold hexToRgb.
  set (body := match hex with
               | String (Ascii.Ascii true true false false false true false false) rest
                   => rest
               | _ => hex
               end).
  assert (Hblack : (0 <= red (rgb 0 0 0) <= 1)%R /\
                   (0 <= green (rgb 0 0 0) <= 1)%R /\
                   (0 <= blue (rgb 0 0 0) <= 1)%R) by (simpl; lra).
  destruct body as [| a [| b [| c [| d [| e [| f [| ? ?]]]]]]]; try exact Hblack.
  destruct (hex_pair a b) as [r |] eqn:Hr; [| exact Hblack].
  destruct (hex_pair c d) as [g |] eqn:Hg; [| exact Hblack].
  destruct (hex_pair e f) as [bl |] eqn:Hb; [| exact Hblack].
  simpl. apply hex_pair_range in Hr, Hg, Hb.
  repeat split; by apply component_range.
Qed.

(** ** What a handler adds to the trace, and when it fails *)

Section Traced.
Context {St : Type} (P : Event -> Prop).

Lemma traced_ret {A} (Q : A -> Prop) (a : A) :
  Q a -> traced P Q (mret a : M St A).
Proof.
  intros Ha lib tr s. exists [].
  split; [unfold adds; simpl; by rewrite app_nil_r |]. by split.
Qed.

Lemma traced_emit e : P e -> traced P any_value (emit e : M St unit).
Proof.
  intros He lib tr s. exists [e]. split; [reflexivity |].
  split; [by apply Forall_singleton | done].
Qed.

Lemma traced_modify f : traced P any_value (modify f : M St unit).
Proof.
  intros lib tr s. exists [].
  split; [unfold adds; simpl; by rewrite app_nil_r |]. by split.
Qed.

Lemma traced_library : traced P any_value (library : M St Library).
Proof.
  intros lib tr s. exists [].
  split; [unfold adds; simpl; by rewrite app_nil_r |]. by split.
Qed.

Lemma traced_call c :
  P (Call c) -> P (Throw c) -> traced P any_value (call c : M St unit).
Proof.
  intros H1 H2 lib tr s. unfold adds, call.
  destruct (throws lib tr c).
  - exists [Throw c]. split; [done |]. split; [by apply Forall_singleton |].
    exists c. by left.
  - exists [Call c]. split; [done |]. split; [by apply Forall_singleton | done].
Qed.

Lemma traced_call_throwing {A} (Q : A -> Prop) c :
  P (Throw c) -> traced P Q (call_throwing c : M St A).
Proof.
  intros H lib tr s. exists [Throw c]. split; [done |].
  split; [by apply Forall_singleton |]. exists c. by left.
Qed.

Lemma traced_bind {A B} (Q1 : A -> Prop) (Q2 : B -> Prop)
    (m : M St A) (k : A -> M St B) :
  traced P Q1 m -> (forall a, Q1 a -> traced P Q2 (k a)) ->
  traced P Q2 (m ≫= k).
Proof.
  intros Hm Hk lib tr s. unfold adds, mbind, M_bind.
  destruct (Hm lib tr s) as (ev1 & Hev1 & HP1 & Hv1). unfold adds in Hev1.
  destruct (m lib tr s) as [tr1 s1 [a |]]; simpl in *; subst tr1.
  - destruct (Hk a Hv1 lib (tr ++ ev1) s1) as (ev2 & Hev2 & HP2 & Hv2).
    unfold adds in Hev2. exists (ev1 ++ ev2).
    split; [by rewrite Hev2, app_assoc |].
    split; [by apply Forall_app |].
    destruct (res_value (k a lib (tr ++ ev1) s1)); [done |].
    destruct Hv2 as [c Hc]. exists c. apply in_or_app. by right.
  - exists ev1. by repeat split.
Qed.

Lemma traced_weaken {A} (Q Q' : A -> Prop) (m : M St A) :
  (forall a, Q a -> Q' a) -> traced P Q m -> traced P Q' m.
Proof.
  intros HQ Hm lib tr s.
  destruct (Hm lib tr s) as (ev & Hev & HP & Hv).
  exists ev. split; [done |]. split; [done |].
  destruct (res_value (m lib tr s)); [by apply HQ | done].
Qed.

Lemma traced_try_catch {A} (Q : A -> Prop) (m h : M St A) :
  traced P Q m -> traced P Q h -> traced P Q (try_catch m h).
Proof.
  intros Hm Hh lib tr s. unfold adds, try_catch.
  destruct (Hm lib tr s) as (ev1 & Hev1 & HP1 & Hv1). unfold adds in Hev1.
  destruct (m lib tr s) as [tr1 s1 [a |]]; simpl in *; subst tr1.
  - exists ev1. by repeat split.
  - destruct (Hh lib (tr ++ ev1) s1) as (ev2 & Hev2 & HP2 & Hv2).
    unfold adds in Hev2. exists (ev1 ++ ev2).
    split; [by rewrite Hev2, app_assoc |].
    split; [by apply Forall_app |].
    destruct (res_value (h lib (tr ++ ev1) s1)); [done |].
    destruct Hv2 as [c Hc]. exists c. apply in_or_app. by right.
Qed.

Lemma traced_for_each_from {A} (l : list A) (f : nat -> A -> M St unit) i :
  (forall j a, traced P any_value (f j a)) ->
  traced P any_value (for_each_from i l f).
Proof.
  intros Hf. revert i. induction l as [| a l IH]; intros i; simpl.
  - by apply traced_ret.
  - eapply traced_bind; [apply Hf | intros _ _; apply IH].
Qed.

Lemma traced_for_each {A} (l : list A) (f : nat -> A -> M St unit) :
  (forall j a, traced P any_value (f j a)) -> traced P any_value (for_each l f).
Proof. apply traced_for_each_from. Qed.

End Traced.

Ltac traced_step :=
  first
    [ apply traced_ret; exact I
    | apply traced_emit; exact I
    | apply traced_modify
    | apply traced_library
    | apply traced_call; exact I
    | apply traced_call_throwing; exact I
    | apply (traced_bind _ any_value); [| intros ? _]
    | apply traced_try_catch
    | apply traced_for_each; intros ? ?
    | match goal with
      | |- traced _ _ (if ?b then _ else _) => destruct b
      | |- traced _ _ (match ?x with _ => _ end) => destruct x
      end ].

(** *** The pages of the output document *)

Lemma plain_events ev :
  Forall plain_event ev ->
  Forall call_event ev /\
  List.filter adds_page ev = [] /\ List.filter rotation_failed ev = [].
Proof.
  induction ev as [| e ev IH]; intros H; [done |].
  apply Forall_cons in H as [He H]. destruct (IH H) as (H1 & H2 & H3).
  destruct e as [c | c | | | | | | | |]; simpl in He; try done;
    (split; [by constructor |]);
    destruct c as [| | | | | | ? []| | | | | | | | | |];
    try discriminate He; simpl; by rewrite ?H2, ?H3.
Qed.

Lemma page_count_app ev1 ev2 n k :
  page_count ev1 n -> page_count ev2 k -> page_count (ev1 ++ ev2) (n + k).
Proof.
  unfold page_count. rewrite !List.filter_app, !length_app. lia.
Qed.

Lemma page_count_plain ev : Forall plain_event ev -> page_count ev 0.
Proof.
  intros H. destruct (plain_events ev H) as (_ & H1 & H2).
  unfold page_count. by rewrite H1, H2.
Qed.

Lemma length_added_pages source copied ev :
  length (added_pages source copied ev) = length (List.filter adds_page ev).
Proof.
  revert copied. induction ev as [| e ev IH]; intros copied; [done |].
  destruct e as [c | c | | | | | | | |]; simpl; try apply IH.
  destruct c as [| | | [| ? []] | | | | | | | | | | | | |]; simpl;
    by rewrite ?IH.
Qed.

Section Counted.
Context {St : Type}.

Lemma counted_ret {A} (Q : A -> list Event -> Prop) (a : A) :
  Q a [] -> counted Q (mret a : M St A).
Proof.
  intros Ha lib tr s. exists [].
  split; [unfold adds; simpl; by rewrite app_nil_r |]. by split.
Qed.

Lemma counted_bind {A B} (Q1 : A -> list Event -> Prop)
    (Q2 : A -> B -> list Event -> Prop) (Q : B -> list Event -> Prop)
    (m : M St A) (k : A -> M St B) :
  counted Q1 m -> (forall a, counted (Q2 a) (k a)) ->
  (forall a b ev1 ev2, Q1 a ev1 -> Q2 a b ev2 -> Q b (ev1 ++ ev2)) ->
  counted Q (m ≫= k).
Proof.
  intros Hm Hk HQ lib tr s. unfold adds, mbind, M_bind.
  destruct (Hm lib tr s) as (ev1 & Hev1 & HP1 & Hv1). unfold adds in Hev1.
  destruct (m lib tr s) as [tr1 s1 [a |]]; simpl in *; subst tr1.
  - destruct (Hk a lib (tr ++ ev1) s1) as (ev2 & Hev2 & HP2 & Hv2).
    unfold adds in Hev2. exists (ev1 ++ ev2).
    split; [by rewrite Hev2, app_assoc |].
    split; [by apply Forall_app |].
    destruct (res_value (k a lib (tr ++ ev1) s1)) as [b |]; [by apply (HQ a) |].
    destruct Hv2 as [c Hc]. exists c. apply in_or_app. by right.
  - exists ev1. by repeat split.
Qed.

Lemma counted_weaken {A} (Q Q' : A -> list Event -> Prop) (m : M St A) :
  (forall a ev, Q a ev -> Q' a ev) -> counted Q m -> counted Q' m.
Proof.
  intros HQ Hm lib tr s.
  destruct (Hm lib tr s) as (ev & Hev & HP & Hv).
  exists ev. split; [done |]. split; [done |].
  destruct (res_value (m lib tr s)); [by apply HQ | done].
Qed.

Lemma counted_recording {A} (Q : A -> list Event -> Prop) (m : M St A) :
  counted Q m ->
  counted (fun r ev => Q (fst r) ev /\ snd r = ev) (recording m).
Proof.
  intros Hm lib tr s. unfold adds, recording.
  destruct (Hm lib tr s) as (ev & Hev & HP & Hv). unfold adds in Hev.
  destruct (m lib tr s) as [tr1 s1 [a |]]; simpl in *; subst tr1;
    exists ev; (split; [done |]); (split; [done |]); [| done].
  split; [done |]. by rewrite drop_app_length.
Qed.

Lemma counted_traced {A} (Q : A -> Prop) (m : M St A) :
  traced plain_event Q m ->
  counted (fun a ev => Q a /\ Forall plain_event ev) m.
Proof.
  intros Hm lib tr s.
  destruct (Hm lib tr s) as (ev & Hev & HP & Hv).
  exists ev. split; [done |]. split; [by apply plain_events |].
  by destruct (res_value (m lib tr s)).
Qed.

End Counted.

Ltac traced_plain_step :=
  first
    [ apply traced_ret; exact I
    | apply traced_modify
    | apply traced_library
    | apply traced_call; reflexivity
    | apply traced_call_throwing; reflexivity
    | apply (traced_bind _ any_value); [| intros ? _]
    | apply traced_try_catch
    | apply traced_for_each; intros ? ?
    | match goal with
      | |- traced _ _ (call (if ?b then _ else _)) => destruct b
      | |- traced _ _ (if ?b then _ else _) => destruct b
      | |- traced _ _ (match ?x with _ => _ end) => destruct x
      end ].

(** A step of the run of a handler: the next call returns or throws. *)
Ltac next_call :=
  match goal with
  | |- context [throws ?lib ?tr ?c] => destruct (throws lib tr c); simpl
  end.

Lemma counted_addOutputPage {St} flatten src i meta :
  counted (fun _ ev => page_count ev 1)
    (addOutputPage flatten src i meta : M St PageSize).
Proof.
  intros lib tr s. unfold adds, addOutputPage, page_count.
  destruct (PageMetadata.originalIndex meta =? -1);
    [| destruct src as [source |];
       [destruct (_ && _);
        [unfold copyPage; destruct (js_index _ _) |] |]];
    unfold try_catch, addBlankPage, mbind, M_bind, call, call_throwing;
    simpl; repeat next_call; rewrite <- ?app_assoc; simpl;
    eexists; (split; [reflexivity |]); (split; [by repeat constructor |]);
    simpl; first [ reflexivity | eexists; simpl; tauto ].
Qed.

Lemma counted_exportPage {St} flatten cl src i meta :
  counted (fun _ ev => page_count ev 1)
    (exportPage flatten cl src i meta : M St PageSize).
Proof.
  unfold exportPage.
  eapply (counted_bind _ (fun _ _ ev => Forall plain_event ev));
    [apply counted_addOutputPage | |].
  - intros size.
    apply (counted_weaken (fun a ev => any_value a /\ Forall plain_event ev));
      [by intros a ev [_ H] |].
    apply counted_traced.
    unfold drawPageNumber, drawWatermark, replayElement, replayRedaction.
    repeat traced_plain_step.
  - intros ? ? ev1 ev2 H1 H2.
    replace 1%nat with (1 + 0)%nat by done.
    apply page_count_app; [done | by apply page_count_plain].
Qed.

Lemma counted_exportPages {St} flatten cl src i metas :
  counted (fun _ ev => page_count ev (length metas))
    (exportPages flatten cl src i metas : M St (list PageSize)).
Proof.
  revert i. induction metas as [| meta metas IH]; intros i; simpl.
  - by apply counted_ret.
  - eapply (counted_bind _ (fun _ _ ev => page_count ev (length metas)));
      [apply counted_exportPage | |].
    + intros size.
      eapply (counted_bind _ (fun _ _ ev => ev = [])); [apply IH | |].
      * intros sizes. by apply counted_ret.
      * intros ? ? ev1 ev2 H1 ->. by rewrite app_nil_r.
    + intros ? ? ev1 ev2 H1 H2.
      replace (S (length metas)) with (1 + length metas)%nat by done.
      by apply page_count_app.
Qed.

Lemma counted_plain_call {St} c :
  in_page_block c = false ->
  counted (fun _ ev => Forall plain_event ev) (call c : M St unit).
Proof.
  intros Hc.
  apply (counted_weaken (fun a ev => any_value a /\ Forall plain_event ev));
    [by intros a ev [_ H] |].
  apply counted_traced. by apply traced_call.
Qed.

(** The file that [buildOutput] answers has a page for every entry of the
    page sequence, and one more for every [setRotation] that threw. *)
Lemma counted_buildOutput {St} flatten cl :
  counted
    (fun out ev =>
       length (file_pages out) =
         (length (pages cl) + length (List.filter rotation_failed ev))%nat)
    (buildOutput flatten cl : M St PdfFile).
Proof.
  assert (Hplain : forall out ev1 ev2,
            Forall plain_event ev1 ->
            length (file_pages out) =
              (length (pages cl) + length (List.filter rotation_failed ev2))%nat ->
            length (file_pages out) =
              (length (pages cl)
               + length (List.filter rotation_failed (ev1 ++ ev2)))%nat).
  { intros out ev1 ev2 H1 H2. destruct (plain_events ev1 H1) as (_ & _ & Hr).
    by rewrite List.filter_app, Hr. }
  set (Qout := fun (out : PdfFile) ev =>
                 length (file_pages out) =
                   (length (pages cl)
                    + length (List.filter rotation_failed ev))%nat) in *.
  unfold buildOutput.
  eapply (counted_bind (fun _ ev => Forall plain_event ev) (fun _ => Qout)).
  { destruct (fileBytes cl).
    - eapply (counted_bind _ (fun _ _ ev => ev = []));
        [by apply counted_plain_call | intros; by apply counted_ret |].
      intros ? ? ev1 ev2 H1 ->. by rewrite app_nil_r.
    - by apply counted_ret. }
  2: { intros ? out ev1 ev2 H1 H2. apply (Hplain out ev1 ev2 H1 H2). }
  intros sourceDoc.
  do 5 (eapply (counted_bind (fun _ ev => Forall plain_event ev)
                  (fun _ => Qout));
        [by apply counted_plain_call | intros ?
        | intros ? out ev1 ev2 H1 H2; apply (Hplain out ev1 ev2 H1 H2)]).
  eapply (counted_bind _
            (fun made out ev =>
               Forall plain_event ev /\
               out = {| file_pages := added_pages sourceDoc blank_page (snd made) |}));
    [apply counted_recording, counted_exportPages | |].
  - intros made.
    eapply (counted_bind (fun _ ev => Forall plain_event ev)
              (fun _ out ev =>
                 ev = [] /\
                 out = {| file_pages :=
                            added_pages sourceDoc blank_page (snd made) |}));
      [by apply counted_plain_call | intros; by apply counted_ret |].
    intros ? out ev1 ev2 H1 [-> ->]. by rewrite app_nil_r.
  - intros made out ev1 ev2 [Hcount Hmade] [Hplain2 ->]. subst Qout. simpl.
    destruct (plain_events ev2 Hplain2) as (_ & _ & Hr).
    rewrite length_added_pages, Hmade, List.filter_app, Hr, app_nil_r.
    exact Hcount.
Qed.

Lemma traced_recording {St A} P (m : M St A) :
  traced P any_value m -> traced P any_value (recording m).
Proof.
  intros Hm lib tr s. unfold adds, recording.
  destruct (Hm lib tr s) as (ev & Hev & HP & Hv). unfold adds in Hev.
  destruct (m lib tr s) as [tr1 s1 [a |]]; simpl in *; subst tr1;
    by exists ev.
Qed.

Ltac traced_export_step :=
  first
    [ match goal with
      | |- traced _ _ (call (if ?b then _ else _)) => destruct b
      end
    | traced_step ].

Lemma traced_export_exportPages {St} flatten cl src i metas :
  traced export_event any_value
    (exportPages flatten cl src i metas : M St (list PageSize)).
Proof.
  revert i. induction metas as [| meta metas IH]; intros i; simpl.
  - by apply traced_ret.
  - apply (traced_bind _ any_value).
    { unfold exportPage, addOutputPage, addBlankPage, copyPage, drawPageNumber,
        drawWatermark, replayElement, replayRedaction.
      repeat traced_export_step. }
    intros size _. apply (traced_bind _ any_value); [apply IH | intros sizes _].
    by apply traced_ret.
Qed.

(** [buildOutput] does not call [getDocument]. *)
Lemma buildOutput_no_getDocument {St} flatten cl lib tr (s : St) ev :
  adds (buildOutput flatten cl) lib tr s ev -> ~ In (Throw getDocument) ev.
Proof.
  assert (H : traced export_event any_value (buildOutput flatten cl : M St PdfFile)).
  { unfold buildOutput.
    apply (traced_bind _ any_value);
      [destruct (fileBytes cl); repeat traced_step | intros sourceDoc _].
    do 5 (apply (traced_bind _ any_value); [by apply traced_call | intros ? _]).
    apply (traced_bind _ any_value);
      [apply traced_recording, traced_export_exportPages | intros made _].
    repeat traced_step. }
  destruct (H lib tr s) as (ev' & Hev' & HP & _).
  unfold adds. intros Hev Hin. unfold adds in Hev'.
  assert (ev' = ev) by (apply (app_inv_head tr); congruence). subst ev'.
  rewrite Forall_forall in HP. by apply list_elem_of_In, HP in Hin.
Qed.

(** ** The outcome of an export *)

Lemma buildOutput_state flatten cl lib tr (s : State) :
  res_state (buildOutput flatten cl lib tr s) = s.
Proof.
  exact (preserves_buildOutput (fun s' => s' = s) flatten cl lib tr s eq_refl).
Qed.

(** X18.  handleDownload never changes the state of the editor. With an
    empty page sequence it does nothing; otherwise it sets the saving
    flag, makes library calls only, and ends either with the download of a
    file that has one page for every page object of the page sequence and
    one more for every setRotation that threw (its catch block adds a
    blank page after the copied one), named after the document title
    ('document' when the title is empty), or, after a call has thrown,
    with a console error and the alert 'Error generating PDF.'; the saving
    flag is reset last in both cases. *)
Theorem download_outcome (lib : Library) (cl s : State) :
  let tr := trace_of (handleDownload cl) lib s in
  let name :=
    (if String.eqb (docTitle cl) "" then "document" else docTitle cl) +:+ ".pdf" in
  res_state (handleDownload cl lib [] s) = s /\
  (pageSequence cl = [] -> tr = []) /\
  (pageSequence cl <> [] ->
   exists ev,
     Forall call_event ev /\
     ((exists out,
         tr = [SetFlag isSaving true] ++ ev
                ++ [Download name out; SetFlag isSaving false] /\
         length (file_pages out) =
           (length (pages cl) + length (List.filter rotation_failed ev))%nat) \/
      (tr = [SetFlag isSaving true] ++ ev
              ++ [ConsoleError "PDF Gen Error:"; Alert "Error generating PDF.";
                  SetFlag isSaving false] /\
       exists c, In (Throw c) ev))).
Proof.
  intros tr name. split; [apply handleDownload_state |].
  subst tr. unfold trace_of, handleDownload.
  destruct (pageSequence cl) as [| r rs]; [by split |].
  split; [done |]. intros _. simpl.
  unfold download_try, download_catch, download_finally, try_finally,
    try_catch, mbind, M_bind, emit. simpl.
  destruct (counted_buildOutput false cl lib [SetFlag isSaving true] s)
    as (ev & Hev & HP & Hv).
  unfold adds in Hev. exists ev. split; [exact HP |].
  destruct (buildOutput false cl lib [SetFlag isSaving true] s)
    as [tr1 s1 [out |]]; simpl in *; subst tr1.
  - left. exists out. split; [| exact Hv].
    by rewrite <- !app_assoc.
  - right. split; [| exact Hv]. by rewrite <- !app_assoc.
Qed.

Lemma download_outcome_witness :
  exists ev,
    Forall call_event ev /\
    ((exists out,
        trace_of (handleDownload two_page_state) failing_rotation_library
            two_page_state =
          [SetFlag isSaving true] ++ ev
            ++ [Download "report.pdf" out; SetFlag isSaving false] /\
        length (file_pages out) =
          (length (pages two_page_state)
           + length (List.filter rotation_failed ev))%nat) \/
     (trace_of (handleDownload two_page_state) failing_rotation_library
          two_page_state =
        [SetFlag isSaving true] ++ ev
          ++ [ConsoleError "PDF Gen Error:"; Alert "Error generating PDF.";
              SetFlag isSaving false] /\
      exists c, In (Throw c) ev)).
Proof.
  apply (download_outcome failing_rotation_library two_page_state two_page_state).
  rewrite two_page_state_eq. discriminate.
Defined.

Lemma deref_all_app h l rs :
  seq_ok (length h) rs -> deref_all (h ++ l) rs = deref_all h rs.
Proof.
  induction rs as [| r rs IH]; intros Hs; [done |].
  apply Forall_cons in Hs as [Hr Hs].
  rewrite !deref_all_cons, IH by done.
  by rewrite lookup_app_l by done.
Qed.

Lemma install_normalized_spec cl s :
  let s' := install_normalized cl s in
  elements s' = [] /\
  pages s' = normalized (pages cl) /\
  pageSequence s' = seq (length (heap s)) (length (normalized (pages cl))) /\
  keeps_objects s s' /\
  fileBytes s' = fileBytes s /\ pdfDoc s' = pdfDoc s /\
  history s' =
    pushed_history cl
      (new_snapshot [] (seq (length (heap s)) (length (normalized (pages cl))))
         (setElements []
            (setPageSequence (seq (length (heap s)) (length (normalized (pages cl))))
               (set_heap (heap s ++ normalized (pages cl)) s)))).
Proof.
  simpl. unfold install_normalized. rewrite alloc_all_spec.
  set (ps := normalized (pages cl)).
  set (rs := seq (length (heap s)) (length ps)).
  set (s0 := setElements [] (setPageSequence rs (set_heap (heap s ++ ps) s))).
  destruct (saveToHistory_frame cl [] rs s0) as (Hd & Hf & Hs & He & _).
  simpl in Hd, Hf, Hs, He.
  split; [exact He |]. split.
  { unfold pages. rewrite Hs, saveToHistory_heap. simpl.
    rewrite deref_all_app.
    - apply deref_all_fresh.
    - rewrite length_app. apply seq_ok_seq. }
  split; [exact Hs |]. split.
  { intros r p Hr. rewrite saveToHistory_heap. simpl.
    by do 2 apply lookup_app_l_Some. }
  split; [exact Hf |]. split; [exact Hd |].
  apply saveToHistory_history.
Qed.

(** X19.  With an empty page sequence flattenPDF does nothing. Otherwise
    it either alerts success and installs as the new document a file that
    has one page for every page object of the sequence and one more for
    every setRotation that threw, with an empty element list and the pages
    of the sequence renumbered, or, after a call has thrown, alerts 'Error
    flattening PDF.' and leaves elements, page sequence, page objects,
    history and the loaded document (pdfDoc) as they were. In that case
    fileBytes is as it was too, unless it was getDocument that threw: then
    fileBytes holds the flattened file already. The saving flag is reset
    in both cases. *)
Theorem flatten_outcome (lib : Library) (cl s : State) :
  let r := flattenPDF cl lib [] s in
  (pageSequence cl = [] -> r = mkRes [] s (Some tt)) /\
  (pageSequence cl <> [] ->
   exists ev,
     Forall call_event ev /\
     ((exists out,
         res_trace r =
           [SetFlag isSaving true] ++ ev
             ++ [Alert "PDF successfully flattened. All annotations and page numbers are now part of the base document.";
                 SetFlag isSaving false] /\
         length (file_pages out) =
           (length (pages cl) + length (List.filter rotation_failed ev))%nat /\
         fileBytes (res_state r) = Some out /\
         pdfDoc (res_state r) = Some out /\
         elements (res_state r) = [] /\
         pages (res_state r) = normalized (pages cl) /\
         keeps_objects s (res_state r)) \/
      (res_trace r =
         [SetFlag isSaving true] ++ ev
           ++ [ConsoleError "PDF Flatten Error:"; Alert "Error flattening PDF.";
               SetFlag isSaving false] /\
       (exists c, In (Throw c) ev) /\
       elements (res_state r) = elements s /\
       pageSequence (res_state r) = pageSequence s /\
       heap (res_state r) = heap s /\
       history (res_state r) = history s /\
       historyIndex (res_state r) = historyIndex s /\
       pdfDoc (res_state r) = pdfDoc s /\
       (~ In (Throw getDocument) ev -> fileBytes (res_state r) = fileBytes s) /\
       (In (Throw getDocument) ev ->
        exists out,
          fileBytes (res_state r) = Some out /\
          length (file_pages out) =
            (length (pages cl) + length (List.filter rotation_failed ev))%nat)))).
Proof.
  intros r. subst r. unfold flattenPDF.
  destruct (pageSequence cl) as [| r0 rs]; [by split |].
  split; [done |]. intros _. simpl.
  unfold flatten_try, flatten_catch, flatten_finally, try_finally,
    try_catch, mbind, M_bind, emit, modify, call. simpl.
  destruct (counted_buildOutput true cl lib [SetFlag isSaving true] s)
    as (ev & Hev & HP & Hv).
  pose proof (buildOutput_state true cl lib [SetFlag isSaving true] s) as Hst.
  pose proof (buildOutput_no_getDocument true cl lib [SetFlag isSaving true] s
                ev Hev) as Hno.
  unfold adds in Hev.
  destruct (buildOutput true cl lib [SetFlag isSaving true] s)
    as [tr1 s1 [out |]]; simpl in *; subst tr1 s1.
  - destruct (throws lib (SetFlag isSaving true :: ev) getDocument); simpl.
    + exists (ev ++ [Throw getDocument]).
      split; [apply Forall_app; split; [done | by apply Forall_singleton] |].
      right. split; [by rewrite <- !app_assoc |].
      split; [exists getDocument; apply in_or_app; right; by left |].
      do 6 (split; [done |]). split.
      * intros Hnot. exfalso. apply Hnot. apply in_or_app. right. by left.
      * intros _. exists out. split; [done |].
        rewrite List.filter_app. simpl. by rewrite app_nil_r.
    + exists (ev ++ [Call getDocument]).
      split; [apply Forall_app; split; [done | by apply Forall_singleton] |].
      left. exists out. split; [by rewrite <- !app_assoc |].
      split; [rewrite List.filter_app; simpl; by rewrite app_nil_r |].
      destruct (install_normalized_spec cl
                  (setPdfDoc (Some out) (setFileBytes (Some out) s)))
        as (He & Hp & _ & Hk & Hf & Hd & _).
      simpl in He, Hp, Hk, Hf, Hd.
      by repeat split.
  - exists ev. split; [exact HP |]. right.
    split; [by rewrite <- !app_assoc |]. split; [exact Hv |].
    do 6 (split; [done |]). split; [done |].
    intros Hin. by destruct (Hno Hin).
Qed.

Lemma flatten_outcome_witness :
  let r := flattenPDF opened_state failing_getDocument_library [] opened_state in
  exists ev,
    Forall call_event ev /\
    ((exists out,
        res_trace r =
          [SetFlag isSaving true] ++ ev
            ++ [Alert "PDF successfully flattened. All annotations and page numbers are now part of the base document.";
                SetFlag isSaving false] /\
        length (file_pages out) =
          (length (pages opened_state)
           + length (List.filter rotation_failed ev))%nat /\
        fileBytes (res_state r) = Some out /\
        pdfDoc (res_state r) = Some out /\
        elements (res_state r) = [] /\
        pages (res_state r) = normalized (pages opened_state) /\
        keeps_objects opened_state (res_state r)) \/
     (res_trace r =
        [SetFlag isSaving true] ++ ev
          ++ [ConsoleError "PDF Flatten Error:"; Alert "Error flattening PDF.";
              SetFlag isSaving false] /\
      (exists c, In (Throw c) ev) /\
      elements (res_state r) = elements opened_state /\
      pageSequence (res_state r) = pageSequence opened_state /\
      heap (res_state r) = heap opened_state /\
      history (res_state r) = history opened_state /\
      historyIndex (res_state r) = historyIndex opened_state /\
      pdfDoc (res_state r) = pdfDoc opened_state /\
      (~ In (Throw getDocument) ev ->
       fileBytes (res_state r) = fileBytes opened_state) /\
      (In (Throw getDocument) ev ->
       exists out,
         fileBytes (res_state r) = Some out /\
         length (file_pages out) =
           (length (pages opened_state)
            + length (List.filter rotation_failed ev))%nat))).
Proof.
  intros r.
  apply (proj2 (flatten_outcome failing_getDocument_library opened_state
                  opened_state)).
  rewrite opened_state_eq. discriminate.
Defined.

(** ** The outcome of a merge *)

Lemma traced_mergeFiles files :
  traced call_event (fun ps => ps = concat (map file_pages files))
    (mergeFiles files).
Proof.
  induction files as [| pdf files IH]; simpl.
  - by apply traced_ret.
  - eapply traced_bind.
    { instantiate (1 := fun ps => ps = file_pages pdf). unfold mergeFile.
      do 4 (apply (traced_bind _ any_value); [repeat traced_step | intros ? _]).
      by apply traced_ret. }
    intros ps ->.
    eapply traced_bind; [apply IH | intros qs ->]. by apply traced_ret.
Qed.

(** An exception that escapes: the events added hold a throw, and the
    other way round when no [try] block catches. *)
Lemma raises_every_call_value {St A} (m : M St A) lib tr s ev :
  raises every_call m ->
  res_trace (m lib tr s) = tr ++ ev ->
  (exists c, In (Throw c) ev) -> res_value (m lib tr s) = None.
Proof.
  intros Hm Hev [c Hc].
  destruct (Hm lib tr s) as (ev' & Hev' & Hthrow). unfold adds in Hev'.
  rewrite Hev in Hev'. apply app_inv_head in Hev'. subst ev'.
  by apply (Hthrow c).
Qed.

Lemma no_throw_when_returned {St A} (m : M St A) lib tr s ev a :
  raises every_call m ->
  res_trace (m lib tr s) = tr ++ ev ->
  res_value (m lib tr s) = Some a ->
  Forall not_a_throw ev.
Proof.
  intros Hm Hev Hv. apply Forall_forall. intros e He.
  destruct e as [| c | | | | | | | |]; try exact I.
  apply list_elem_of_In in He.
  rewrite (raises_every_call_value m lib tr s ev Hm Hev) in Hv;
    [done | by exists c].
Qed.

(** X20.  With no files mergePdfs does nothing. Otherwise it sets the
    merging flag and either no call throws and it downloads, as
    merged-document-<time>.pdf, a document whose pages are the pages of
    all files in list order, or a call throws and it logs the error and
    alerts 'Failed to merge PDFs. Please ensure all files are valid
    PDFs.'; the merging flag is reset in both cases. *)
Theorem merge_outcome (lib : Library) (files : list PdfFile) (now : string) :
  let tr := trace_of (mergePdfs files now) lib tt in
  (files = [] -> tr = []) /\
  (files <> [] ->
   exists ev,
     Forall call_event ev /\
     ((tr = [SetFlag isMerging true] ++ ev
              ++ [Download ("merged-document-" +:+ now +:+ ".pdf")
                    {| file_pages := concat (map file_pages files) |};
                  SetFlag isMerging false] /\
       Forall not_a_throw ev) \/
      (tr = [SetFlag isMerging true] ++ ev
              ++ [ConsoleError "Error merging PDFs:";
                  Alert "Failed to merge PDFs. Please ensure all files are valid PDFs.";
                  SetFlag isMerging false] /\
       exists c, In (Throw c) ev))).
Proof.
  intros tr. subst tr. unfold trace_of, mergePdfs.
  destruct files as [| pdf files]; [by split |].
  split; [done |]. intros _.
  change (Nat.eqb (length (pdf :: files)) 0) with false. cbv iota.
  set (fs := pdf :: files).
  unfold merge_try, merge_catch, merge_finally, try_finally, try_catch,
    mbind, M_bind, emit, call.
  change ([] ++ [SetFlag isMerging true]) with [SetFlag isMerging true].
  destruct (throws lib [SetFlag isMerging true] PDFDocument_create).
  { exists [Throw PDFDocument_create].
    split; [by apply Forall_singleton |]. right.
    split; [reflexivity |]. exists PDFDocument_create. by left. }
  destruct (traced_mergeFiles fs lib
              ([SetFlag isMerging true] ++ [Call PDFDocument_create]) tt)
    as (ev1 & Hev1 & HP1 & Hv1).
  unfold adds in Hev1.
  pose proof (no_throw_when_returned (mergeFiles fs) lib
                ([SetFlag isMerging true] ++ [Call PDFDocument_create]) tt ev1)
    as Hquiet.
  destruct (mergeFiles fs lib
              ([SetFlag isMerging true] ++ [Call PDFDocument_create]) tt)
    as [tr1 [] [ps |]]; simpl in Hev1, Hv1, Hquiet; subst tr1.
  - subst ps.
    specialize (Hquiet _ (raises_mergeFiles fs) eq_refl eq_refl).
    destruct (throws lib _ save).
    + exists ([Call PDFDocument_create] ++ ev1 ++ [Throw save]).
      split.
      { apply Forall_app. split; [by apply Forall_singleton |].
        apply Forall_app. split; [done | by apply Forall_singleton]. }
      right. split; [simpl; by rewrite <- !app_assoc |].
      exists save. apply in_or_app. right. apply in_or_app. right. by left.
    + exists ([Call PDFDocument_create] ++ ev1 ++ [Call save]).
      split.
      { apply Forall_app. split; [by apply Forall_singleton |].
        apply Forall_app. split; [done | by apply Forall_singleton]. }
      left. split; [simpl; by rewrite <- !app_assoc |].
      apply Forall_app. split; [by apply Forall_singleton |].
      apply Forall_app. split; [done | by apply Forall_singleton].
  - exists ([Call PDFDocument_create] ++ ev1).
    split; [apply Forall_app; split; [by apply Forall_singleton | done] |].
    right. split; [simpl; by rewrite <- !app_assoc |].
    destruct Hv1 as [c Hc]. exists c. apply in_or_app. by right.
Qed.

Lemma merge_outcome_witness :
  let files := [ {| file_pages := [letter] |}; {| file_pages := [letter; letter] |} ] in
  exists ev,
    Forall call_event ev /\
    ((trace_of (mergePdfs files "0") quiet_library tt =
        [SetFlag isMerging true] ++ ev
          ++ [Download ("merged-document-" +:+ "0" +:+ ".pdf")
                {| file_pages := concat (map file_pages files) |};
              SetFlag isMerging false] /\
      Forall not_a_throw ev) \/
     (trace_of (mergePdfs files "0") quiet_library tt =
        [SetFlag isMerging true] ++ ev
          ++ [ConsoleError "Error merging PDFs:";
              Alert "Failed to merge PDFs. Please ensure all files are valid PDFs.";
              SetFlag isMerging false] /\
      exists c, In (Throw c) ev)).
Proof.
  intros files.
  apply (proj2 (merge_outcome quiet_library files "0")). discriminate.
Defined.

(** ** The outcome of a compression *)

Lemma canvas_dimension_bounds v :
  (v - 1 < canvas_dimension v <= v)%R.
Proof.
  unfold canvas_dimension. rewrite minus_IZR.
  destruct (archimed v) as [H1 H2]. lra.
Qed.

Lemma scaled_dimension_bounds (w sc : R) :
  (0 < sc)%R ->
  (w - 1 / sc < canvas_dimension (w * sc) / sc <= w)%R.
Proof.
  intros Hsc. destruct (canvas_dimension_bounds (w * sc)) as [H1 H2].
  set (d := canvas_dimension (w * sc)) in *. clearbody d.
  split.
  - apply (Rmult_lt_reg_r sc); [done |].
    replace ((w - 1 / sc) * sc)%R with (w * sc - 1)%R by (field; lra).
    replace (d / sc * sc)%R with d by (field; lra). done.
  - apply (Rmult_le_reg_r sc); [done |].
    replace (d / sc * sc)%R with d by (field; lra). done.
Qed.

Lemma compression_scale_pos level : (0 < fst (getCompressionSettings level))%R.
Proof. destruct level; simpl; lra. Qed.

Lemma traced_compressPages sc q total i sizes :
  traced work_event
    (fun ps =>
       Forall2
         (fun p size =>
            page_width p = (canvas_dimension (page_width size * sc) / sc)%R /\
            page_height p = (canvas_dimension (page_height size * sc) / sc)%R)
         ps sizes)
    (compressPages sc q total i sizes).
Proof.
  revert i. induction sizes as [| size sizes IH]; intros i; simpl.
  - apply traced_ret. constructor.
  - eapply traced_bind.
    { instantiate
        (1 := fun p =>
                page_width p = (canvas_dimension (page_width size * sc) / sc)%R /\
                page_height p = (canvas_dimension (page_height size * sc) / sc)%R).
      unfold compressPage.
      do 7 (apply (traced_bind _ any_value); [repeat traced_step | intros ? _]).
      by apply traced_ret. }
    intros p Hp.
    eapply traced_bind; [apply IH | intros ps Hps].
    apply traced_ret. by constructor.
Qed.

(** X21.  Without a file compressPDF does nothing. Otherwise either no
    call throws and it stores a document with one page per page of the
    input, each at most as wide and high as the original and less than
    1/scale narrower or lower, and sets the progress to 100, or a call
    throws and it alerts 'An error occurred while compressing the PDF.';
    the compressing flag is reset in both cases. *)
Theorem compress_outcome (lib : Library) (file : option PdfFile)
    (level : CompressionLevel) :
  let tr := trace_of (compressPDF file level) lib tt in
  let sc := fst (getCompressionSettings level) in
  (file = None -> tr = []) /\
  (forall f, file = Some f ->
   exists ev,
     Forall work_event ev /\
     ((exists out,
         tr = [SetFlag isCompressing true; SetProgress 0] ++ ev
                ++ [SetCompressed out; SetProgress 100;
                    SetFlag isCompressing false] /\
         Forall not_a_throw ev /\
         Forall2
           (fun p size =>
              (page_width size - 1 / sc < page_width p <= page_width size)%R /\
              (page_height size - 1 / sc < page_height p <= page_height size)%R)
           (file_pages out) (file_pages f)) \/
      (tr = [SetFlag isCompressing true; SetProgress 0] ++ ev
              ++ [ConsoleError "Compression error:";
                  Alert "An error occurred while compressing the PDF.";
                  SetFlag isCompressing false] /\
       exists c, In (Throw c) ev))).
Proof.
  intros tr sc. subst tr. unfold trace_of, compressPDF.
  destruct file as [f |]; [| by split].
  split; [done |]. intros f' [= <-].
  pose proof (compression_scale_pos level) as Hsc. fold sc in Hsc.
  unfold compress_try, compress_catch, compress_finally, try_finally,
    try_catch. subst sc.
  destruct (getCompressionSettings level) as [sc q]. simpl in Hsc.
  unfold mbind, M_bind, emit, call.
  change (([] ++ [SetFlag isCompressing true]) ++ [SetProgress 0])
    with [SetFlag isCompressing true; SetProgress 0].
  set (tr0 := [SetFlag isCompressing true; SetProgress 0]).
  destruct (throws lib tr0 File_arrayBuffer).
  { exists [Throw File_arrayBuffer].
    split; [by apply Forall_singleton |]. right.
    split; [reflexivity |]. eexists. by left. }
  destruct (throws lib (tr0 ++ [Call File_arrayBuffer]) getDocument).
  { exists [Call File_arrayBuffer; Throw getDocument].
    split; [by repeat constructor |]. right.
    split; [reflexivity |]. eexists. right. by left. }
  destruct (throws lib ((tr0 ++ [Call File_arrayBuffer]) ++ [Call getDocument])
              PDFDocument_create).
  { exists [Call File_arrayBuffer; Call getDocument; Throw PDFDocument_create].
    split; [by repeat constructor |]. right.
    split; [reflexivity |]. eexists. right. right. by left. }
  set (tr3 := ((tr0 ++ [Call File_arrayBuffer]) ++ [Call getDocument])
                ++ [Call PDFDocument_create]).
  set (pre := [Call File_arrayBuffer; Call getDocument; Call PDFDocument_create]).
  assert (Hpre : Forall work_event pre) by by repeat constructor.
  assert (Hpre' : Forall not_a_throw pre) by by repeat constructor.
  assert (Htr3 : tr3 = tr0 ++ pre) by reflexivity.
  destruct (traced_compressPages sc q (length (file_pages f)) 1 (file_pages f)
              lib tr3 tt) as (ev1 & Hev1 & HP1 & Hv1).
  unfold adds in Hev1.
  pose proof (no_throw_when_returned
                (compressPages sc q (length (file_pages f)) 1 (file_pages f))
                lib tr3 tt ev1) as Hquiet.
  destruct (compressPages sc q (length (file_pages f)) 1 (file_pages f) lib tr3 tt)
    as [tr1 [] [ps |]]; simpl in Hev1, Hv1, Hquiet; subst tr1.
  - specialize (Hquiet _ (raises_compressPages _ _ _ _ _) eq_refl eq_refl).
    destruct (throws lib _ save).
    + exists (pre ++ ev1 ++ [Throw save]).
      split.
      { apply Forall_app. split; [done |].
        apply Forall_app. split; [done | by apply Forall_singleton]. }
      right. split; [subst tr3 pre tr0; simpl; rewrite <- ?app_assoc; reflexivity |].
      exists save. apply in_or_app. right. apply in_or_app. right. by left.
    + exists (pre ++ ev1 ++ [Call save]).
      split.
      { apply Forall_app. split; [done |].
        apply Forall_app. split; [done | by apply Forall_singleton]. }
      left. exists {| file_pages := ps |}.
      split; [subst tr3 pre tr0; simpl; rewrite <- ?app_assoc; reflexivity |].
      split.
      { apply Forall_app. split; [done |].
        apply Forall_app. split; [done | by apply Forall_singleton]. }
      simpl. eapply Forall2_impl; [exact Hv1 |].
      intros p size [-> ->]. split; by apply scaled_dimension_bounds.
  - exists (pre ++ ev1).
    split; [by apply Forall_app |].
    right. split; [subst tr3 pre tr0; simpl; rewrite <- ?app_assoc; reflexivity |].
    destruct Hv1 as [c Hc]. exists c. apply in_or_app. by right.
Qed.

Lemma compress_outcome_witness :
  let f := {| file_pages := [letter; letter] |} in
  let tr := trace_of (compressPDF (Some f) recommended) quiet_library tt in
  let sc := fst (getCompressionSettings recommended) in
  exists ev,
    Forall work_event ev /\
    ((exists out,
        tr = [SetFlag isCompressing true; SetProgress 0] ++ ev
               ++ [SetCompressed out; SetProgress 100;
                   SetFlag isCompressing false] /\
        Forall not_a_throw ev /\
        Forall2
          (fun p size =>
             (page_width size - 1 / sc < page_width p <= page_width size)%R /\
             (page_height size - 1 / sc < page_height p <= page_height size)%R)
          (file_pages out) (file_pages f)) \/
     (tr = [SetFlag isCompressing true; SetProgress 0] ++ ev
             ++ [ConsoleError "Compression error:";
                 Alert "An error occurred while compressing the PDF.";
                 SetFlag isCompressing false] /\
      exists c, In (Throw c) ev)).
Proof.
  intros f tr sc.
  apply (proj2 (compress_outcome quiet_library (Some f) recommended) f eq_refl).
Defined.

(** ** The outcome of opening a file *)

Lemma install_loaded_spec cl content ids s :
  let s' := install_loaded cl content ids s in
  pdfDoc s' = Some content /\
  pages s' = initialSequence (length (file_pages content)) ids /\
  length (pageSequence s') = length (file_pages content) /\
  elements s' = [] /\
  currentPageIndex s' = 0 /\
  fileBytes s' = fileBytes s /\
  docTitle s' = docTitle s /\
  keeps_objects s s'.
Proof.
  simpl. unfold install_loaded. rewrite alloc_all_spec.
  set (ps := initialSequence (length (file_pages content)) ids).
  set (rs := seq (length (heap s)) (length ps)).
  match goal with
  | |- context [saveToHistory cl [] rs ?s1] => set (s0 := s1)
  end.
  destruct (saveToHistory_frame cl [] rs s0) as (Hd & Hf & Hs & He & Hc & _).
  simpl in Hd, Hf, Hs, He, Hc.
  split; [exact Hd |]. split.
  { unfold pages. rewrite Hs, saveToHistory_heap. simpl.
    rewrite deref_all_app.
    - apply deref_all_fresh.
    - rewrite length_app. apply seq_ok_seq. }
  split.
  { rewrite Hs. subst rs ps. unfold initialSequence.
    by rewrite length_seq, length_map, length_seq. }
  split; [exact He |]. split; [exact Hc |]. split; [exact Hf |].
  split; [by rewrite saveToHistory_unfold |].
  intros r p Hr. rewrite saveToHistory_heap. simpl.
  by do 2 apply lookup_app_l_Some.
Qed.

Lemma text_extraction_state (n : nat) lib tr (s : State) :
  res_state
    (for_each (seq 1 n)
       (fun _ i => call (getPage (Z.of_nat i)) ;; call getTextContent) lib tr s)
  = s.
Proof.
  assert (H : preserves (fun s' => s' = s)
                (for_each (seq 1 n)
                   (fun _ i => call (getPage (Z.of_nat i)) ;; call getTextContent)))
    by repeat preserves_step.
  exact (H lib tr s eq_refl).
Qed.

Lemma run_bind_emit {St B} e (k : unit -> M St B) lib tr s :
  (emit e ≫= k) lib tr s = k tt lib (tr ++ [e]) s.
Proof. reflexivity. Qed.

Lemma run_bind_modify {St B} f (k : unit -> M St B) lib tr s :
  (modify f ≫= k) lib tr s = k tt lib tr (f s).
Proof. reflexivity. Qed.

Lemma run_bind_call {St B} c (k : unit -> M St B) lib tr s :
  (call c ≫= k) lib tr s =
    if throws lib tr c then mkRes (tr ++ [Throw c]) s None
    else k tt lib (tr ++ [Call c]) s.
Proof. unfold mbind, M_bind, call. by destruct (throws lib tr c). Qed.

Lemma handleFileUpload_run lib f ids cl s :
  let n := length (file_pages (file_content f)) in
  let tr0 := [SetFlag isLoading true; SetFileName (file_name f)] in
  let titled := setDocTitle (strip_extension (file_name f)) s in
  let read := setFileBytes (Some (file_content f)) titled in
  let reset := [SetFlag isLoading false; SetFlag isFileMenuOpen false] in
  handleFileUpload (Some f) ids cl lib [] s =
    if throws lib tr0 File_arrayBuffer
    then mkRes (tr0 ++ [Throw File_arrayBuffer]) titled None
    else if throws lib (tr0 ++ [Call File_arrayBuffer]) getDocument
    then mkRes (tr0 ++ [Call File_arrayBuffer; Throw getDocument;
                        Alert "Error loading PDF"] ++ reset) read (Some tt)
    else
      match
        for_each (seq 1 (Nat.min n 10))
          (fun _ i => call (getPage (Z.of_nat i)) ;; call getTextContent)
          lib (tr0 ++ [Call File_arrayBuffer; Call getDocument])
          (install_loaded cl (file_content f) ids read)
      with
      | mkRes tr3 s3 (Some _) =>
          mkRes (tr3 ++ [SetDocumentText (Nat.min n 10)] ++ reset) s3 (Some tt)
      | mkRes tr3 s3 None =>
          mkRes (tr3 ++ [Alert "Error loading PDF"] ++ reset) s3 (Some tt)
      end.
Proof.
  intros n tr0 titled read reset.
  unfold handleFileUpload.
  rewrite !run_bind_emit, run_bind_modify, run_bind_call.
  change (([] ++ [SetFlag isLoading true]) ++ [SetFileName (file_name f)])
    with tr0.
  fold titled.
  destruct (throws lib tr0 File_arrayBuffer); [reflexivity |].
  rewrite run_bind_modify. fold read.
  unfold try_finally, try_catch, upload_try.
  rewrite run_bind_call.
  destruct (throws lib (tr0 ++ [Call File_arrayBuffer]) getDocument);
    [reflexivity |].
  rewrite run_bind_modify. fold n.
  change ((tr0 ++ [Call File_arrayBuffer]) ++ [Call getDocument])
    with (tr0 ++ [Call File_arrayBuffer; Call getDocument]).
  unfold mbind at 1, M_bind at 1.
  destruct (for_each _ _ lib _ _) as [tr3 s3 [[] |]]; simpl;
    by rewrite <- ?app_assoc.
Qed.

(** X22.  Opening a file in the editor can fail in three ways: when
    reading the file throws, nothing is caught (no alert, the loading flag
    stays set, only the title has changed); when getDocument throws,
    'Error loading PDF' is alerted although fileBytes already holds the
    new file; when the text extraction throws, the same alert appears
    although the new document is installed. Once getDocument has succeeded
    the state shows the new document with its pages in order, no elements
    and page index 0. *)
Theorem upload_outcome (lib : Library) (f : UploadedFile) (ids : nat -> string)
    (cl s : State) :
  let r := handleFileUpload (Some f) ids cl lib [] s in
  let n := length (file_pages (file_content f)) in
  let tr0 := [SetFlag isLoading true; SetFileName (file_name f)] in
  let titled := setDocTitle (strip_extension (file_name f)) s in
  let read := setFileBytes (Some (file_content f)) titled in
  let reset := [SetFlag isLoading false; SetFlag isFileMenuOpen false] in
  (throws lib tr0 File_arrayBuffer = true ->
     r = mkRes (tr0 ++ [Throw File_arrayBuffer]) titled None) /\
  (throws lib tr0 File_arrayBuffer = false ->
   throws lib (tr0 ++ [Call File_arrayBuffer]) getDocument = true ->
     r = mkRes (tr0 ++ [Call File_arrayBuffer; Throw getDocument;
                        Alert "Error loading PDF"] ++ reset)
           read (Some tt)) /\
  (throws lib tr0 File_arrayBuffer = false ->
   throws lib (tr0 ++ [Call File_arrayBuffer]) getDocument = false ->
     exists ev,
       Forall call_event ev /\
       res_state r = install_loaded cl (file_content f) ids read /\
       fileBytes (res_state r) = Some (file_content f) /\
       pdfDoc (res_state r) = Some (file_content f) /\
       docTitle (res_state r) = strip_extension (file_name f) /\
       pages (res_state r) = initialSequence n ids /\
       elements (res_state r) = [] /\
       currentPageIndex (res_state r) = 0 /\
       ((res_trace r =
           tr0 ++ [Call File_arrayBuffer; Call getDocument] ++ ev
             ++ [SetDocumentText (Nat.min n 10)] ++ reset /\
         Forall not_a_throw ev) \/
        (res_trace r =
           tr0 ++ [Call File_arrayBuffer; Call getDocument] ++ ev
             ++ [Alert "Error loading PDF"] ++ reset /\
         exists c, In (Throw c) ev))).
Proof.
  intros r n tr0 titled read reset. subst r.
  rewrite handleFileUpload_run. fold n tr0 titled read reset.
  destruct (throws lib tr0 File_arrayBuffer) eqn:Hread.
  { split; [done |]. split; by intros [=]. }
  split; [by intros [=] |].
  destruct (throws lib (tr0 ++ [Call File_arrayBuffer]) getDocument) eqn:Hparse.
  { split; [| by intros _ [=]]. intros _ _. reflexivity. }
  split; [by intros _ [=] |]. intros _ _.
  set (s1 := install_loaded cl (file_content f) ids read).
  set (tr2 := tr0 ++ [Call File_arrayBuffer; Call getDocument]).
  set (loop := for_each (seq 1 (Nat.min n 10)) _).
  assert (Hloop : traced call_event any_value loop)
    by (subst loop; repeat traced_step).
  assert (Hraises : raises every_call loop)
    by (subst loop; repeat raises_step).
  destruct (Hloop lib tr2 s1) as (ev & Hev & HP & Hv). unfold adds in Hev.
  pose proof (text_extraction_state (Nat.min n 10) lib tr2 s1) as Hst.
  fold loop in Hst.
  pose proof (no_throw_when_returned loop lib tr2 s1 ev) as Hquiet.
  destruct (install_loaded_spec cl (file_content f) ids read)
    as (Hd & Hp & _ & He & Hc & Hf & Ht & _).
  fold s1 in Hd, Hp, He, Hc, Hf, Ht. simpl in Hf, Ht.
  exists ev. split; [exact HP |].
  destruct (loop lib tr2 s1) as [tr3 s3 [[] |]];
    simpl in Hev, Hst, Hv, Hquiet; subst tr3 s3; simpl.
  - repeat (split; [done |]). left.
    split; [| by apply (Hquiet tt Hraises)].
    subst tr2 tr0 reset. simpl. by rewrite <- ?app_assoc.
  - repeat (split; [done |]). right.
    split; [| exact Hv].
    subst tr2 tr0 reset. simpl. by rewrite <- ?app_assoc.
Qed.

Lemma upload_outcome_witness :
  exists ev,
    Forall call_event ev /\
    pages (res_state (handleFileUpload (Some one_page_file) sample_ids
                        initial_state quiet_library [] initial_state))
      = initialSequence 1 sample_ids.
Proof.
  destruct (proj2 (proj2 (upload_outcome quiet_library one_page_file sample_ids
                            initial_state initial_state)) eq_refl eq_refl)
    as (ev & HP & _ & _ & _ & _ & Hp & _).
  by exists ev.
Defined.

(** X23.  Opening a document does not reset the undo history: the snapshot
    of the new document is pushed on top of the history of the document
    before (which still holds at most 30 entries), undo is enabled, and
    undo shows the elements and the page sequence of the previous
    document's current entry while the new document stays loaded. *)
Theorem upload_keeps_undo_history (cl : State) (content : PdfFile)
    (ids : nat -> string) (s : State) (cur : Snapshot) :
  history_ok cl ->
  js_index (history cl) (historyIndex cl) = Some cur ->
  let s' := install_loaded cl content ids s in
  pdfDoc s' = Some content /\
  pages s' = initialSequence (length (file_pages content)) ids /\
  undo_enabled s' = true /\
  Z.of_nat (length (history s')) =
    (if decide (historyIndex cl < 29) then historyIndex cl + 2 else 30) /\
  elements (undo s') = snap_elements cur /\
  pageSequence (undo s') = snap_sequence cur /\
  pdfDoc (undo s') = Some content.
Proof.
  intros Hok Hcur s'.
  destruct (install_loaded_spec cl content ids s) as (Hd & Hp & _).
  fold s' in Hd, Hp.
  split; [exact Hd |]. split; [exact Hp |].
  subst s'. unfold install_loaded in *. rewrite alloc_all_spec in *.
  match goal with
  | |- context [saveToHistory cl [] ?rs ?s1] =>
      destruct (saveToHistory_undo cl [] rs s1 cur Hok Hcur)
        as (He & Hs & _ & _ & Hd' & _);
      pose proof (saveToHistory_length cl [] rs s1 Hok) as Hl;
      pose proof (proj2 (saveToHistory_undo_enabled cl [] rs s1 Hok)) as Hu
  end.
  split.
  { apply Hu. apply js_index_Some in Hcur. lia. }
  split; [exact Hl |]. split; [exact He |]. split; [exact Hs |].
  rewrite Hd'. exact Hd.
Qed.

Lemma upload_keeps_undo_history_witness :
  history_ok opened_state /\
  undo_enabled
    (install_loaded opened_state {| file_pages := [letter; letter] |} sample_ids
       opened_state) = true.
Proof.
  assert (H : history_ok opened_state).
  { rewrite opened_state_eq. unfold history_ok. simpl. lia. }
  split; [exact H |].
  apply (upload_keeps_undo_history opened_state {| file_pages := [letter; letter] |}
           sample_ids opened_state {| snap_elements := []; snap_sequence := [1%nat] |} H).
  reflexivity.
Defined.

(** ** The order of the files to merge *)

(** X24.  In the merge tool, moveFile on an index of the list gives a
    permutation of the list of the same length. Moving the first file up
    or the last file down changes nothing; otherwise the file and its
    neighbour are exchanged, all other positions are unchanged, and moving
    the file back in the opposite direction restores the list. *)
Theorem moveFile_spec (index : nat) (direction : MergeTool.Direction)
    (files : list MergeTool.Entry) (a : MergeTool.Entry) :
  files !! index = Some a ->
  let target :=
    if MergeTool.is_up direction then (index - 1)%nat else (index + 1)%nat in
  let back :=
    if MergeTool.is_up direction then MergeTool.down else MergeTool.up in
  exists files',
    MergeTool.moveFile index direction files = Some files' /\
    files' ≡ₚ files /\
    length files' = length files /\
    ((direction = MergeTool.up /\ index = 0%nat \/
      direction = MergeTool.down /\ index = (length files - 1)%nat) ->
     files' = files) /\
    (forall b, index <> target -> files !! target = Some b ->
       files' !! target = Some a /\ files' !! index = Some b /\
       (forall k, k <> index -> k <> target -> files' !! k = files !! k) /\
       MergeTool.moveFile target back files' = Some files).
Proof.
  intros Ha target back.
  apply lookup_lt_Some in Ha as Hlt.
  unfold MergeTool.moveFile.
  destruct direction; simpl in *.
  - destruct (Z.eqb_spec (Z.of_nat index) 0) as [H0 | H0].
    + exists files. split; [reflexivity |]. split; [reflexivity |].
      split; [reflexivity |]. split; [intros _; reflexivity |].
      intros b Hne. subst target. lia.
    + rewrite Ha.
      destruct (files !! (index - 1)%nat) as [b |] eqn:Hb;
        [| apply lookup_ge_None in Hb; lia].
      eexists. split; [reflexivity |].
      split; [by apply swap_Permutation |].
      split; [by rewrite !length_insert |].
      split; [intros [[_ ->] | [[=] _]]; lia |].
      intros b' Hne Hb'. subst target back.
      assert (b' = b) as -> by congruence.
      split; [apply list_lookup_insert_eq; rewrite length_insert; lia |].
      split.
      { rewrite list_lookup_insert_ne by lia.
        by apply list_lookup_insert_eq. }
      split.
      { intros k Hk1 Hk2. by rewrite !list_lookup_insert_ne by done. }
      rewrite !length_insert.
      destruct (Z.eqb_spec (Z.of_nat (index - 1)) (Z.of_nat (length files) - 1));
        [lia |].
      replace (index - 1 + 1)%nat with index by lia.
      rewrite list_lookup_insert_eq by (rewrite length_insert; lia).
      rewrite list_lookup_insert_ne by lia.
      rewrite list_lookup_insert_eq by lia.
      f_equal. by apply swap_back.
  - destruct (Z.eqb_spec (Z.of_nat index) (Z.of_nat (length files) - 1))
      as [H0 | H0].
    + exists files. split; [reflexivity |]. split; [reflexivity |].
      split; [reflexivity |]. split; [intros _; reflexivity |].
      intros b Hne Hb. subst target.
      apply lookup_lt_Some in Hb. lia.
    + rewrite Ha.
      destruct (files !! (index + 1)%nat) as [b |] eqn:Hb;
        [| apply lookup_ge_None in Hb; lia].
      eexists. split; [reflexivity |].
      split; [by apply swap_Permutation |].
      split; [by rewrite !length_insert |].
      split; [intros [[[=] _] | [_ ->]]; lia |].
      intros b' Hne Hb'. subst target back.
      assert (b' = b) as -> by congruence.
      split; [apply list_lookup_insert_eq; rewrite length_insert; lia |].
      split.
      { rewrite list_lookup_insert_ne by lia.
        by apply list_lookup_insert_eq. }
      split.
      { intros k Hk1 Hk2. by rewrite !list_lookup_insert_ne by done. }
      destruct (Z.eqb_spec (Z.of_nat (index + 1)) 0); [lia |].
      replace (index + 1 - 1)%nat with index by lia.
      rewrite list_lookup_insert_eq by (rewrite length_insert; lia).
      rewrite list_lookup_insert_ne by lia.
      rewrite list_lookup_insert_eq by lia.
      f_equal. by apply swap_back.
Qed.

Lemma moveFile_spec_witness :
  let a := MergeTool.mk "a" {| file_pages := [letter] |} in
  let b := MergeTool.mk "b" {| file_pages := [letter; letter] |} in
  exists files',
    MergeTool.moveFile 1 MergeTool.up [a; b] = Some files' /\
    files' ≡ₚ [a; b].
Proof.
  intros a b.
  destruct (moveFile_spec 1 MergeTool.up [a; b] b eq_refl)
    as (files' & Hm & Hp & _).
  by exists files'.
Defined.

(** ** Gestures on a page *)

Lemma mouse_moves_idle es dom s :
  isDragging s = false -> mouse_moves es dom s = s.
Proof.
  intros Hd. induction es as [| e es IH]; [done |].
  unfold mouse_moves in *. simpl.
  replace (handleMouseMove e dom s) with s; [exact IH |].
  unfold handleMouseMove. by rewrite Hd.
Qed.

Lemma mouse_moves_creating es dom s :
  isDragging s = true -> action s = Some creating -> mouse_moves es dom s = s.
Proof.
  intros Hd Ha. induction es as [| e es IH]; [done |].
  unfold mouse_moves in *. simpl.
  replace (handleMouseMove e dom s) with s; [exact IH |].
  unfold handleMouseMove. by rewrite Hd, Ha.
Qed.

Lemma setCurrentPoints_same s : setCurrentPoints (currentPoints s) s = s.
Proof. by apply State_ext. Qed.

Lemma setCurrentPoints_twice pts pts' s :
  setCurrentPoints pts (setCurrentPoints pts' s) = setCurrentPoints pts s.
Proof. by apply State_ext. Qed.

Lemma mouse_moves_drawing es dom s :
  isDragging s = true -> action s = Some drawing ->
  exists pts, mouse_moves es dom s = setCurrentPoints pts s.
Proof.
  intros Hd Ha. revert s Hd Ha.
  induction es as [| e es IH]; intros s Hd Ha.
  - exists (currentPoints s). by rewrite setCurrentPoints_same.
  - unfold mouse_moves in *. simpl.
    assert (Hstep : exists pts, handleMouseMove e dom s = setCurrentPoints pts s).
    { unfold handleMouseMove. rewrite Hd, Ha. simpl.
      destruct (dom (activePageId s)); [by eexists |].
      exists (currentPoints s). by rewrite setCurrentPoints_same. }
    destruct Hstep as [pts1 ->].
    destruct (IH (setCurrentPoints pts1 s) Hd Ha) as [pts ->].
    exists pts. apply setCurrentPoints_twice.
Qed.

(** The elements after the release of the mouse, for a state whose drag
    was started on a page with another tool than Select. *)
Lemma handleMouseUp_adds e dom now s :
  isDragging s = true ->
  (action s = Some drawing /\
   (toolMode s = draw \/ toolMode s = highlight) \/
   action s = Some creating) ->
  exists added,
    elements (handleMouseUp e dom now s) = elements s ++ added /\
    (length added <= 1)%nat /\
    Forall (fun el => EditorElement.type el = toolMode s /\
                      Some (EditorElement.pageId el) = activePageId s /\
                      EditorElement.id el = now) added /\
    isDragging (handleMouseUp e dom now s) = false /\
    pageSequence (handleMouseUp e dom now s) = pageSequence s.
Proof.
  intros Hd Hact.
  assert (Hpage : forall p, activePageId s = p -> truthy p = true ->
                            Some (default "" p) = p).
  { intros [p |] _; [done | discriminate]. }
  assert (Hframe : forall cl els rs s0 (b : bool),
            elements (if b then setToolMode select (saveToHistory cl els rs s0)
                      else saveToHistory cl els rs s0) = elements s0 /\
            pageSequence (if b then setToolMode select (saveToHistory cl els rs s0)
                          else saveToHistory cl els rs s0) = pageSequence s0).
  { intros cl els rs s0 b.
    destruct (saveToHistory_frame cl els rs s0) as (_ & _ & Hs & Hel & _).
    by destruct b. }
  unfold handleMouseUp. rewrite Hd. simpl.
  destruct Hact as [[Ha Htool] | Ha]; rewrite Ha; simpl.
  - destruct (truthy (activePageId s)) eqn:Htruthy; simpl.
    + destruct (2 <? Z.of_nat (length (currentPoints s))); simpl.
      * destruct (saveToHistory_frame s
                    (elements s ++ [drawn_element now (default "" (activePageId s)) s])
                    (pageSequence s)
                    (setElements
                       (elements s
                          ++ [drawn_element now (default "" (activePageId s)) s]) s))
          as (_ & _ & Hs & Hel & _).
        simpl in Hs, Hel. rewrite Hel, Hs.
        eexists. split; [reflexivity |]. split; [simpl; lia |].
        split; [| done]. apply Forall_singleton. simpl.
        split; [by destruct Htool as [-> | ->] |].
        split; [by apply Hpage | done].
      * exists []. rewrite app_nil_r.
        split; [done |]. split; [simpl; lia |]. split; [constructor | done].
    + exists []. rewrite app_nil_r.
        split; [done |]. split; [simpl; lia |]. split; [constructor | done].
  - destruct (truthy (activePageId s)) eqn:Htruthy; simpl.
    + destruct (dom (activePageId s)) as [box |]; simpl.
      * match goal with
        | |- context [if ?c then _ else s] => destruct c
        end; simpl.
        -- match goal with
           | |- context [saveToHistory ?cl ?els ?rs ?s0] =>
               destruct (Hframe cl els rs s0
                           (negb (ToolMode_eqb (toolMode s) text))) as [Hel Hs]
           end.
           simpl in Hel, Hs. rewrite Hel, Hs.
           eexists. split; [reflexivity |]. split; [simpl; lia |].
           split; [| done]. apply Forall_singleton. simpl.
           split; [done |]. split; [by apply Hpage | done].
        -- exists []. rewrite app_nil_r.
        split; [done |]. split; [simpl; lia |]. split; [constructor | done].
      * exists []. rewrite app_nil_r.
        split; [done |]. split; [simpl; lia |]. split; [constructor | done].
    + exists []. rewrite app_nil_r.
        split; [done |]. split; [simpl; lia |]. split; [constructor | done].
Qed.

(** X25.  With a tool other than Select, a whole gesture on a page (press,
    any mouse moves, release) keeps all existing elements where they are
    and appends at most one element, of the type of the tool, on that
    page, with the time of the release as its id. In particular the Eraser
    tool removes nothing. *)
Theorem page_drag_only_adds (pos : Point.t) (pageMeta : PageMetadata.t)
    (es : list MouseEvent) (e : MouseEvent) (dom : Dom) (now : string)
    (s : State) :
  isDragging s = false ->
  toolMode s <> select ->
  let s3 :=
    handleMouseUp e dom now (mouse_moves es dom (pageMouseDown pos pageMeta s)) in
  exists added,
    elements s3 = elements s ++ added /\
    (length added <= 1)%nat /\
    Forall (fun el => EditorElement.type el = toolMode s /\
                      EditorElement.pageId el = PageMetadata.id pageMeta /\
                      EditorElement.id el = now) added /\
    isDragging s3 = false /\
    pageSequence s3 = pageSequence s.
Proof.
  intros Hd Htool s3. subst s3. unfold pageMouseDown.
  destruct (negb (bool_decide (is_Some (pdfDoc s)))
            && negb (PageMetadata.originalIndex pageMeta =? -1)).
  { rewrite (mouse_moves_idle es dom s Hd).
    exists []. rewrite app_nil_r.
    unfold handleMouseUp. rewrite Hd.
    split; [done |]. split; [simpl; lia |]. split; [constructor | done]. }
  destruct (ToolMode_eqb (toolMode s) select) eqn:Hsel.
  { by destruct (toolMode s). }
  set (act := if ToolMode_eqb (toolMode s) draw || ToolMode_eqb (toolMode s) highlight
              then drawing else creating).
  set (s1 := onActionStart act None pos (PageMetadata.id pageMeta) s).
  assert (H1 : isDragging s1 = true /\ action s1 = Some act /\
               elements s1 = elements s /\ toolMode s1 = toolMode s /\
               activePageId s1 = Some (PageMetadata.id pageMeta) /\
               pageSequence s1 = pageSequence s).
  { subst s1. unfold onActionStart. by destruct (Action_eqb act drawing). }
  destruct H1 as (Hd1 & Ha1 & He1 & Ht1 & Hp1 & Hs1).
  assert (H2 : exists pts, mouse_moves es dom s1 = setCurrentPoints pts s1).
  { destruct (ToolMode_eqb (toolMode s) draw || ToolMode_eqb (toolMode s) highlight)
      eqn:Hdraw; subst act.
    - by apply mouse_moves_drawing.
    - rewrite (mouse_moves_creating es dom s1 Hd1 Ha1).
      exists (currentPoints s1). by rewrite setCurrentPoints_same. }
  destruct H2 as [pts ->].
  destruct (handleMouseUp_adds e dom now (setCurrentPoints pts s1))
    as (added & Hel & Hlen & Hall & Hdrag & Hseq).
  - exact Hd1.
  - simpl. rewrite Ha1, Ht1. subst act.
    destruct (toolMode s); simpl; tauto.
  - exists added. simpl in Hel, Hall, Hseq.
    rewrite Hel, He1, Hdrag, Hseq, Hs1.
    split; [done |]. split; [done |]. split; [| done].
    eapply Forall_impl; [exact Hall |].
    intros el (Hty & Hpg & Hid). rewrite Ht1 in Hty. rewrite Hp1 in Hpg.
    split; [done |]. split; [congruence | done].
Qed.

Lemma page_drag_only_adds_witness :
  let s := setToolMode eraser opened_state in
  exists added,
    elements
      (handleMouseUp (mouse 80 90) at_origin "7"
         (mouse_moves [mouse 50 60] at_origin
            (pageMouseDown (Point.mk 10 10) (PageMetadata.mk "p0" 1 0) s)))
      = elements s ++ added /\
    Forall (fun el => EditorElement.type el = eraser) added.
Proof.
  intros s.
  destruct (page_drag_only_adds (Point.mk 10 10) (PageMetadata.mk "p0" 1 0)
              [mouse 50 60] (mouse 80 90) at_origin "7" s)
    as (added & Hel & _ & Hall & _).
  - reflexivity.
  - discriminate.
  - exists added. split; [exact Hel |].
    eapply Forall_impl; [exact Hall |]. by intros el (Hty & _).
Defined.

(** X26.  With the Select tool, pressing the mouse on an element (other
    than the selected text element), dragging and releasing selects the
    element, displaces every element with its id once per mouse move, by
    the step of the mouse since the event before (for a single move: by
    the vector from the press to that move), ends the drag, and pushes the
    resulting element list as the last history entry, after which nothing
    can be redone. *)
Theorem press_drag_release_moves (e0 : MouseEvent) (pos : Point.t)
    (el : EditorElement.t) (pageMeta : PageMetadata.t) (es : list MouseEvent)
    (e : MouseEvent) (dom : Dom) (now : string) (s : State) :
  toolMode s = select ->
  EditorElement.id el <> "" ->
  id_is (selectedId s) (EditorElement.id el)
    && ToolMode_eqb (EditorElement.type el) text = false ->
  let s3 :=
    handleMouseUp e dom now
      (mouse_moves es dom (elementMouseDown e0 pos el pageMeta s)) in
  elements s3 =
    dragged (Some (EditorElement.id el)) (clientX e0) (clientY e0) es
      (elements s) /\
  (forall e1, es = [e1] ->
     elements s3 =
       map (displaced (Some (EditorElement.id el))
              (clientX e1 - clientX e0) (clientY e1 - clientY e0))
         (elements s)) /\
  selectedId s3 = Some (EditorElement.id el) /\
  isDragging s3 = false /\ action s3 = None /\
  pageSequence s3 = pageSequence s /\
  last (history s3) =
    Some (new_snapshot (elements s3) (pageSequence s)
            (mouse_moves es dom (elementMouseDown e0 pos el pageMeta s))) /\
  (history_ok s -> redo_enabled s3 = false).
Proof.
  intros Htool Hid Hnot s3. subst s3.
  unfold elementMouseDown. rewrite Htool, Hnot. simpl.
  set (s1 := onActionStart moving None (Point.mk (clientX e0) (clientY e0))
               (PageMetadata.id pageMeta)
               (setSelectedId (Some (EditorElement.id el)) s)) in *.
  assert (Htruthy : truthy (selectedId s1) = true).
  { simpl. by destruct (String.eqb_spec (EditorElement.id el) ""). }
  destruct (mouse_moves_dragged es dom s1 eq_refl eq_refl Htruthy)
    as (Hel & Hd & Ha & Hsel & Hseq & Hh & Hhi & _).
  set (s2 := mouse_moves es dom s1) in *.
  change (elements s1) with (elements s) in Hel.
  change (selectedId s1) with (Some (EditorElement.id el)) in Hel, Hsel.
  change (Point.x (dragStart s1)) with (clientX e0) in Hel.
  change (Point.y (dragStart s1)) with (clientY e0) in Hel.
  change (pageSequence s1) with (pageSequence s) in Hseq.
  change (history s1) with (history s) in Hh.
  change (historyIndex s1) with (historyIndex s) in Hhi.
  unfold handleMouseUp. rewrite Hd, Ha. simpl.
  destruct (saveToHistory_frame s2 (elements s2) (pageSequence s2) s2)
    as (_ & _ & Hs' & He' & _ & Hsel' & _).
  simpl in He', Hs', Hsel'.
  split; [by rewrite He', Hel |].
  split; [intros e1 ->; by rewrite He', Hel |].
  split; [by rewrite Hsel', Hsel |].
  split; [done |]. split; [done |].
  split; [by rewrite Hs', Hseq |]. split.
  { rewrite saveToHistory_history, pushed_history_last, He', Hseq. done. }
  intros Hok.
  assert (Hok2 : history_ok s2) by (by apply (history_ok_same s); [| |]).
  unfold redo_enabled. simpl.
  rewrite saveToHistory_historyIndex, saveToHistory_history.
  by destruct (Z.geb_spec
                 (Z.of_nat (length (pushed_history s2
                                      (new_snapshot (elements s2) (pageSequence s2) s2))) - 1)
                 (Z.of_nat (length (pushed_history s2
                                      (new_snapshot (elements s2) (pageSequence s2) s2))) - 1));
    [| lia].
Qed.

Lemma press_drag_release_moves_witness :
  let a := created_element "a" "p0" 30 30 30 30 opened_state in
  let s := setElements [a] opened_state in
  selectedId
    (handleMouseUp (mouse 9 2) at_origin "7"
       (mouse_moves [mouse 5 5; mouse 9 2] at_origin
          (elementMouseDown (mouse 1 1) (Point.mk 1 1) a
             (PageMetadata.mk "p0" 1 0) s)))
    = Some "a".
Proof.
  intros a s.
  apply (press_drag_release_moves (mouse 1 1) (Point.mk 1 1) a
           (PageMetadata.mk "p0" 1 0) [mouse 5 5; mouse 9 2] (mouse 9 2)
           at_origin "7" s);
    [reflexivity | discriminate | reflexivity].
Defined.

(** ** Resizing an element *)

(** X27.  While a corner handle is dragged, an east or south handle keeps
    x or y and sets the width or height to max(10, old + delta); a west or
    north handle moves x or y by the delta and sets the width or height to
    max(10, old - delta). So the opposite edge stays where it is as long
    as the size is at least 10, and moves with the mouse once the size is
    clamped to 10. Other elements are unchanged. *)
Theorem resize_anchor (e : MouseEvent) (dom : Dom) (s : State) (dir : string) :
  isDragging s = true ->
  action s = Some resizing ->
  truthy (selectedId s) = true ->
  resizeDir s = Some dir ->
  dir = "nw" \/ dir = "ne" \/ dir = "sw" \/ dir = "se" ->
  let dx := (clientX e - Point.x (dragStart s))%R in
  let dy := (clientY e - Point.y (dragStart s))%R in
  Forall2
    (fun el' el =>
       (id_is (selectedId s) (EditorElement.id el) = false -> el' = el) /\
       (id_is (selectedId s) (EditorElement.id el) = true ->
          let right el := (EditorElement.x el + EditorElement.width el)%R in
          let bottom el := (EditorElement.y el + EditorElement.height el)%R in
          (dir = "ne" \/ dir = "se" ->
             EditorElement.x el' = EditorElement.x el /\
             EditorElement.width el' = Rmax 10 (EditorElement.width el + dx)) /\
          (dir = "nw" \/ dir = "sw" ->
             EditorElement.x el' = (EditorElement.x el + dx)%R /\
             EditorElement.width el' = Rmax 10 (EditorElement.width el - dx) /\
             ((10 <= EditorElement.width el - dx)%R -> right el' = right el) /\
             ((EditorElement.width el - dx < 10)%R ->
                right el' = (right el + (10 - (EditorElement.width el - dx)))%R)) /\
          (dir = "sw" \/ dir = "se" ->
             EditorElement.y el' = EditorElement.y el /\
             EditorElement.height el' = Rmax 10 (EditorElement.height el + dy)) /\
          (dir = "nw" \/ dir = "ne" ->
             EditorElement.y el' = (EditorElement.y el + dy)%R /\
             EditorElement.height el' = Rmax 10 (EditorElement.height el - dy) /\
             ((10 <= EditorElement.height el - dy)%R -> bottom el' = bottom el) /\
             ((EditorElement.height el - dy < 10)%R ->
                bottom el' =
                  (bottom el + (10 - (EditorElement.height el - dy)))%R))))
    (elements (handleMouseMove e dom s)) (elements s) /\
  dragStart (handleMouseMove e dom s) = Point.mk (clientX e) (clientY e).
Proof.
  intros Hd Ha Hs Hdir Hdirs dx dy.
  assert (Ht : truthy (resizeDir s) = true).
  { rewrite Hdir. destruct Hdirs as [-> | [-> | [-> | ->]]]; reflexivity. }
  unfold handleMouseMove. rewrite Hd, Ha, Hs, Ht, Hdir. simpl.
  split; [| done]. fold dx dy.
  apply Forall2_same_length_lookup_2; [by rewrite length_map |].
  intros i el' el Hel' Hel.
  rewrite list_lookup_fmap, Hel in Hel'. simpl in Hel'. injection Hel' as <-.
  split.
  - intros Hsel. by apply resize_item_other.
  - intros Hsel. unfold resize_item. rewrite Hsel. simpl.
    assert (Hmax : forall v, (10 <= v)%R -> Rmax 10 v = v)
      by (intros v Hv; by apply Rmax_right).
    assert (Hmin : forall v, (v < 10)%R -> Rmax 10 v = 10%R)
      by (intros v Hv; apply Rmax_left; lra).
    destruct Hdirs as [-> | [-> | [-> | ->]]]; simpl;
      repeat split;
      try (match goal with
           | H : _ = _ \/ _ = _ |- _ => by destruct H as [H | H]; discriminate H
           end);
      try done;
      try (intros Hv; rewrite (Hmax _ Hv); lra);
      try (intros Hv; rewrite (Hmin _ Hv); lra).
Qed.

Lemma resize_anchor_witness :
  dragStart (handleMouseMove (mouse 3 4) at_origin resizing_state) = Point.mk 3 4.
Proof.
  apply (resize_anchor (mouse 3 4) at_origin resizing_state "se");
    [reflexivity | reflexivity | reflexivity | reflexivity | tauto].
Defined.

(** ** The sign tool *)

Lemma sign_find_large (p : SignTool.SignatureObject -> bool) sigs g :
  Forall SignTool.large_enough sigs -> List.find p sigs = Some g ->
  SignTool.large_enough g.
Proof.
  intros Hall Hfind. apply find_some in Hfind as [Hin _].
  rewrite Forall_forall in Hall. apply Hall. by apply list_elem_of_In.
Qed.

Lemma sign_resized_large rs e g :
  (30 <= SignTool.startWidth rs)%R -> (30 <= SignTool.startHeight rs)%R ->
  SignTool.large_enough (SignTool.resized rs e g).
Proof.
  intros Hw Hh. unfold SignTool.resized, SignTool.large_enough, SignTool.Rleb.
  repeat case_match; simplify_eq; simpl; split;
    try apply Rmax_l; try lra; try done.
Qed.

Section Static.
Context {St : Type}.

Lemma static_ret {A} (a : A) : static_ (mret a : M St A).
Proof. by intros lib tr s. Qed.

Lemma static_emit e : static_ (emit e : M St unit).
Proof. by intros lib tr s. Qed.

Lemma static_call c : static_ (call c : M St unit).
Proof. intros lib tr s. unfold call. by destruct (throws lib tr c). Qed.

Lemma static_call_throwing {A} c : static_ (call_throwing c : M St A).
Proof. by intros lib tr s. Qed.

Lemma static_bind {A B} (m : M St A) (k : A -> M St B) :
  static_ m -> (forall a, static_ (k a)) -> static_ (m ≫= k).
Proof.
  intros Hm Hk lib tr s. unfold mbind, M_bind.
  specialize (Hm lib tr s).
  destruct (m lib tr s) as [tr' s' [a |]]; simpl in *; subst s'; [| done].
  apply Hk.
Qed.

Lemma static_try_catch {A} (m h : M St A) :
  static_ m -> static_ h -> static_ (try_catch m h).
Proof.
  intros Hm Hh lib tr s. unfold try_catch.
  specialize (Hm lib tr s).
  destruct (m lib tr s) as [tr' s' [a |]]; simpl in *; subst s'; [done |].
  apply Hh.
Qed.

Lemma static_try_finally {A} (m : M St A) (f : M St unit) :
  static_ m -> static_ f -> static_ (try_finally m f).
Proof.
  intros Hm Hf lib tr s. unfold try_finally.
  specialize (Hm lib tr s).
  destruct (m lib tr s) as [tr' s' v]; simpl in *; subst s'.
  specialize (Hf lib tr' s).
  by destruct (f lib tr' s) as [tr'' s'' [[] |]].
Qed.

Lemma static_for_each {A} (l : list A) (f : nat -> A -> M St unit) :
  (forall j a, static_ (f j a)) -> static_ (for_each l f).
Proof.
  intros Hf. unfold for_each. generalize 0%nat.
  induction l as [| a l IH]; intros i; simpl.
  - apply static_ret.
  - apply static_bind; [apply Hf | intros _; apply IH].
Qed.

End Static.

Lemma sign_handleDownload_state cl lib tr s :
  res_state (SignTool.handleDownload cl lib tr s) = s.
Proof.
  assert (H : static_ (SignTool.handleDownload cl)); [| apply H].
  unfold SignTool.handleDownload, SignTool.download_try,
    SignTool.download_catch, SignTool.download_finally, SignTool.drawSignature.
  repeat first
    [ apply static_ret | apply static_emit | apply static_call
    | apply static_call_throwing
    | apply static_bind; [| intros ?]
    | apply static_try_catch | apply static_try_finally
    | apply static_for_each; intros ? ?
    | match goal with
      | |- static_ (if ?b then _ else _) => destruct b
      | |- static_ (match ?x with _ => _ end) => destruct x
      end ].
Qed.

Ltac sign_invariant_split :=
  split; [| split; [| split; [| split]]]; simpl; try assumption.

Lemma sign_step_invariant op s :
  SignTool.invariant s -> SignTool.invariant (SignTool.step op s).
Proof.
  intros (Hsigs & Hrs & Hscale & Hpage & Hdoc).
  assert (Hinv : SignTool.invariant s) by done.
  destruct op; simpl.
  - (* upload *)
    destruct file as [f |]; simpl; [| done].
    unfold SignTool.handleFileUpload, SignTool.upload_try,
      SignTool.upload_catch, try_catch.
    rewrite run_bind_emit, !run_bind_modify, run_bind_call.
    destruct (throws lib _ File_arrayBuffer); simpl.
    { sign_invariant_split; [constructor | done]. }
    rewrite run_bind_modify, run_bind_call.
    destruct (throws lib _ getDocument); simpl.
    { sign_invariant_split; [constructor | done]. }
    sign_invariant_split; [constructor | lia |].
    intros f' [= <-]. split; [done | lia].
  - (* a new signature *)
    unfold SignTool.saveSignature. sign_invariant_split.
    apply Forall_app. split; [done |]. apply Forall_singleton.
    unfold SignTool.large_enough. simpl. lra.
  - unfold SignTool.handleDragStart. case_match; [| done].
    by sign_invariant_split.
  - unfold SignTool.handleResizeStart.
    destruct (SignTool.find_id i (SignTool.signatures s)) as [g |] eqn:Hfind;
      [| done].
    sign_invariant_split.
    intros rs [= <-]. simpl.
    by apply (sign_find_large _ _ _ Hsigs Hfind).
  - (* a move of the mouse *)
    unfold SignTool.handleContainerMouseMove.
    destruct (find _ (SignTool.signatures s)); [| done].
    destruct (SignTool.isDragging s).
    + sign_invariant_split. apply Forall_forall. intros g Hg.
      apply list_elem_of_fmap in Hg as (g0 & -> & Hg0).
      rewrite Forall_forall in Hsigs. specialize (Hsigs g0 Hg0).
      by case_match.
    + destruct (SignTool.resizeState s) as [rs |] eqn:Hstate; [| done].
      destruct (SignTool.active rs); [| done].
      destruct (Hrs rs eq_refl) as [Hw Hh].
      sign_invariant_split; [| by rewrite Hstate].
      apply Forall_forall. intros g Hg.
      apply list_elem_of_fmap in Hg as (g0 & -> & Hg0).
      rewrite Forall_forall in Hsigs. specialize (Hsigs g0 Hg0).
      case_match; [by apply sign_resized_large | done].
  - unfold SignTool.handleContainerMouseUp. by sign_invariant_split.
  - unfold SignTool.handleBackgroundClick. by sign_invariant_split.
  - unfold SignTool.handleDeleteSignature.
    assert (Hf : Forall SignTool.large_enough
                   (List.filter (fun g => negb (String.eqb (SignTool.id g) i))
                      (SignTool.signatures s))).
    { apply Forall_forall. intros g Hg.
      apply list_elem_of_In, filter_In in Hg as [Hg _].
      rewrite Forall_forall in Hsigs. by apply Hsigs, list_elem_of_In. }
    case_match; by sign_invariant_split.
  - unfold SignTool.zoomIn. sign_invariant_split.
    unfold Rmin. case_match; lra.
  - unfold SignTool.zoomOut. sign_invariant_split.
    unfold Rmax. case_match; lra.
  - unfold SignTool.previousPage.
    destruct (SignTool.pdfDoc s) as [f |] eqn:Hf; [| done].
    destruct (Z.leb_spec (SignTool.currentPage s) 1); [done |].
    sign_invariant_split; [lia |]. rewrite Hf. intros f' Hf'.
    destruct (Hdoc f' Hf') as [Hb Hle]. split; [done | lia].
  - unfold SignTool.nextPage.
    destruct (SignTool.pdfDoc s) as [f |] eqn:Hf; [| done].
    destruct (Z.geb_spec (SignTool.currentPage s)
                (Z.of_nat (length (file_pages f)))); [done |].
    sign_invariant_split; [lia |]. rewrite Hf. intros f' Hf'.
    destruct (Hdoc f' Hf') as [Hb Hle]. split; [done |].
    injection Hf' as <-. lia.
  - (* download *)
    by rewrite sign_handleDownload_state.
Qed.

Lemma sign_run_invariant ops s :
  SignTool.invariant s -> SignTool.invariant (SignTool.run ops s).
Proof.
  unfold SignTool.run. revert s.
  induction ops as [| op ops IH]; intros s H; simpl; [done |].
  apply IH. by apply sign_step_invariant.
Qed.

Lemma sign_initial_invariant : SignTool.invariant SignTool.initial.
Proof.
  split; [constructor |]. split; [done |]. split; [simpl; lra |].
  split; [simpl; lia | done].
Qed.

(** X28.  After every sequence of user actions in the sign tool, every
    signature is at least 30 wide and 30 high, the zoom is between 0.5 and
    3, the current page number is at least 1, and when a document is shown
    its bytes are stored and, if it has pages, the current page is one of
    them. *)
Theorem sign_tool_invariant (ops : list SignTool.Op) :
  let s := SignTool.run ops SignTool.initial in
  Forall (fun g => (30 <= SignTool.width g)%R /\ (30 <= SignTool.height g)%R)
    (SignTool.signatures s) /\
  (0.5 <= SignTool.scale s <= 3)%R /\
  1 <= SignTool.currentPage s /\
  (forall f,
     SignTool.pdfDoc s = Some f ->
     SignTool.fileBytes s = Some f /\
     (file_pages f <> [] ->
      exists size, js_index (file_pages f) (SignTool.currentPage s - 1) = Some size)).
Proof.
  intros s.
  destruct (sign_run_invariant ops SignTool.initial sign_initial_invariant)
    as (Hsigs & _ & Hscale & Hpage & Hdoc).
  fold s in Hsigs, Hscale, Hpage, Hdoc.
  split; [exact Hsigs |]. split; [exact Hscale |]. split; [exact Hpage |].
  intros f Hf. destruct (Hdoc f Hf) as [Hb Hle]. split; [exact Hb |].
  intros Hne. apply js_index_is_Some.
  destruct (file_pages f); [done |]. simpl in *. lia.
Qed.

Lemma sign_tool_invariant_witness :
  (0.5 <= SignTool.scale
            (SignTool.run [SignTool.op_zoomOut; SignTool.op_zoomOut]
               SignTool.initial) <= 3)%R.
Proof.
  apply (sign_tool_invariant [SignTool.op_zoomOut; SignTool.op_zoomOut]).
Defined.

Lemma sign_moved_to_twice i x1 y1 x2 y2 g :
  SignTool.moved_to i x2 y2 (SignTool.moved_to i x1 y1 g) =
  SignTool.moved_to i x2 y2 g.
Proof.
  unfold SignTool.moved_to.
  destruct (String.eqb (SignTool.id g) i) eqn:Heq; simpl; by rewrite Heq.
Qed.

Lemma sign_find_selected i sigs :
  Exists (fun g => String.eqb (SignTool.id g) i = true) sigs ->
  exists g, find (fun g => id_is (Some i) (SignTool.id g)) sigs = Some g.
Proof.
  intros Hex. apply Exists_exists in Hex as (g & Hin & Hg).
  destruct (find _ sigs) as [g0 |] eqn:Hfind; [by exists g0 |].
  apply list_elem_of_In in Hin.
  pose proof (find_none _ _ Hfind g Hin) as Hnone. simpl in Hnone. congruence.
Qed.

Lemma sign_move_dragging e i s :
  SignTool.selectedSignatureId s = Some i ->
  SignTool.isDragging s = true ->
  Exists (fun g => String.eqb (SignTool.id g) i = true) (SignTool.signatures s) ->
  SignTool.handleContainerMouseMove e s =
    SignTool.setSignatures
      (map (SignTool.moved_to i
              (clientX e - Point.x (SignTool.dragOffset s))
              (clientY e - Point.y (SignTool.dragOffset s)))
         (SignTool.signatures s)) s.
Proof.
  intros Hsel Hdrag Hex. unfold SignTool.handleContainerMouseMove.
  rewrite Hsel, Hdrag. destruct (sign_find_selected i _ Hex) as [g ->].
  reflexivity.
Qed.

Lemma sign_mouse_moves_dragging es e i s :
  SignTool.selectedSignatureId s = Some i ->
  SignTool.isDragging s = true ->
  Exists (fun g => String.eqb (SignTool.id g) i = true) (SignTool.signatures s) ->
  last es = Some e ->
  SignTool.mouse_moves es s =
    SignTool.setSignatures
      (map (SignTool.moved_to i
              (clientX e - Point.x (SignTool.dragOffset s))
              (clientY e - Point.y (SignTool.dragOffset s)))
         (SignTool.signatures s)) s.
Proof.
  revert s. induction es as [| e1 es IH]; intros s Hsel Hdrag Hex Hlast; [done |].
  unfold SignTool.mouse_moves. simpl.
  rewrite (sign_move_dragging e1 i s Hsel Hdrag Hex).
  destruct es as [| e2 es'].
  - by injection Hlast as <-.
  - assert (Hlast' : last (e2 :: es') = Some e) by exact Hlast.
    set (s1 := SignTool.setSignatures _ s).
    assert (Hex1 : Exists (fun g => String.eqb (SignTool.id g) i = true)
                     (SignTool.signatures s1)).
    { subst s1. simpl. apply Exists_exists in Hex as (g & Hin & Hg).
      apply Exists_exists. eexists. split.
      - apply list_elem_of_fmap. exists g. by split.
      - unfold SignTool.moved_to. by rewrite Hg. }
    pose proof (IH s1 Hsel Hdrag Hex1 Hlast') as H.
    unfold SignTool.mouse_moves in H. rewrite H. subst s1.
    unfold SignTool.setSignatures. simpl. f_equal.
    rewrite map_map. apply map_ext. intros g. apply sign_moved_to_twice.
Qed.

(** X29.  In the sign tool, after a press on an existing signature and any
    non-empty series of mouse moves, every signature with that id is at
    the position the pressed signature had at the press plus the vector
    from the press to the last mouse position; it is selected, other
    signatures are unchanged, and releasing the mouse ends the drag
    without moving anything. *)
Theorem sign_drag_follows_mouse (e0 : MouseEvent) (i : string)
    (es : list MouseEvent) (e : MouseEvent) (s : SignTool.State)
    (sig : SignTool.SignatureObject) :
  SignTool.find_id i (SignTool.signatures s) = Some sig ->
  last es = Some e ->
  let s2 := SignTool.mouse_moves es (SignTool.handleDragStart e0 i s) in
  SignTool.signatures s2 =
    map (SignTool.moved_to i
           (SignTool.x sig + (clientX e - clientX e0))
           (SignTool.y sig + (clientY e - clientY e0)))
      (SignTool.signatures s) /\
  SignTool.selectedSignatureId s2 = Some i /\
  SignTool.signatures (SignTool.handleContainerMouseUp s2) = SignTool.signatures s2 /\
  SignTool.isDragging (SignTool.handleContainerMouseUp s2) = false.
Proof.
  intros Hfind Hlast s2. subst s2. unfold SignTool.handleDragStart.
  rewrite Hfind.
  set (s1 := SignTool.setDragOffset _ _).
  assert (Hex : Exists (fun g => String.eqb (SignTool.id g) i = true)
                  (SignTool.signatures s1)).
  { subst s1. simpl. apply find_some in Hfind as [Hin Hid].
    apply Exists_exists. exists sig. split; [by apply list_elem_of_In | done]. }
  rewrite (sign_mouse_moves_dragging es e i s1 eq_refl eq_refl Hex Hlast).
  subst s1. simpl. split; [| done].
  apply map_ext. intros g. unfold SignTool.moved_to.
  case_match; [| done]. unfold SignTool.placed. f_equal; lra.
Qed.

Lemma sign_drag_follows_mouse_witness :
  let s := SignTool.saveSignature "data:image/png;base64,AAAA" "1" SignTool.initial in
  SignTool.selectedSignatureId
    (SignTool.mouse_moves [mouse 70 80; mouse 90 95]
       (SignTool.handleDragStart (mouse 60 60) "1" s)) = Some "1".
Proof.
  intros s.
  apply (sign_drag_follows_mouse (mouse 60 60) "1" [mouse 70 80; mouse 90 95]
           (mouse 90 95) s (SignTool.newSignature "data:image/png;base64,AAAA" "1"
                              SignTool.initial));
    reflexivity.
Defined.

Lemma sign_move_resizing e i rs s :
  SignTool.selectedSignatureId s = Some i ->
  SignTool.isDragging s = false ->
  SignTool.resizeState s = Some rs ->
  SignTool.active rs = true ->
  Exists (fun g => String.eqb (SignTool.id g) i = true) (SignTool.signatures s) ->
  SignTool.handleContainerMouseMove e s =
    SignTool.setSignatures
      (map (fun g => if String.eqb (SignTool.id g) i
                     then SignTool.resized rs e g else g)
         (SignTool.signatures s)) s.
Proof.
  intros Hsel Hdrag Hrs Hactive Hex. unfold SignTool.handleContainerMouseMove.
  rewrite Hsel, Hdrag, Hrs, Hactive. destruct (sign_find_selected i _ Hex) as [g ->].
  reflexivity.
Qed.

(** X30.  In the sign tool, dragging a corner handle of an existing
    signature never makes it smaller than 30: an east or south handle
    keeps x or y and sets the width or height to max(30, start + delta); a
    west or north handle keeps the right or bottom edge where it is and
    sets the width or height to start - delta while that is at least 30,
    and to the start size otherwise. Other signatures are unchanged. *)
Theorem sign_resize_anchor (e0 e : MouseEvent) (dir i : string)
    (s : SignTool.State) (sig : SignTool.SignatureObject) :
  SignTool.find_id i (SignTool.signatures s) = Some sig ->
  SignTool.isDragging s = false ->
  dir = "nw" \/ dir = "ne" \/ dir = "sw" \/ dir = "se" ->
  let s2 :=
    SignTool.handleContainerMouseMove e (SignTool.handleResizeStart e0 dir i s) in
  let dx := (clientX e - clientX e0)%R in
  let dy := (clientY e - clientY e0)%R in
  let right g := (SignTool.x g + SignTool.width g)%R in
  let bottom g := (SignTool.y g + SignTool.height g)%R in
  Forall2
    (fun g' g =>
       (String.eqb (SignTool.id g) i = false -> g' = g) /\
       (String.eqb (SignTool.id g) i = true ->
          SignTool.id g' = SignTool.id g /\ SignTool.image g' = SignTool.image g /\
          (dir = "ne" \/ dir = "se" ->
             SignTool.x g' = SignTool.x sig /\
             SignTool.width g' = Rmax 30 (SignTool.width sig + dx)) /\
          (dir = "nw" \/ dir = "sw" ->
             right g' = right sig /\
             ((30 <= SignTool.width sig - dx)%R ->
                SignTool.width g' = (SignTool.width sig - dx)%R) /\
             ((SignTool.width sig - dx < 30)%R ->
                SignTool.width g' = SignTool.width sig)) /\
          (dir = "sw" \/ dir = "se" ->
             SignTool.y g' = SignTool.y sig /\
             SignTool.height g' = Rmax 30 (SignTool.height sig + dy)) /\
          (dir = "nw" \/ dir = "ne" ->
             bottom g' = bottom sig /\
             ((30 <= SignTool.height sig - dy)%R ->
                SignTool.height g' = (SignTool.height sig - dy)%R) /\
             ((SignTool.height sig - dy < 30)%R ->
                SignTool.height g' = SignTool.height sig))))
    (SignTool.signatures s2) (SignTool.signatures s).
Proof.
  intros Hfind Hdrag Hdirs s2 dx dy right bottom. subst s2.
  unfold SignTool.handleResizeStart. rewrite Hfind.
  assert (Hex : Exists (fun g => String.eqb (SignTool.id g) i = true)
                  (SignTool.signatures s)).
  { apply find_some in Hfind as [Hin Hid].
    apply Exists_exists. exists sig. split; [by apply list_elem_of_In | done]. }
  erewrite (sign_move_resizing e i); [| reflexivity | exact Hdrag | reflexivity
                                      | reflexivity | exact Hex].
  simpl.
  apply Forall2_same_length_lookup_2; [by rewrite length_map |].
  intros k g' g Hg' Hg.
  rewrite list_lookup_fmap, Hg in Hg'. simpl in Hg'. injection Hg' as <-.
  destruct (String.eqb (SignTool.id g) i) eqn:Heq.
  - split; [done |]. intros _.
    unfold SignTool.resized, SignTool.Rleb, right, bottom. simpl. fold dx dy.
    destruct Hdirs as [-> | [-> | [-> | ->]]]; simpl;
      repeat case_match; simplify_eq; simpl;
      repeat split;
      try (match goal with
           | H : _ = _ \/ _ = _ |- _ => by destruct H as [H | H]; discriminate H
           end);
      try done; try lra.
  - split; [done |]. by intros [=].
Qed.

Lemma sign_resize_anchor_witness :
  let s := SignTool.saveSignature "data:image/png;base64,AAAA" "1" SignTool.initial in
  length
    (SignTool.signatures
       (SignTool.handleContainerMouseMove (mouse 300 200)
          (SignTool.handleResizeStart (mouse 250 150) "se" "1" s)))
  = length (SignTool.signatures s).
Proof.
  intros s.
  eapply Forall2_length.
  apply (sign_resize_anchor (mouse 250 150) (mouse 300 200) "se" "1" s
           (SignTool.newSignature "data:image/png;base64,AAAA" "1" SignTool.initial));
    [reflexivity | reflexivity | tauto].
Defined.
